(** * Pull-request diff intelligence pipeline: a shallow embedding

    The development follows the JavaScript sources of the service:

    - [GitHubService]   services/githubService.js   (the unified-diff parser)
    - [DeepSeekService] services/deepSeekService.js (the review orchestrator)
    - [GithubAuth]      middleware/githubAuth.js    (the signature verifier)
    - [Webhook]         routes/webhook.js, server.js (the request pipeline)
    - [PullRequestHandler], [ReviewResults], [ReviewComments]
                        handlers/pullRequestHandler.js (the event handler,
                        the merge of the reviews, the posting)
    - [AiResponse]      services/deepSeekService.js (the answer parser)

    Modelling conventions.
    - A JavaScript string is a [string]: a sequence of code units, here
      restricted to the range 0..255.  The messages of the sources are
      kept as they are written there; nothing below looks inside them.
    - A JavaScript number holding a line number or a count is the
      non-negative integer it stands for, a [Z].  Such a number is a double:
      what [parseInt] reads and what [++] and [+] compute is rounded to the
      nearest double ([JS.toNumber]), which is the integer itself up to
      2^53.  Integers past the largest double (about 1.8e308), which a
      number holds as [Infinity], are outside the model.
    - [null] and [undefined] are [None]. *)

From Stdlib Require Import ZArith String Ascii List Lia Bool.
From Stdlib Require DecimalString.
From stdpp Require Import base list option sorting.
Import ListNotations.

Local Open Scope string_scope.
Local Open Scope Z_scope.

(* ===================================================================== *)
(** ** JavaScript string primitives used by the sources *)
(* ===================================================================== *)

Module JS.

(** [s.startsWith(p)] *)
Fixpoint startsWith (p s : string) : bool :=
  match p with
  | EmptyString => true
  | String a p' =>
      match s with
      | EmptyString => false
      | String b s' => if Ascii.eqb a b then startsWith p' s' else false
      end
  end.

(** [s.substring(n)]: the suffix from index [n]; empty when [n] is past
    the end. *)
Fixpoint substring_from (n : nat) (s : string) : string :=
  match n with
  | O => s
  | S n' =>
      match s with
      | EmptyString => EmptyString
      | String _ s' => substring_from n' s'
      end
  end.

Definition newline : ascii := Ascii.ascii_of_nat 10.

(** [s.split('\n')]: always at least one piece. *)
Fixpoint split_lines_aux (cur : string) (s : string) : list string :=
  match s with
  | EmptyString => [cur]
  | String c s' =>
      if Ascii.eqb c newline
      then cur :: split_lines_aux EmptyString s'
      else split_lines_aux (cur ++ String c EmptyString) s'
  end.

Definition split_lines (s : string) : list string :=
  split_lines_aux EmptyString s.

(** [lines.join('\n')], used to write down diff texts *)
Definition unlines (lines : list string) : string :=
  String.concat (String newline EmptyString) lines.

(** [\d] *)
Definition isDigit (c : ascii) : bool :=
  let n := Z.of_nat (Ascii.nat_of_ascii c) in (48 <=? n) && (n <=? 57).

(** [\s] on code units below 256: TAB, LF, VT, FF, CR, SPACE, NBSP. *)
Definition isSpace (c : ascii) : bool :=
  let n := Z.of_nat (Ascii.nat_of_ascii c) in
  ((9 <=? n) && (n <=? 13)) || (n =? 32) || (n =? 160).

(** the double nearest to the integer [n], a tie going to the even
    significand: [n] itself up to 2^53, and beyond that the nearest
    multiple of the power of two that leaves 53 significant bits *)
Definition toNumber (n : Z) : Z :=
  if n <=? 2 ^ 53 then n
  else
    let e := Z.log2 n - 52 in
    let q := Z.shiftr n e in
    let r := n - Z.shiftl q e in
    let half := Z.shiftl 1 (e - 1) in
    let q' :=
      if r <? half then q
      else if half <? r then q + 1
      else if Z.even q then q else q + 1 in
    Z.shiftl q' e.

(** [a + b], and [a++] as [plus a 1], on two such numbers *)
Definition plus (a b : Z) : Z := toNumber (a + b).

Arguments toNumber : simpl never.
Arguments plus : simpl never.

(** [parseInt(s)] on a string that starts with decimal digits: the value
    of its leading digits, as a number.  The sources only call it on a
    [\d+] capture or on the literal ['1'], never on a string it reads as
    [NaN]. *)
Fixpoint parseInt_acc (acc : Z) (s : string) : Z :=
  match s with
  | EmptyString => acc
  | String c s' =>
      if isDigit c
      then parseInt_acc (10 * acc + (Z.of_nat (Ascii.nat_of_ascii c) - 48)) s'
      else acc
  end.

Definition parseInt (s : string) : Z := toNumber (parseInt_acc 0 s).

(** *** A backtracking matcher for the regular expressions of the sources

    Greedy quantifiers try the longer match first and fall back on
    failure of the continuation, as the ECMAScript matcher does. *)
Inductive regex : Type :=
| Lit (c : ascii)                    (* a literal character *)
| Plus1 (cls : ascii -> bool)        (* [cls+], greedy *)
| Group (i : nat) (r : regex)        (* capturing group number [i] *)
| Optional (r : regex)               (* [(?:r)?], greedy *)
| Cat (r1 r2 : regex)
| Empty.

Abbreviation captures := (list (option string)).

Fixpoint plus_k {R : Type} (cls : ascii -> bool) (s : string)
         (k : string -> option R) : option R :=
  match s with
  | EmptyString => None
  | String c s' =>
      if cls c then
        match plus_k cls s' k with
        | Some r => Some r
        | None => k s'
        end
      else None
  end.

(** the part of [s] consumed when [rest] is what remains *)
Definition consumed (s rest : string) : string :=
  String.substring 0 (String.length s - String.length rest) s.

Fixpoint exec {R : Type} (r : regex) (s : string) (caps : captures)
         (k : string -> captures -> option R) : option R :=
  match r with
  | Lit c =>
      match s with
      | String c' s' => if Ascii.eqb c c' then k s' caps else None
      | EmptyString => None
      end
  | Plus1 cls => plus_k cls s (fun s' => k s' caps)
  | Group i r' =>
      exec r' s caps (fun s' caps' => k s' (<[i := Some (consumed s s')]> caps'))
  | Optional r' =>
      match exec r' s caps k with
      | Some x => Some x
      | None => k s caps
      end
  | Cat r1 r2 => exec r1 s caps (fun s' caps' => exec r2 s' caps' k)
  | Empty => k s caps
  end.

(** [s.match(/^r/)] for a pattern anchored at the start, without the
    global flag: the capture array ([None] when there is no match). *)
Definition match_anchored (ngroups : nat) (r : regex) (s : string)
  : option captures :=
  exec r s (replicate (S ngroups) None)
       (fun rest caps => Some (<[O := Some (consumed s rest)]> caps)).

(** [m[i]] on a capture array *)
Definition group (m : captures) (i : nat) : option string :=
  mjoin (m !! i).

End JS.

(* ===================================================================== *)
(** ** The review comments attached to a chunk *)
(* ===================================================================== *)

Inductive Severity := low | medium | high.

Module Comment.
Record t := mk {
  type : string;
  content : string;
  severity : Severity;
  line : Z;
  path : option string
}.
End Comment.

(* ===================================================================== *)
(** ** services/githubService.js: the unified-diff parser *)
(* ===================================================================== *)

Module GitHubService.

Inductive FileStatus := modified | added | deleted.

Inductive ChangeType := add | del | normal.

Definition ChangeType_eqb (a b : ChangeType) : bool :=
  match a, b with
  | add, add | del, del | normal, normal => true
  | _, _ => false
  end.

(** [currentFile] *)
Module File.
Record t := mk {
  oldFilePath : option string;
  newFilePath : option string;
  fileStatus : FileStatus
}.
End File.

(** the [change] objects pushed on [currentHunk.changes] *)
Module Change.
Record t := mk {
  type : ChangeType;
  content : string;
  oldLineNumber : option Z;
  newLineNumber : option Z
}.
End Change.

(** [currentHunk] *)
Module Hunk.
Record t := mk {
  oldStartLine : Z;
  oldLines : Z;
  newStartLine : Z;
  newLines : Z;
  changes : list Change.t
}.
End Hunk.

(** the flattened per-change view built by [createChunk] *)
Module FlatChange.
Record t := mk {
  type : ChangeType;
  lineNumber : Z;
  content : string;
  oldLineNumber : option Z;
  newLineNumber : option Z
}.
End FlatChange.

(** the result of [extractHunkContext] *)
Module Context.
Record t := mk {
  addedLines : list string;
  deletedLines : list string;
  contextLines : list string;
  totalChanges : Z;
  isSignificant : bool
}.
End Context.

Inductive ReviewStatus := pending | reviewed | failed.

Module Chunk.
Record t := mk {
  oldFilePath : option string;
  newFilePath : option string;
  fileStatus : FileStatus;
  oldStartLine : Z;
  oldLines : Z;
  newStartLine : Z;
  newLines : Z;
  changes : list FlatChange.t;
  context : Context.t;
  aiComments : list Comment.t;
  reviewStatus : ReviewStatus
}.
End Chunk.

(** [a || d] where [a] is a number or [null] and [d] a number: [null]
    and [0] are falsy. *)
Definition or_else (a : option Z) (d : Z) : Z :=
  match a with
  | Some n => if n =? 0 then d else n
  | None => d
  end.

(** [extractHunkContext(changes)] *)
Definition extractHunkContext (changes : list Change.t) : Context.t :=
  let addedLines :=
    map Change.content
        (List.filter (fun c => ChangeType_eqb (Change.type c) add) changes) in
  let deletedLines :=
    map Change.content
        (List.filter (fun c => ChangeType_eqb (Change.type c) del) changes) in
  let contextLines :=
    map Change.content
        (List.filter (fun c => ChangeType_eqb (Change.type c) normal) changes) in
  {| Context.addedLines := addedLines;
     Context.deletedLines := deletedLines;
     Context.contextLines := contextLines;
     Context.totalChanges :=
       Z.of_nat (length addedLines) + Z.of_nat (length deletedLines);
     Context.isSignificant :=
       Z.of_nat (length addedLines) + Z.of_nat (length deletedLines) >? 5 |}.

(** the callback of [hunk.changes.map((change, index) => ...)] *)
Definition flatten (newStartLine : Z) (index : nat) (change : Change.t)
  : FlatChange.t :=
  {| FlatChange.type := Change.type change;
     FlatChange.lineNumber :=
       or_else (Change.newLineNumber change)
               (or_else (Change.oldLineNumber change)
                        (JS.plus newStartLine (Z.of_nat index)));
     FlatChange.content := Change.content change;
     FlatChange.oldLineNumber := Change.oldLineNumber change;
     FlatChange.newLineNumber := Change.newLineNumber change |}.

(** [createChunk(file, hunk)] *)
Definition createChunk (file : File.t) (hunk : Hunk.t) : Chunk.t :=
  {| Chunk.oldFilePath := File.oldFilePath file;
     Chunk.newFilePath := File.newFilePath file;
     Chunk.fileStatus := File.fileStatus file;
     Chunk.oldStartLine := Hunk.oldStartLine hunk;
     Chunk.oldLines := Hunk.oldLines hunk;
     Chunk.newStartLine := Hunk.newStartLine hunk;
     Chunk.newLines := Hunk.newLines hunk;
     Chunk.changes := imap (flatten (Hunk.newStartLine hunk)) (Hunk.changes hunk);
     Chunk.context := extractHunkContext (Hunk.changes hunk);
     Chunk.aiComments := [];
     Chunk.reviewStatus := pending |}.

(** [/^@@\s+-(\d+)(?:,(\d+))?\s+\+(\d+)(?:,(\d+))?\s+@@/] *)
Definition hunkHeader : JS.regex :=
  let seq := fold_right JS.Cat JS.Empty in
  let digits i := JS.Group i (JS.Plus1 JS.isDigit) in
  let count i := JS.Optional (JS.Cat (JS.Lit ",") (digits i)) in
  seq [ JS.Lit "@"; JS.Lit "@"; JS.Plus1 JS.isSpace;
        JS.Lit "-"; digits 1%nat; count 2%nat; JS.Plus1 JS.isSpace;
        JS.Lit "+"; digits 3%nat; count 4%nat; JS.Plus1 JS.isSpace;
        JS.Lit "@"; JS.Lit "@" ].

(** [line.match(...)] *)
Definition hunkMatch (line : string) : option JS.captures :=
  JS.match_anchored 4 hunkHeader line.

(** the local variables of [parseDiffToChunks] that live across
    iterations of its loop *)
Record state := mkState {
  chunks : list Chunk.t;
  currentFile : option File.t;
  currentHunk : option Hunk.t;
  oldLineNumber : Z;
  newLineNumber : Z
}.

Definition init : state :=
  {| chunks := []; currentFile := None; currentHunk := None;
     oldLineNumber := 0; newLineNumber := 0 |}.

(** [if (currentHunk && currentFile) chunks.push(createChunk(...))] *)
Definition flush (st : state) : list Chunk.t :=
  match currentHunk st, currentFile st with
  | Some hunk, Some file => chunks st ++ [createChunk file hunk]
  | _, _ => chunks st
  end.

(** the assignment to [currentFile] made by a [--- ] line *)
Definition setOldPath (file : File.t) (path : string) : File.t :=
  if String.eqb path "/dev/null" then
    {| File.oldFilePath := None;
       File.newFilePath := File.newFilePath file;
       File.fileStatus := added |}
  else if JS.startsWith "a/" path then
    {| File.oldFilePath := Some (JS.substring_from 2 path);
       File.newFilePath := File.newFilePath file;
       File.fileStatus := File.fileStatus file |}
  else
    {| File.oldFilePath := Some path;
       File.newFilePath := File.newFilePath file;
       File.fileStatus := File.fileStatus file |}.

(** the assignment to [currentFile] made by a [+++ ] line *)
Definition setNewPath (file : File.t) (path : string) : File.t :=
  if String.eqb path "/dev/null" then
    {| File.oldFilePath := File.oldFilePath file;
       File.newFilePath := None;
       File.fileStatus := deleted |}
  else if JS.startsWith "b/" path then
    {| File.oldFilePath := File.oldFilePath file;
       File.newFilePath := Some (JS.substring_from 2 path);
       File.fileStatus := File.fileStatus file |}
  else
    {| File.oldFilePath := File.oldFilePath file;
       File.newFilePath := Some path;
       File.fileStatus := File.fileStatus file |}.

(** the type of a code line, from its first character *)
Definition lineType (line : string) : ChangeType :=
  if JS.startsWith "+" line then add
  else if JS.startsWith "-" line then del
  else normal.

(** [currentHunk.changes.push(change)] and the update of the counters *)
Definition pushChange (st : state) (hunk : Hunk.t) (line : string) : state :=
  let type := lineType line in
  let change :=
    {| Change.type := type;
       Change.content := JS.substring_from 1 line;
       Change.oldLineNumber :=
         if ChangeType_eqb type add then None else Some (oldLineNumber st);
       Change.newLineNumber :=
         if ChangeType_eqb type del then None else Some (newLineNumber st) |} in
  {| chunks := chunks st;
     currentFile := currentFile st;
     currentHunk :=
       Some {| Hunk.oldStartLine := Hunk.oldStartLine hunk;
               Hunk.oldLines := Hunk.oldLines hunk;
               Hunk.newStartLine := Hunk.newStartLine hunk;
               Hunk.newLines := Hunk.newLines hunk;
               Hunk.changes := Hunk.changes hunk ++ [change] |};
     oldLineNumber :=
       if ChangeType_eqb type add then oldLineNumber st
       else JS.plus (oldLineNumber st) 1;
     newLineNumber :=
       if ChangeType_eqb type del then newLineNumber st
       else JS.plus (newLineNumber st) 1 |}.

(** one iteration of the loop over [lines].  On a match, groups 1 and 3
    are always set; the default given for them is never used. *)
Definition step (st : state) (line : string) : state :=
  if JS.startsWith "diff --git " line then
    {| chunks := flush st;
       currentFile :=
         Some {| File.oldFilePath := None; File.newFilePath := None;
                 File.fileStatus := modified |};
       currentHunk := None;
       oldLineNumber := oldLineNumber st;
       newLineNumber := newLineNumber st |}
  else if JS.startsWith "--- " line then
    match currentFile st with
    | Some file =>
        {| chunks := chunks st;
           currentFile := Some (setOldPath file (JS.substring_from 4 line));
           currentHunk := currentHunk st;
           oldLineNumber := oldLineNumber st;
           newLineNumber := newLineNumber st |}
    | None => st
    end
  else if JS.startsWith "+++ " line then
    match currentFile st with
    | Some file =>
        {| chunks := chunks st;
           currentFile := Some (setNewPath file (JS.substring_from 4 line));
           currentHunk := currentHunk st;
           oldLineNumber := oldLineNumber st;
           newLineNumber := newLineNumber st |}
    | None => st
    end
  else if JS.startsWith "@@" line then
    match hunkMatch line with
    | Some m =>
        let oldStart := JS.parseInt (default "" (JS.group m 1)) in
        let oldCount := JS.parseInt (default "1" (JS.group m 2)) in
        let newStart := JS.parseInt (default "" (JS.group m 3)) in
        let newCount := JS.parseInt (default "1" (JS.group m 4)) in
        {| chunks := flush st;
           currentFile := currentFile st;
           currentHunk :=
             Some {| Hunk.oldStartLine := oldStart;
                     Hunk.oldLines := oldCount;
                     Hunk.newStartLine := newStart;
                     Hunk.newLines := newCount;
                     Hunk.changes := [] |};
           oldLineNumber := oldStart;
           newLineNumber := newStart |}
    | None =>
        (* the previous hunk has been pushed, and stays the current one *)
        {| chunks := flush st;
           currentFile := currentFile st;
           currentHunk := currentHunk st;
           oldLineNumber := oldLineNumber st;
           newLineNumber := newLineNumber st |}
    end
  else
    match currentHunk st with
    | Some hunk =>
        if JS.startsWith "+" line || JS.startsWith "-" line
           || JS.startsWith " " line
        then pushChange st hunk line
        else st
    | None => st
    end.

(** the loop, then the flush of the last hunk *)
Definition parseLines (lines : list string) : list Chunk.t :=
  flush (fold_left step lines init).

(** [parseDiffToChunks(diffText)] *)
Definition parseDiffToChunks (diffText : string) : list Chunk.t :=
  parseLines (JS.split_lines diffText).

End GitHubService.


(* ===================================================================== *)
(** ** services/deepSeekService.js: the review orchestrator *)
(* ===================================================================== *)

Module DeepSeekService.
Import GitHubService.

Inductive Rating := good | needs_improvement | needs_attention.

(** the object [parseAIResponse] returns *)
Module Parsed.
Record t := mk {
  comments : list Comment.t;
  suggestions : list string;
  risks : list string;
  rating : Rating
}.
End Parsed.

(** the object [reviewCodeChunk] resolves to; the fields a failure leaves
    out are [None] *)
Module Review.
Record t := mk {
  success : bool;
  error : option string;
  aiComments : list Comment.t;
  overallRating : option Rating;
  suggestions : option (list string);
  risks : option (list string)
}.
End Review.

(** [{ success: false, error: message, aiComments: [] }] *)
Definition failure (message : string) : Review.t :=
  {| Review.success := false;
     Review.error := Some message;
     Review.aiComments := [];
     Review.overallRating := None;
     Review.suggestions := None;
     Review.risks := None |}.

(** what the body of the [try] of [reviewCodeChunk] meets once the key
    is known to be set: an exception with its message (building the
    prompt, the request, or reading the response), or the text of the
    answer *)
Inductive HttpResult :=
| Throws (message : string)
| Content (aiResponse : string).

(** how a promise settles; [Rejected] carries [reason.message] *)
Inductive settled (A : Type) :=
| Fulfilled (value : A)
| Rejected (message : string).
Arguments Fulfilled {A} value.
Arguments Rejected {A} message.

(** the fate of an [async] function *)
Inductive async (A : Type) :=
| Resolves (value : A)
| Rejects (message : string)
| NeverSettles.
Arguments Resolves {A} value.
Arguments Rejects {A} message.
Arguments NeverSettles {A}.

(** [!this.apiKey]: unset or empty *)
Definition keyMissing (apiKey : option string) : bool :=
  match apiKey with
  | None | Some EmptyString => true
  | Some _ => false
  end.

(** an element of [results] *)
Module Result.
Record t := mk {
  chunk : option Chunk.t;      (* [batch[index]] *)
  review : Review.t
}.
End Result.

Definition concurrencyLimit : nat := 3.

(** [chunks.slice(i, j)] *)
Definition slice {A : Type} (i j : nat) (l : list A) : list A :=
  take (j - i) (drop i l).

(** the loop that fills [batches], [fuel] bounding its iterations *)
Fixpoint makeBatches {A : Type} (fuel : nat) (i : nat) (chunks : list A)
  : list (list A) :=
  match fuel with
  | O => []
  | S fuel' =>
      if (i <? length chunks)%nat
      then slice i (i + concurrencyLimit) chunks
             :: makeBatches fuel' (i + concurrencyLimit) chunks
      else []
  end.

(** the loop runs at most once per chunk *)
Definition batchesOf {A : Type} (chunks : list A) : list (list A) :=
  makeBatches (length chunks) 0 chunks.

(** [Promise.allSettled(promises)]: a slot per promise, filled when the
    promise settles; [order] lists the promises in the order in which
    they settle.  The result is there once every slot is filled. *)
Definition settle {A : Type} (promises : list (settled A))
           (slots : list (option (settled A))) (i : nat)
  : list (option (settled A)) :=
  match promises !! i with
  | Some outcome => <[i := Some outcome]> slots
  | None => slots
  end.

Definition allSettled {A : Type} (promises : list (settled A))
           (order : list nat) : option (list (settled A)) :=
  mapM id (fold_left (settle promises) order
                     (replicate (length promises) None)).

Section Service.

(** [this.apiKey] *)
Variable apiKey : option string.
(** [this.parseAIResponse], the heuristic that structures the answer *)
Variable parseAIResponse : string -> Chunk.t -> Parsed.t.

(** [reviewCodeChunk(chunk, prContext)], given what its request meets *)
Definition reviewCodeChunk (http : HttpResult) (chunk : Chunk.t)
  : Review.t :=
  if keyMissing apiKey then
    failure "DeepSeek API Key未配置"
  else
    match http with
    | Throws message => failure message
    | Content aiResponse =>
        let reviewResult := parseAIResponse aiResponse chunk in
        {| Review.success := true;
           Review.error := None;
           Review.aiComments := Parsed.comments reviewResult;
           Review.overallRating := Some (Parsed.rating reviewResult);
           Review.suggestions := Some (Parsed.suggestions reviewResult);
           Review.risks := Some (Parsed.risks reviewResult) |}
    end.

End Service.

Section Orchestrator.

(** how the promise of [this.reviewCodeChunk(chunk, prContext)] settles
    for the chunk at a position of the input *)
Variable call : nat -> Chunk.t -> settled Review.t.
(** for each batch, the order in which its promises settle *)
Variable schedule : nat -> list nat.

(** the body of [batchResults.forEach((result, index) => ...)];
    [inl] is an exception *)
Fixpoint forEachResult (batch : list Chunk.t) (index : nat)
         (batchResults : list (settled Review.t))
         (results : list Result.t) : string + list Result.t :=
  match batchResults with
  | [] => inr results
  | result :: rest =>
      let chunk := batch !! index in
      match result with
      | Fulfilled value =>
          forEachResult batch (S index) rest
            (results ++ [ {| Result.chunk := chunk; Result.review := value |} ])
      | Rejected message =>
          match chunk with
          | None => inl "TypeError: Cannot read properties of undefined"
          | Some _ =>
              forEachResult batch (S index) rest
                (results ++ [ {| Result.chunk := chunk;
                                 Result.review := failure message |} ])
          end
      end
  end.

(** [for (const batch of batches)]; [b] is the number of the batch,
    [offset] the position of its first chunk in the input.  The delay
    between two batches takes time and changes nothing else. *)
Fixpoint runBatches (b offset : nat) (batches : list (list Chunk.t))
         (results : list Result.t) : async (list Result.t) :=
  match batches with
  | [] => Resolves results
  | batch :: rest =>
      let batchPromises := imap (fun j chunk => call (offset + j) chunk) batch in
      match allSettled batchPromises (schedule b) with
      | None => NeverSettles
      | Some batchResults =>
          match forEachResult batch 0 batchResults results with
          | inl message => Rejects message
          | inr results' =>
              runBatches (S b) (offset + length batch) rest results'
          end
      end
  end.

(** [reviewMultipleChunks(chunks, prContext)] *)
Definition reviewMultipleChunks (chunks : list Chunk.t)
  : async (list Result.t) :=
  runBatches 0 0 (batchesOf chunks) [].

End Orchestrator.

(** the orchestrator over the service's own [reviewCodeChunk]: [world]
    gives what the request made for the chunk at each position meets *)
Definition reviewAll (apiKey : option string)
           (parseAIResponse : string -> Chunk.t -> Parsed.t)
           (world : nat -> HttpResult) (schedule : nat -> list nat)
           (chunks : list Chunk.t) : async (list Result.t) :=
  reviewMultipleChunks
    (fun i chunk => Fulfilled (reviewCodeChunk apiKey parseAIResponse (world i) chunk))
    schedule chunks.

End DeepSeekService.

(* ===================================================================== *)
(** ** Node's [crypto] and [Buffer], as far as the verifier uses them *)
(* ===================================================================== *)

Module Crypto.

(** Bytes are integers in 0..255, words integers in 0..2^32-1. *)

(** [Buffer.from(s, 'utf8')] on code units below 256 *)
Definition utf8_unit (c : ascii) : list Z :=
  let n := Z.of_nat (Ascii.nat_of_ascii c) in
  if n <? 128 then [n]
  else [Z.lor 192 (Z.shiftr n 6); Z.lor 128 (Z.land n 63)].

Fixpoint utf8 (s : string) : list Z :=
  match s with
  | EmptyString => []
  | String c s' => utf8_unit c ++ utf8 s'
  end.

(** *** SHA-256 (FIPS 180-4) *)

Definition add32 (x y : Z) : Z := (x + y) mod 2 ^ 32.
Definition rotr (n x : Z) : Z :=
  Z.lor (Z.shiftr x n) ((Z.shiftl x (32 - n)) mod 2 ^ 32).
Definition not32 (x : Z) : Z := 2 ^ 32 - 1 - x.

Definition Ch (x y z : Z) : Z := Z.lxor (Z.land x y) (Z.land (not32 x) z).
Definition Maj (x y z : Z) : Z :=
  Z.lxor (Z.lxor (Z.land x y) (Z.land x z)) (Z.land y z).
Definition Sigma0 (x : Z) : Z :=
  Z.lxor (Z.lxor (rotr 2 x) (rotr 13 x)) (rotr 22 x).
Definition Sigma1 (x : Z) : Z :=
  Z.lxor (Z.lxor (rotr 6 x) (rotr 11 x)) (rotr 25 x).
Definition sigma0 (x : Z) : Z :=
  Z.lxor (Z.lxor (rotr 7 x) (rotr 18 x)) (Z.shiftr x 3).
Definition sigma1 (x : Z) : Z :=
  Z.lxor (Z.lxor (rotr 17 x) (rotr 19 x)) (Z.shiftr x 10).

Definition isPrime (n : Z) : bool :=
  forallb (fun d => negb (n mod d =? 0)) (seqZ 2 (n - 2)).

(** the first sixty-four primes *)
Definition primes : list Z :=
  Eval vm_compute in take 64 (List.filter isPrime (seqZ 2 310)).

(** the integer cube root, one bit at a time *)
Fixpoint cbrt_from (bits : nat) (n r : Z) : Z :=
  match bits with
  | O => r
  | S b =>
      let c := r + 2 ^ Z.of_nat b in
      cbrt_from b n (if c * c * c <=? n then c else r)
  end.

(** the first 32 bits of the fractional part of the cube root of each
    prime *)
Definition K : list Z :=
  Eval vm_compute in
    map (fun p => cbrt_from 40 (p * 2 ^ 96) 0 mod 2 ^ 32) primes.

(** the first 32 bits of the fractional part of the square root of each
    of the first eight primes *)
Definition H0 : list Z :=
  Eval vm_compute in
    map (fun p => Z.sqrt (p * 2 ^ 64) mod 2 ^ 32) (take 8 primes).

Record hash := mkHash { ha : Z; hb : Z; hc : Z; hd : Z;
                        he : Z; hf : Z; hg : Z; hh : Z }.

Definition initial : hash :=
  match H0 with
  | [a; b; c; d; e; f; g; h] => mkHash a b c d e f g h
  | _ => mkHash 0 0 0 0 0 0 0 0
  end.

(** big-endian words of a block *)
Fixpoint words (block : list Z) : list Z :=
  match block with
  | b0 :: b1 :: b2 :: b3 :: rest =>
      (((b0 * 256 + b1) * 256 + b2) * 256 + b3) :: words rest
  | _ => []
  end.

(** the message schedule: [n] more words after those of [w] *)
Fixpoint extend (n : nat) (w : list Z) : list Z :=
  match n with
  | O => w
  | S n' =>
      let t := length w in
      let at_ k := nth (t - k) w 0 in
      extend n' (w ++ [add32 (add32 (sigma1 (at_ 2%nat)) (at_ 7%nat))
                             (add32 (sigma0 (at_ 15%nat)) (at_ 16%nat))])
  end.

Definition round (s : hash) (kw : Z * Z) : hash :=
  let '(k, w) := kw in
  let t1 := add32 (add32 (add32 (hh s) (Sigma1 (he s)))
                         (add32 (Ch (he s) (hf s) (hg s)) k)) w in
  let t2 := add32 (Sigma0 (ha s)) (Maj (ha s) (hb s) (hc s)) in
  mkHash (add32 t1 t2) (ha s) (hb s) (hc s)
         (add32 (hd s) t1) (he s) (hf s) (hg s).

Definition compress (s : hash) (block : list Z) : hash :=
  let w := extend 48 (words block) in
  let r := fold_left round (zip K w) s in
  mkHash (add32 (ha s) (ha r)) (add32 (hb s) (hb r))
         (add32 (hc s) (hc r)) (add32 (hd s) (hd r))
         (add32 (he s) (he r)) (add32 (hf s) (hf r))
         (add32 (hg s) (hg r)) (add32 (hh s) (hh r)).

Definition be32 (x : Z) : list Z :=
  [Z.shiftr x 24 mod 256; Z.shiftr x 16 mod 256; Z.shiftr x 8 mod 256; x mod 256].

Definition be64 (x : Z) : list Z := be32 (Z.shiftr x 32) ++ be32 (x mod 2 ^ 32).

Definition pad (msg : list Z) : list Z :=
  let len := Z.of_nat (length msg) in
  msg ++ [128] ++ replicate (Z.to_nat ((55 - len) mod 64)) 0 ++ be64 (8 * len).

Fixpoint blocks (n : nat) (s : hash) (data : list Z) : hash :=
  match n with
  | O => s
  | S n' => blocks n' (compress s (take 64 data)) (drop 64 data)
  end.

Definition digest (s : hash) : list Z :=
  be32 (ha s) ++ be32 (hb s) ++ be32 (hc s) ++ be32 (hd s)
  ++ be32 (he s) ++ be32 (hf s) ++ be32 (hg s) ++ be32 (hh s).

Definition sha256 (msg : list Z) : list Z :=
  let data := pad msg in
  digest (blocks (length data / 64) initial data).

(** *** HMAC (RFC 2104) with SHA-256 *)

Definition hmacKey (key : list Z) : list Z :=
  let k := if (64 <? length key)%nat then sha256 key else key in
  k ++ replicate (64 - length k) 0.

Definition hmac_sha256 (key msg : list Z) : list Z :=
  let k := hmacKey key in
  sha256 (map (Z.lxor 92) k ++ sha256 (map (Z.lxor 54) k ++ msg)).

(** [digest('hex')] *)
Definition hexDigit (n : Z) : ascii :=
  Ascii.ascii_of_nat (Z.to_nat (if n <? 10 then 48 + n else 87 + n)).

Fixpoint hex (b : list Z) : string :=
  match b with
  | [] => EmptyString
  | x :: rest => String (hexDigit (x / 16)) (String (hexDigit (x mod 16)) (hex rest))
  end.

(** [crypto.createHmac('sha256', secret).update(body).digest('hex')] *)
Definition hmacHex (secret : string) (body : list Z) : string :=
  hex (hmac_sha256 (utf8 secret) body).

(** [crypto.timingSafeEqual(a, b)]: a [RangeError] when the lengths
    differ, else whether the two buffers are equal *)
Definition timingSafeEqual (a b : list Z) : string + bool :=
  if (length a =? length b)%nat
  then inr (forallb (fun p => fst p =? snd p) (zip a b))
  else inl "Input buffers must have the same byte length".

End Crypto.

(* ===================================================================== *)
(** ** Requests, responses and JSON values *)
(* ===================================================================== *)

#[local] Set Warnings "-register-all".

Inductive json : Type :=
| JNull
| JBool (b : bool)
| JNum (n : Z)
| JStr (s : string)
| JArr (items : list json)
| JObj (fields : list (string * json)).

Module Express.

(** the parts of [req] the sources read: two headers and the raw body *)
Record Request := mkRequest {
  eventType : option string;       (* [req.headers['x-github-event']] *)
  signature : option string;       (* [req.headers['x-hub-signature-256']] *)
  body : list Z
}.

(** [res.status(status).json(payload)] *)
Record Response := mkResponse {
  status : Z;
  payload : list (string * json)
}.

(** what a middleware does with a request *)
Inductive Outcome :=
| Next
| Respond (r : Response).

(** a string that [!s] takes for absent: [undefined] or empty *)
Definition absent (s : option string) : bool :=
  match s with
  | None | Some EmptyString => true
  | Some _ => false
  end.

(** [s === literal] *)
Definition equals (s : option string) (literal : string) : bool :=
  match s with
  | Some e => String.eqb e literal
  | None => false
  end.

(** [router.post(path, ...middlewares, handler)] *)
Fixpoint run (middlewares : list (Request -> Outcome))
         (handler : Request -> Response) (req : Request) : Response :=
  match middlewares with
  | [] => handler req
  | m :: rest =>
      match m req with
      | Next => run rest handler req
      | Respond r => r
      end
  end.

End Express.

(* ===================================================================== *)
(** ** middleware/githubAuth.js: the signature verifier *)
(* ===================================================================== *)

Module GithubAuth.
Import Express.

Definition unauthorized (message : string) : Outcome :=
  Respond {| status := 401;
             payload := [("error", JStr "未授权"); ("message", JStr message)] |}.

Definition internalError (message : string) : Outcome :=
  Respond {| status := 500;
             payload := [("error", JStr "内部服务器错误");
                         ("message", JStr message)] |}.

(** ['sha256=' + createHmac('sha256', secret).update(req.body).digest('hex')] *)
Definition expectedSignature (secret : string) (body : list Z) : string :=
  "sha256=" ++ Crypto.hmacHex secret body.

(** [verifyGitHubSignature(req, res, next)]; [secret] is
    [process.env.GITHUB_WEBHOOK_SECRET] *)
Definition verifyGitHubSignature (secret : option string) (req : Request)
  : Outcome :=
  if absent secret then Next
  else if absent (signature req) then unauthorized "缺少GitHub签名"
  else
    match Crypto.timingSafeEqual
            (Crypto.utf8 (default "" (signature req)))
            (Crypto.utf8 (expectedSignature (default "" secret) (body req)))
    with
    | inl _ => internalError "签名验证失败"
    | inr false => unauthorized "GitHub签名验证失败"
    | inr true => Next
    end.

End GithubAuth.

(* ===================================================================== *)
(** ** routes/webhook.js and server.js: the webhook endpoint *)
(* ===================================================================== *)

Module Webhook.
Import Express.

(** [value.name]: an exception on [null], [undefined] when there is no
    such property *)
Definition getProp (value : json) (name : string) : string + option json :=
  match value with
  | JNull => inl ("Cannot read properties of null (reading '" ++ name ++ "')")
  | JObj fields => inr (snd <$> List.find (fun f => String.eqb (fst f) name) fields)
  | _ => inr None
  end.

(** a property of an object literal; [JSON.stringify] leaves out the
    ones that are [undefined] *)
Definition field (name : string) (value : option json) : list (string * json) :=
  match value with
  | Some v => [(name, v)]
  | None => []
  end.

Definition serverError (message : string) : Response :=
  {| status := 500;
     payload := [("error", JStr "内部服务器错误"); ("message", JStr message)] |}.

Section Router.

(** [JSON.parse]; [inl] is the message of the exception *)
Variable JSON_parse : list Z -> string + json.
(** [handlePullRequestEvent(payload, req, res)]: the response it
    sends, or the message of the exception it throws *)
Variable handlePullRequestEvent : json -> Request -> string + Response.

(** the handler of [router.post('/github', ...)] *)
Definition githubHandler (req : Request) : Response :=
  match JSON_parse (body req) with
  | inl message => serverError message
  | inr payload =>
      if equals (eventType req) "pull_request" then
        match handlePullRequestEvent payload req with
        | inl message => serverError message
        | inr response => response
        end
      else if equals (eventType req) "ping" then
        match getProp payload "zen" with
        | inl message => serverError message
        | inr zen =>
            {| status := 200;
               payload := ("message", JStr "Webhook接收成功！") :: field "zen" zen |}
        end
      else
        {| status := 200;
           payload :=
             [("message",
               JStr ("事件 " ++ default "undefined" (eventType req)
                            ++ " 已接收但未处理"));
              ("processed", JBool false)] |}
  end.

(** the middlewares mounted on the route in front of its handler:
    none, the import of [verifyGitHubSignature] being commented out *)
Definition githubMiddlewares : list (Request -> Outcome) := [].

(** [POST /webhook/github] *)
Definition postWebhookGithub (req : Request) : Response :=
  run githubMiddlewares githubHandler req.

End Router.

End Webhook.

(* ===================================================================== *)
(** ** Requests used to state the properties of the endpoint *)
(* ===================================================================== *)

Module WebhookSpec.
Import Express.

(** the bytes of the JSON text of a ping payload whose only property is
    [zen], with the value [Design for failure.] *)
Definition pingBody : list Z :=
  [ 123; 34; 122; 101; 110; 34; 58; 34; 68; 101; 115; 105; 103; 110; 32; 102; 111; 114; 32; 102; 97; 105; 108; 117; 114; 101; 46; 34; 125 ].

Definition pingPayload : json := JObj [("zen", JStr "Design for failure.")].

(** [JSON.parse] on that body *)
Definition parsePing (body : list Z) : string + json :=
  if forallb (fun p => fst p =? snd p) (zip body pingBody)
     && (length body =? length pingBody)%nat
  then inr pingPayload
  else inl "Unexpected token".

(** a pull-request handler that answers with the action it was sent *)
Definition echoHandler (payload : json) (req : Request) : string + Response :=
  inr {| status := 200; payload := [("processed", JBool true)] |}.

(** a ping request that carries no signature header *)
Definition unsignedPing : Request :=
  {| eventType := Some "ping"; signature := None; body := pingBody |}.

(** the secret and the invalid signature of the test suite *)
Definition testSecret : string := "test_webhook_secret".

Definition invalidSignature : string := "sha256=invalid_signature".

Definition forgedRequest (body : list Z) : Request :=
  {| eventType := Some "pull_request";
     signature := Some invalidSignature;
     body := body |}.

End WebhookSpec.

(* ===================================================================== *)
(** ** Predicates used to state the properties of the orchestrator *)
(* ===================================================================== *)

Module OrchestratorSpec.
Import GitHubService DeepSeekService.

(** the review recorded for a settled call: its value, or the failure
    built from the reason of its rejection *)
Definition reviewOf (outcome : settled Review.t) : Review.t :=
  match outcome with
  | Fulfilled value => value
  | Rejected message => failure message
  end.

(** every promise of every batch settles: each index of a batch occurs
    in the order given for that batch *)
Definition fair (schedule : nat -> list nat) (chunks : list Chunk.t) : Prop :=
  forall b batch j,
    batchesOf chunks !! b = Some batch ->
    (j < length batch)%nat ->
    j ∈ schedule b.

(** the result expected at position [i] for chunk [chunk] *)
Definition resultAt (call : nat -> Chunk.t -> settled Review.t)
           (i : nat) (chunk : Chunk.t) : Result.t :=
  {| Result.chunk := Some chunk; Result.review := reviewOf (call i chunk) |}.

(** a chunk to run the orchestrator on: the [n]-th hunk of a file *)
Definition sampleChunk (n : Z) : Chunk.t :=
  createChunk
    {| File.oldFilePath := Some "f"; File.newFilePath := Some "f";
       File.fileStatus := modified |}
    {| Hunk.oldStartLine := n; Hunk.oldLines := 0;
       Hunk.newStartLine := n; Hunk.newLines := 0; Hunk.changes := [] |}.

Definition sampleChunks : list Chunk.t :=
  [ sampleChunk 10; sampleChunk 20; sampleChunk 30; sampleChunk 40 ].

Definition sampleReview (text : string) : Review.t :=
  {| Review.success := true; Review.error := None;
     Review.aiComments := []; Review.overallRating := Some good;
     Review.suggestions := Some [text]; Review.risks := Some [] |}.

(** the second call is rejected, the others are fulfilled *)
Definition sampleCall (i : nat) (chunk : Chunk.t) : settled Review.t :=
  match i with
  | 1%nat => Rejected "timeout of 30000ms exceeded"
  | _ => Fulfilled (sampleReview "ok")
  end.


(** in the first batch the third call settles first, then the first,
    then the second *)
Definition sampleSchedule (b : nat) : list nat :=
  match b with
  | O => [2; 0; 1]%nat
  | _ => [0]%nat
  end.

End OrchestratorSpec.

(* ===================================================================== *)
(** ** Predicates used to state the properties of the parser *)
(* ===================================================================== *)

Module ParserSpec.
Import GitHubService.

(** a sequence of line numbers is strictly increasing *)
Definition strictly_increasing (l : list Z) : Prop := StronglySorted Z.lt l.

Definition oldNumbers (cs : list Change.t) : list Z :=
  omap Change.oldLineNumber cs.
Definition newNumbers (cs : list Change.t) : list Z :=
  omap Change.newLineNumber cs.

(** a chunk that [createChunk] built *)
Definition created (c : Chunk.t) : Prop :=
  exists file hunk, c = createChunk file hunk.

(** what the loop keeps about the open hunk and the counters, and has
    kept about the hunks of the chunks it pushed *)
Definition keeps (P : Hunk.t -> Z -> Z -> Prop) (st : state) : Prop :=
  Forall (fun c => exists f h o n, c = createChunk f h /\ P h o n) (chunks st)
  /\ forall h, currentHunk st = Some h ->
                P h (oldLineNumber st) (newLineNumber st).

(** the line numbers of one side are those from the start of the hunk
    on, and the counter is the next one *)
Definition consecutive (start : Z) (numbers : list Z) (counter : Z) : Prop :=
  numbers = seqZ start (Z.of_nat (length numbers))
  /\ counter = start + Z.of_nat (length numbers).

(** a side of a hunk on which the counter stays exact: counting one per
    change from the start does not pass 2^53 *)
Definition inRange (start : Z) (changes : nat) : Prop :=
  start + Z.of_nat changes <= 2 ^ 53.

(** each side of a hunk that stays in range is numbered without a gap *)
Definition numbering (h : Hunk.t) (o n : Z) : Prop :=
  (inRange (Hunk.oldStartLine h) (length (Hunk.changes h)) ->
   consecutive (Hunk.oldStartLine h) (oldNumbers (Hunk.changes h)) o)
  /\ (inRange (Hunk.newStartLine h) (length (Hunk.changes h)) ->
      consecutive (Hunk.newStartLine h) (newNumbers (Hunk.changes h)) n).

(** a non-empty string of decimal digits: what [parseInt] reads in full *)
Fixpoint allDigits (s : string) : bool :=
  match s with
  | EmptyString => true
  | String c s' => JS.isDigit c && allDigits s'
  end.

Definition isNumeral (s : string) : bool :=
  match s with
  | EmptyString => false
  | String _ _ => allDigits s
  end.

(** every capturing group of the pattern is [(\d+)] *)
Fixpoint numeralGroups (r : JS.regex) : Prop :=
  match r with
  | JS.Group _ r' => r' = JS.Plus1 JS.isDigit
  | JS.Optional r' => numeralGroups r'
  | JS.Cat r1 r2 => numeralGroups r1 /\ numeralGroups r2
  | _ => True
  end.

(** the groups that take part in every match of the pattern *)
Fixpoint defines (r : JS.regex) : list nat :=
  match r with
  | JS.Group i _ => [i]
  | JS.Cat r1 r2 => defines r1 ++ defines r2
  | _ => []
  end.

(** the captures that are set are numerals *)
Definition numeralCaptures (caps : JS.captures) : Prop :=
  forall i t, JS.group caps i = Some t -> isNumeral t = true.

(** the line is taken by one of the earlier branches of the loop: a file
    boundary, a path line or a hunk header *)
Definition isMarker (line : string) : bool :=
  JS.startsWith "diff --git " line || JS.startsWith "--- " line
  || JS.startsWith "+++ " line || JS.startsWith "@@" line.

(** [st'] is [st] after recording [change] at the end of the open hunk
    [hunk] and leaving the counters at [o] and [n] *)
Definition records (st : state) (hunk : Hunk.t) (change : Change.t)
           (o n : Z) (st' : state) : Prop :=
  chunks st' = chunks st
  /\ currentFile st' = currentFile st
  /\ currentHunk st' =
       Some {| Hunk.oldStartLine := Hunk.oldStartLine hunk;
               Hunk.oldLines := Hunk.oldLines hunk;
               Hunk.newStartLine := Hunk.newStartLine hunk;
               Hunk.newLines := Hunk.newLines hunk;
               Hunk.changes := Hunk.changes hunk ++ [change] |}
  /\ oldLineNumber st' = o
  /\ newLineNumber st' = n.

(** a value that [||] skips: [null] or [0] *)
Definition falsy (v : option Z) : Prop := v = None \/ v = Some 0.







(** a hunk, then a header that fails the pattern, then one more line *)
Definition malformedHeaderDiff : string :=
  JS.unlines [ "diff --git a/f b/f"; "--- a/f"; "+++ b/f";
               "@@ -1,1 +1,1 @@"; "-a";
               "@@ bogus @@";
               "+b" ].

(** the same diff without the malformed header *)
Definition malformedHeaderSkipped : string :=
  JS.unlines [ "diff --git a/f b/f"; "--- a/f"; "+++ b/f";
               "@@ -1,1 +1,1 @@"; "-a";
               "+b" ].

(** a hunk whose two sides start past 2^53 *)
Definition stalledDiff : string :=
  JS.unlines [ "diff --git a/f b/f"; "--- a/f"; "+++ b/f";
               "@@ -9007199254740993,2 +9007199254740993,2 @@"; " a"; " b" ].

(** a deleted line at index 1, in a hunk whose old side starts at line 0
    and whose new side starts at 2^53 *)
Definition roundedFallbackDiff : string :=
  JS.unlines [ "diff --git a/f b/f"; "@@ -0 +9007199254740992 @@";
               "+a"; "-b" ].

(** a context line in a hunk whose new side starts at line 0 *)
Definition zeroLineDiff : string :=
  JS.unlines [ "diff --git a/f b/f"; "@@ -3 +0 @@"; " x" ].

(** a hunk followed by the marker git prints for a missing final newline *)
Definition noNewlineMarkerDiff : string :=
  JS.unlines [ "diff --git a/f b/f"; "--- a/f"; "+++ b/f";
               "@@ -1 +1 @@"; "-old"; "+new";
               "\ No newline at end of file" ].

End ParserSpec.

(* ===================================================================== *)
(** ** Predicates used to state further properties of the parser *)
(* ===================================================================== *)

Module DiffSpec.
Import GitHubService ParserSpec.

(** the line does not open a file *)
Definition notBoundary (line : string) : Prop :=
  JS.startsWith "diff --git " line = false.

(** two states of the loop that lead to the same chunks: they hold the
    same chunks and the same file; once a file is open they hold the same
    hunk, and while a hunk is open the same counters *)
Definition agree (s t : state) : Prop :=
  chunks s = chunks t
  /\ currentFile s = currentFile t
  /\ (currentFile s = None
      \/ (currentHunk s = currentHunk t
          /\ (currentHunk s = None
              \/ (oldLineNumber s = oldLineNumber t
                  /\ newLineNumber s = newLineNumber t)))).

(** which line numbers a change of each type carries *)
Definition wellShaped (type : ChangeType) (old new : option Z) : Prop :=
  match type with
  | add => old = None /\ is_Some new
  | del => is_Some old /\ new = None
  | normal => is_Some old /\ is_Some new
  end.

(** [,count], when the count is written *)
Definition countSuffix (count : option string) : string :=
  match count with
  | Some b => "," ++ b
  | None => ""
  end.

(** the hunk header [@@ -a[,b] +c[,d] @@tail] *)
Definition headerLine (a : string) (b : option string) (c : string)
           (d : option string) (tail : string) : string :=
  "@@ -" ++ a ++ countSuffix b ++ " +" ++ c ++ countSuffix d ++ " @@" ++ tail.

(** every character of the string is in the class *)
Fixpoint allIn (cls : ascii -> bool) (s : string) : bool :=
  match s with
  | EmptyString => true
  | String c s' => cls c && allIn cls s'
  end.

(** the string does not start with a character of the class *)
Definition headOut (cls : ascii -> bool) (s : string) : bool :=
  match s with
  | EmptyString => true
  | String c _ => negb (cls c)
  end.

(** the captures of a header whose counts are [b] and [d] *)
Definition headerCaptures (a : string) (b : option string) (c : string)
           (d : option string) : JS.captures :=
  [ Some ("@@ -" ++ a ++ countSuffix b ++ " +" ++ c ++ countSuffix d ++ " @@");
    Some a; b; Some c; d ].

(** the captures after the optional count *)
Definition withCount (i : nat) (count : option string) (caps : JS.captures)
  : JS.captures :=
  match count with
  | Some b => <[i := Some b]> caps
  | None => caps
  end.

(** the count is a numeral, when it is written *)
Definition numeralOpt (count : option string) : Prop :=
  forall b, count = Some b -> isNumeral b = true.

(** the integer a numeral writes *)
Fixpoint valueFrom (acc : Z) (s : string) : Z :=
  match s with
  | EmptyString => acc
  | String c s' =>
      valueFrom (10 * acc + (Z.of_nat (Ascii.nat_of_ascii c) - 48)) s'
  end.

Definition valueOf (s : string) : Z := valueFrom 0 s.

(** a numeral that does not pass 2^53, which a number holds as it is *)
Definition exactNumeral (s : string) : Prop :=
  isNumeral s = true /\ valueOf s <= 2 ^ 53.

(** the count is such a numeral, when it is written *)
Definition exactOpt (count : option string) : Prop :=
  forall b, count = Some b -> exactNumeral b.

(** the count a header gives: 1 when it is left out *)
Definition countOf (count : option string) : Z :=
  match count with
  | Some b => valueOf b
  | None => 1
  end.



(** a hunk as it is written in a diff *)
Module HunkText.
Record t := mk {
  oldStart : string;
  oldCount : option string;
  newStart : string;
  newCount : option string;
  tail : string;
  body : list string
}.
End HunkText.


(** a file as it is written in a diff; a path that is [None] is written
    [/dev/null] *)
Module FileText.
Record t := mk {
  names : string;                 (* what follows [diff --git ] *)
  meta : list string;             (* [index ...], [new file mode ...] *)
  oldPath : option string;
  newPath : option string;
  hunks : list HunkText.t
}.
End FileText.








(** every change of a hunk has the shape of its type *)
Definition shaped (h : Hunk.t) (o n : Z) : Prop :=
  Forall (fun c => wellShaped (Change.type c) (Change.oldLineNumber c)
                              (Change.newLineNumber c))
         (Hunk.changes h).


End DiffSpec.

(* ===================================================================== *)
(** ** Reading back the bytes of a string *)
(* ===================================================================== *)

Module AuthSpec.

(** the code units whose UTF-8 encoding the bytes are, for code units
    below 256 *)
Fixpoint utf8_decode (b : list Z) : string :=
  match b with
  | [] => EmptyString
  | x :: rest =>
      if x <? 128 then
        String (Ascii.ascii_of_nat (Z.to_nat x)) (utf8_decode rest)
      else
        match rest with
        | [] => EmptyString
        | y :: rest' =>
            String (Ascii.ascii_of_nat (Z.to_nat ((x - 192) * 64 + (y - 128))))
                   (utf8_decode rest')
        end
  end.

End AuthSpec.

(* ===================================================================== *)
(** ** handlers/pullRequestHandler.js: the pull-request event handler *)
(* ===================================================================== *)

Module PullRequestHandler.
Import Express Webhook GitHubService DeepSeekService.

(** [value.name] where [value] may be [undefined] as well *)
Definition prop (value : option json) (name : string) : string + option json :=
  match value with
  | None =>
      inl ("Cannot read properties of undefined (reading '" ++ name ++ "')")
  | Some v => getProp v name
  end.

(** a step that may throw, then the rest *)
Definition andThen {A B : Type} (step : string + A) (rest : A -> string + B)
  : string + B :=
  match step with
  | inl message => inl message
  | inr value => rest value
  end.

#[local] Notation "'let*' x ':=' step 'in' rest" :=
  (andThen step (fun x => rest))
  (at level 10, x name, step at level 100, rest at level 200,
   only parsing).

(** [prInfo.author] and [prInfo.sender] *)
Module Account.
Record t := mk {
  login : option json;
  id : option json;
  type : option json
}.
End Account.

(** [prInfo.repository] *)
Module Repository.
Record t := mk {
  name : option json;
  fullName : option json;
  owner : option json;
  private : option json
}.
End Repository.

(** the object [extractPullRequestInfo] returns; a property the payload
    does not have is [undefined] *)
Module PrInfo.
Record t := mk {
  number : option json;
  title : option json;
  body : option json;
  state : option json;
  draft : option json;
  sourceBranch : option json;
  targetBranch : option json;
  sourceRepo : option json;
  targetRepo : option json;
  author : Account.t;
  commits : option json;
  additions : option json;
  deletions : option json;
  changedFiles : option json;
  repository : Repository.t;
  sender : Account.t;
  htmlUrl : option json;
  diffUrl : option json;
  patchUrl : option json;
  createdAt : option json;
  updatedAt : option json
}.
End PrInfo.

(** [extractPullRequestInfo(payload)]: the properties are read in the
    order of the object literal, and the first read from [null] or
    [undefined] throws *)
Definition extractPullRequestInfo (payload : json) : string + PrInfo.t :=
  match payload with
  | JNull =>
      inl "Cannot destructure property 'pull_request' of 'payload' as it is null."
  | _ =>
      let* pull_request := getProp payload "pull_request" in
      let* repository := getProp payload "repository" in
      let* sender := getProp payload "sender" in
      let* number := prop pull_request "number" in
      let* title := prop pull_request "title" in
      let* body := prop pull_request "body" in
      let* state := prop pull_request "state" in
      let* draft := prop pull_request "draft" in
      let* head := prop pull_request "head" in
      let* sourceBranch := prop head "ref" in
      let* base := prop pull_request "base" in
      let* targetBranch := prop base "ref" in
      let* head := prop pull_request "head" in
      let* headRepo := prop head "repo" in
      let* sourceRepo := prop headRepo "full_name" in
      let* base := prop pull_request "base" in
      let* baseRepo := prop base "repo" in
      let* targetRepo := prop baseRepo "full_name" in
      let* user := prop pull_request "user" in
      let* authorLogin := prop user "login" in
      let* authorId := prop user "id" in
      let* authorType := prop user "type" in
      let* commits := prop pull_request "commits" in
      let* additions := prop pull_request "additions" in
      let* deletions := prop pull_request "deletions" in
      let* changedFiles := prop pull_request "changed_files" in
      let* repositoryName := prop repository "name" in
      let* repositoryFullName := prop repository "full_name" in
      let* repositoryOwner := prop repository "owner" in
      let* ownerLogin := prop repositoryOwner "login" in
      let* repositoryPrivate := prop repository "private" in
      let* senderLogin := prop sender "login" in
      let* senderId := prop sender "id" in
      let* senderType := prop sender "type" in
      let* htmlUrl := prop pull_request "html_url" in
      let* diffUrl := prop pull_request "diff_url" in
      let* patchUrl := prop pull_request "patch_url" in
      let* createdAt := prop pull_request "created_at" in
      let* updatedAt := prop pull_request "updated_at" in
      inr {| PrInfo.number := number;
             PrInfo.title := title;
             PrInfo.body := body;
             PrInfo.state := state;
             PrInfo.draft := draft;
             PrInfo.sourceBranch := sourceBranch;
             PrInfo.targetBranch := targetBranch;
             PrInfo.sourceRepo := sourceRepo;
             PrInfo.targetRepo := targetRepo;
             PrInfo.author :=
               {| Account.login := authorLogin;
                  Account.id := authorId;
                  Account.type := authorType |};
             PrInfo.commits := commits;
             PrInfo.additions := additions;
             PrInfo.deletions := deletions;
             PrInfo.changedFiles := changedFiles;
             PrInfo.repository :=
               {| Repository.name := repositoryName;
                  Repository.fullName := repositoryFullName;
                  Repository.owner := ownerLogin;
                  Repository.private := repositoryPrivate |};
             PrInfo.sender :=
               {| Account.login := senderLogin;
                  Account.id := senderId;
                  Account.type := senderType |};
             PrInfo.htmlUrl := htmlUrl;
             PrInfo.diffUrl := diffUrl;
             PrInfo.patchUrl := patchUrl;
             PrInfo.createdAt := createdAt;
             PrInfo.updatedAt := updatedAt |}
  end.

(** [case literal:] of a [switch (value)] *)
Definition isCase (value : option json) (literal : string) : bool :=
  match value with
  | Some (JStr s) => String.eqb s literal
  | _ => false
  end.

(** the object has a property of its own with that name *)
Definition hasOwn (name : string) (fields : list (string * json)) : bool :=
  existsb (fun f => String.eqb (fst f) name) fields.

Definition notPrimitive : string := "Cannot convert object to primitive value".

Section Handler.

(** [String(n)] on a number, as the engine prints it *)
Variable numberToString : Z -> string.

(** [`${value}`] on a value that [JSON.parse] built.  An array is joined
    with commas, an element that is [null] giving the empty string.  An
    object gives [[object Object]], unless it has a [toString] of its
    own: that one is not a function, and neither it nor [valueOf] gives
    a primitive, which is a [TypeError]. *)
Fixpoint template (value : json) : string + string :=
  match value with
  | JNull => inr "null"
  | JBool true => inr "true"
  | JBool false => inr "false"
  | JNum n => inr (numberToString n)
  | JStr s => inr s
  | JArr items =>
      (fix join (items : list json) : string + string :=
         match items with
         | [] => inr ""
         | item :: rest =>
             let* first :=
               match item with JNull => inr "" | _ => template item end in
             match rest with
             | [] => inr first
             | _ => let* others := join rest in
                    inr (first ++ "," ++ others)
             end
         end) items
  | JObj fields =>
      if hasOwn "toString" fields then inl notPrimitive
      else inr "[object Object]"
  end.

Definition templateOf (value : option json) : string + string :=
  match value with
  | Some v => template v
  | None => inr "undefined"
  end.

(** [console.log] of a template literal that holds these values: each
    is converted, in order *)
Fixpoint logs (values : list (option json)) : string + unit :=
  match values with
  | [] => inr tt
  | value :: rest => let* _ := templateOf value in logs rest
  end.

(** the rest of an [async] function after such a [console.log] *)
Definition printing {A : Type} (values : list (option json))
           (rest : async A) : async A :=
  match logs values with
  | inl message => Rejects message
  | inr _ => rest
  end.

(** [getPullRequestDiffFromUrl(diffUrl)] of services/githubService.js,
    given what its request meets: the text of the diff, or an exception,
    or no answer (the request sets no timeout).  The URL is logged
    first; an exception is thrown again under another message. *)
Definition getPullRequestDiffFromUrl (diffUrl : option json)
           (http : async string) : async (list Chunk.t) :=
  match templateOf diffUrl with
  | inl message => Rejects ("获取PR diff失败: " ++ message)
  | inr _ =>
      match http with
      | Resolves data => Resolves (parseDiffToChunks data)
      | Rejects message => Rejects ("获取PR diff失败: " ++ message)
      | NeverSettles => NeverSettles
      end
  end.

(** [performCodeReview(prInfo)], in the version of the file that fetches
    the diff: the chunks are fetched and logged; the steps that would
    review them are commented out, and an exception is logged *)
Definition performCodeReview (prInfo : PrInfo.t) (http : async string)
  : async unit :=
  printing [PrInfo.number prInfo]
    match getPullRequestDiffFromUrl (PrInfo.diffUrl prInfo) http with
    | Resolves chunks => Resolves tt
    | Rejects message => Resolves tt
    | NeverSettles => NeverSettles
    end.

(** the three lines every handler logs *)
Definition announce {A : Type} (prInfo : PrInfo.t) (rest : async A)
  : async A :=
  printing [PrInfo.number prInfo; PrInfo.title prInfo]
    (printing [Account.login (PrInfo.author prInfo)] rest).

Definition handlePullRequestOpened (prInfo : PrInfo.t) (http : async string)
  : async unit :=
  announce prInfo
    (printing [PrInfo.sourceBranch prInfo; PrInfo.targetBranch prInfo]
       (printing [PrInfo.additions prInfo; PrInfo.deletions prInfo;
                  PrInfo.changedFiles prInfo]
          (performCodeReview prInfo http))).

Definition handlePullRequestClosed (prInfo : PrInfo.t) : async unit :=
  announce prInfo (Resolves tt).

Definition handlePullRequestReopened (prInfo : PrInfo.t) : async unit :=
  announce prInfo (Resolves tt).

Definition handlePullRequestSynchronized (prInfo : PrInfo.t)
           (http : async string) : async unit :=
  announce prInfo (performCodeReview prInfo http).

Definition handlePullRequestReadyForReview (prInfo : PrInfo.t)
           (http : async string) : async unit :=
  announce prInfo (performCodeReview prInfo http).

(** the response of [handlePullRequestEvent]; [action] is the text of
    [`${action}`] and [now] is [new Date().toISOString()] *)
Definition processed (now : string) (action : string)
           (prInfo : PrInfo.t) : Response :=
  {| status := 200;
     payload :=
       [("message", JStr ("Pull Request " ++ action ++ "事件处理成功"));
        ("pullRequest",
         JObj (field "number" (PrInfo.number prInfo)
               ++ field "title" (PrInfo.title prInfo)
               ++ field "state" (PrInfo.state prInfo))%list);
        ("processed", JBool true);
        ("timestamp", JStr now)] |}.

(** [handlePullRequestEvent(payload, req, res)]: the response it sends,
    or the exception it throws again *)
Definition handlePullRequestEvent (now : string) (http : async string)
           (payload : json) : async Response :=
  match payload with
  | JNull =>
      Rejects "Cannot destructure property 'action' of 'payload' as it is null."
  | _ =>
      match getProp payload "action" with
      | inl message => Rejects message
      | inr action =>
          match templateOf action with
          | inl message => Rejects message
          | inr text =>
              match extractPullRequestInfo payload with
              | inl message => Rejects message
              | inr prInfo =>
                  let handled :=
                    if isCase action "opened" then
                      handlePullRequestOpened prInfo http
                    else if isCase action "closed" then
                      handlePullRequestClosed prInfo
                    else if isCase action "reopened" then
                      handlePullRequestReopened prInfo
                    else if isCase action "synchronize" then
                      handlePullRequestSynchronized prInfo http
                    else if isCase action "ready_for_review" then
                      handlePullRequestReadyForReview prInfo http
                    else Resolves tt in
                  match handled with
                  | Resolves _ => Resolves (processed now text prInfo)
                  | Rejects message => Rejects message
                  | NeverSettles => NeverSettles
                  end
              end
          end
      end
  end.

End Handler.

End PullRequestHandler.

(* ===================================================================== *)
(** ** Payloads used to state the properties of the event handler *)
(* ===================================================================== *)

Module HandlerSpec.
Import Express Webhook DeepSeekService PullRequestHandler.

(** the value at the end of a path of property names; [undefined] when
    the path leaves the objects *)
Fixpoint deref (value : option json) (path : list string) : option json :=
  match path with
  | [] => value
  | name :: rest =>
      match prop value name with
      | inr v => deref v rest
      | inl _ => None
      end
  end.

(** the value of a property read that does not throw *)
Definition get (value : option json) (name : string) : option json :=
  deref value [name].

(** neither [null] nor [undefined] *)
Definition hasProperties (value : option json) : bool :=
  match value with
  | None | Some JNull => false
  | Some _ => true
  end.

(** the values [extractPullRequestInfo] reads a property from *)
Definition dereferenced : list (list string) :=
  [ ["pull_request"];
    ["pull_request"; "head"];
    ["pull_request"; "base"];
    ["pull_request"; "head"; "repo"];
    ["pull_request"; "base"; "repo"];
    ["pull_request"; "user"];
    ["repository"];
    ["repository"; "owner"];
    ["sender"] ].

Definition complete (payload : json) : bool :=
  forallb (fun path => hasProperties (deref (Some payload) path)) dereferenced.

(** the result of [extractPullRequestInfo] read straight off the
    payload *)
Definition fieldsOf (payload : json) : PrInfo.t :=
  let pull_request := get (Some payload) "pull_request" in
  let repository := get (Some payload) "repository" in
  let sender := get (Some payload) "sender" in
  let user := get pull_request "user" in
  {| PrInfo.number := get pull_request "number";
     PrInfo.title := get pull_request "title";
     PrInfo.body := get pull_request "body";
     PrInfo.state := get pull_request "state";
     PrInfo.draft := get pull_request "draft";
     PrInfo.sourceBranch := get (get pull_request "head") "ref";
     PrInfo.targetBranch := get (get pull_request "base") "ref";
     PrInfo.sourceRepo := get (get (get pull_request "head") "repo") "full_name";
     PrInfo.targetRepo := get (get (get pull_request "base") "repo") "full_name";
     PrInfo.author :=
       {| Account.login := get user "login";
          Account.id := get user "id";
          Account.type := get user "type" |};
     PrInfo.commits := get pull_request "commits";
     PrInfo.additions := get pull_request "additions";
     PrInfo.deletions := get pull_request "deletions";
     PrInfo.changedFiles := get pull_request "changed_files";
     PrInfo.repository :=
       {| Repository.name := get repository "name";
          Repository.fullName := get repository "full_name";
          Repository.owner := get (get repository "owner") "login";
          Repository.private := get repository "private" |};
     PrInfo.sender :=
       {| Account.login := get sender "login";
          Account.id := get sender "id";
          Account.type := get sender "type" |};
     PrInfo.htmlUrl := get pull_request "html_url";
     PrInfo.diffUrl := get pull_request "diff_url";
     PrInfo.patchUrl := get pull_request "patch_url";
     PrInfo.createdAt := get pull_request "created_at";
     PrInfo.updatedAt := get pull_request "updated_at" |}.

(** an [async] function and the outcome its caller awaits *)
Definition settlesTo {A : Type} (a : async A) (outcome : string + A) : Prop :=
  match a, outcome with
  | Resolves value, inr value' => value = value'
  | Rejects message, inl message' => message = message'
  | _, _ => False
  end.

(** the actions whose handler awaits the code review *)
Definition reviewedAction (action : string) : bool :=
  String.eqb action "opened" || String.eqb action "synchronize"
  || String.eqb action "ready_for_review".

(** the actions that have a handler *)
Definition handledAction (action : string) : bool :=
  String.eqb action "opened" || String.eqb action "closed"
  || String.eqb action "reopened" || String.eqb action "synchronize"
  || String.eqb action "ready_for_review".

(** a value that a template literal can print: not an object with a
    [toString] of its own, nor an array that holds, at any depth, such
    an object *)
Fixpoint printableValue (value : json) : bool :=
  match value with
  | JArr items =>
      (fix all (items : list json) : bool :=
         match items with
         | [] => true
         | item :: rest => printableValue item && all rest
         end) items
  | JObj fields =>
      negb (existsb (fun f => String.eqb (fst f) "toString") fields)
  | _ => true
  end.

Definition printable (value : option json) : bool :=
  match value with
  | Some v => printableValue v
  | None => true
  end.

(** the values every handler logs: the number, the title and the login
    of the author *)
Definition announced : list (list string) :=
  [ ["pull_request"; "number"];
    ["pull_request"; "title"];
    ["pull_request"; "user"; "login"] ].

(** the values some handler logs before it answers *)
Definition logged : list (list string) :=
  (announced
   ++ [ ["pull_request"; "head"; "ref"];
        ["pull_request"; "base"; "ref"];
        ["pull_request"; "additions"];
        ["pull_request"; "deletions"];
        ["pull_request"; "changed_files"] ])%list.

Definition printableAt (payload : json) (paths : list (list string)) : bool :=
  forallb (fun path => printable (deref (Some payload) path)) paths.

(** a property of an object literal as [JSON.stringify] writes it: left
    out when it is [undefined] *)
Definition entry (name : string) (value : option json)
  : list (string * json) :=
  match value with
  | Some v => [(name, v)]
  | None => []
  end.

(** an integer in decimal, to print the numbers of the samples *)
Definition decimal (n : Z) : string :=
  DecimalString.NilZero.string_of_int (Z.to_int n).

(** a pull request opened from a fork; [headRepo] is [null] once the
    fork is deleted *)
Definition samplePayload (action : string) (headRepo : json) : json :=
  JObj [ ("action", JStr action);
         ("number", JNum 7);
         ("pull_request",
          JObj [ ("number", JNum 7);
                 ("title", JStr "Fix parser");
                 ("state", JStr "open");
                 ("head", JObj [("ref", JStr "fix/parser"); ("repo", headRepo)]);
                 ("base", JObj [("ref", JStr "main");
                                ("repo", JObj [("full_name", JStr "o/r")])]);
                 ("user", JObj [("login", JStr "dev")]) ]);
         ("repository",
          JObj [ ("name", JStr "r"); ("owner", JObj [("login", JStr "o")]) ]);
         ("sender", JObj [("login", JStr "dev")]) ].

Definition forkRepo : json := JObj [("full_name", JStr "dev/r")].

(** the same pull request with a title that cannot be printed *)
Definition unprintableTitle (action : string) : json :=
  JObj [ ("action", JStr action);
         ("pull_request",
          JObj [ ("number", JNum 7);
                 ("title", JObj [("toString", JNum 1)]);
                 ("head", JObj [("repo", forkRepo)]);
                 ("base", JObj [("repo", forkRepo)]);
                 ("user", JObj [("login", JStr "dev")]) ]);
         ("repository", JObj [ ("owner", JObj [("login", JStr "o")]) ]);
         ("sender", JObj [("login", JStr "dev")]) ].

(** the bytes of the JSON text of [samplePayload "labeled" forkRepo] *)
Definition labeledBody : list Z :=
  [ 123; 34; 97; 99; 116; 105; 111; 110; 34; 58; 34; 108; 97; 98; 101; 108;
    101; 100; 34; 44; 34; 110; 117; 109; 98; 101; 114; 34; 58; 55; 44; 34;
    112; 117; 108; 108; 95; 114; 101; 113; 117; 101; 115; 116; 34; 58; 123;
    34; 110; 117; 109; 98; 101; 114; 34; 58; 55; 44; 34; 116; 105; 116; 108;
    101; 34; 58; 34; 70; 105; 120; 32; 112; 97; 114; 115; 101; 114; 34; 44;
    34; 115; 116; 97; 116; 101; 34; 58; 34; 111; 112; 101; 110; 34; 44; 34;
    104; 101; 97; 100; 34; 58; 123; 34; 114; 101; 102; 34; 58; 34; 102; 105;
    120; 47; 112; 97; 114; 115; 101; 114; 34; 44; 34; 114; 101; 112; 111;
    34; 58; 123; 34; 102; 117; 108; 108; 95; 110; 97; 109; 101; 34; 58; 34;
    100; 101; 118; 47; 114; 34; 125; 125; 44; 34; 98; 97; 115; 101; 34; 58;
    123; 34; 114; 101; 102; 34; 58; 34; 109; 97; 105; 110; 34; 44; 34; 114;
    101; 112; 111; 34; 58; 123; 34; 102; 117; 108; 108; 95; 110; 97; 109;
    101; 34; 58; 34; 111; 47; 114; 34; 125; 125; 44; 34; 117; 115; 101; 114;
    34; 58; 123; 34; 108; 111; 103; 105; 110; 34; 58; 34; 100; 101; 118; 34;
    125; 125; 44; 34; 114; 101; 112; 111; 115; 105; 116; 111; 114; 121; 34;
    58; 123; 34; 110; 97; 109; 101; 34; 58; 34; 114; 34; 44; 34; 111; 119;
    110; 101; 114; 34; 58; 123; 34; 108; 111; 103; 105; 110; 34; 58; 34;
    111; 34; 125; 125; 44; 34; 115; 101; 110; 100; 101; 114; 34; 58; 123;
    34; 108; 111; 103; 105; 110; 34; 58; 34; 100; 101; 118; 34; 125; 125 ].

(** [JSON.parse] on that body *)
Definition parseLabeled (body : list Z) : string + json :=
  if forallb (fun p => fst p =? snd p) (zip body labeledBody)
     && (length body =? length labeledBody)%nat
  then inr (samplePayload "labeled" forkRepo)
  else inl "Unexpected token".

Definition labeledRequest : Request :=
  {| eventType := Some "pull_request";
     signature := None;
     body := labeledBody |}.

(** what the router awaits from the handler for a fetch that settles *)
Definition awaited (now : string) (http : async string)
           (payload : json) (req : Request) : string + Response :=
  match handlePullRequestEvent decimal now http payload with
  | Resolves response => inr response
  | Rejects message => inl message
  | NeverSettles => inl "unanswered"
  end.

End HandlerSpec.

(* ===================================================================== *)
(** ** handlers/pullRequestHandler.js: merging the reviews into the chunks *)
(* ===================================================================== *)

Module ReviewResults.
Import GitHubService DeepSeekService.

(** [overallRating] of a reviewed chunk: a rating, or ['unknown'] *)
Inductive OverallRating :=
| rated (rating : Rating)
| unknown.

(** an element of [reviewedChunks]: [{ ...chunk, aiComments,
    reviewStatus, overallRating, suggestions, risks }]; [chunk] holds the
    properties of the chunk with [aiComments] and [reviewStatus]
    overwritten, and a failed chunk has no [suggestions] and no [risks] *)
Module ReviewedChunk.
Record t := mk {
  chunk : Chunk.t;
  overallRating : OverallRating;
  suggestions : option (list string);
  risks : option (list string)
}.
End ReviewedChunk.

(** [{ ...chunk, aiComments, reviewStatus }] *)
Definition withReview (chunk : Chunk.t) (aiComments : list Comment.t)
           (reviewStatus : ReviewStatus) : Chunk.t :=
  {| Chunk.oldFilePath := Chunk.oldFilePath chunk;
     Chunk.newFilePath := Chunk.newFilePath chunk;
     Chunk.fileStatus := Chunk.fileStatus chunk;
     Chunk.oldStartLine := Chunk.oldStartLine chunk;
     Chunk.oldLines := Chunk.oldLines chunk;
     Chunk.newStartLine := Chunk.newStartLine chunk;
     Chunk.newLines := Chunk.newLines chunk;
     Chunk.changes := Chunk.changes chunk;
     Chunk.context := Chunk.context chunk;
     Chunk.aiComments := aiComments;
     Chunk.reviewStatus := reviewStatus |}.

(** [a === b] on two paths, each a string or [null] *)
Definition samePath (a b : option string) : bool :=
  match a, b with
  | Some x, Some y => String.eqb x y
  | None, None => true
  | _, _ => false
  end.

(** the callback of [reviewResults.find]; reading the path of a result
    that has no chunk throws *)
Definition sameHunk (chunk : Chunk.t) (r : Result.t) : string + bool :=
  match Result.chunk r with
  | None => inl "Cannot read properties of undefined (reading 'newFilePath')"
  | Some c =>
      inr (samePath (Chunk.newFilePath c) (Chunk.newFilePath chunk)
           && (Chunk.newStartLine c =? Chunk.newStartLine chunk))
  end.

(** [reviewResults.find(r => ...)]: the first result the callback
    accepts *)
Fixpoint find (chunk : Chunk.t) (reviewResults : list Result.t)
  : string + option Result.t :=
  match reviewResults with
  | [] => inr None
  | r :: rest =>
      match sameHunk chunk r with
      | inl message => inl message
      | inr true => inr (Some r)
      | inr false => find chunk rest
      end
  end.

(** the chunk returned when the review found for it succeeded *)
Definition reviewedChunk (chunk : Chunk.t) (review : Review.t)
  : ReviewedChunk.t :=
  {| ReviewedChunk.chunk :=
       withReview chunk (Review.aiComments review) reviewed;
     ReviewedChunk.overallRating :=
       rated (default good (Review.overallRating review));
     ReviewedChunk.suggestions := Some (default [] (Review.suggestions review));
     ReviewedChunk.risks := Some (default [] (Review.risks review)) |}.

(** the chunk returned otherwise *)
Definition failedChunk (chunk : Chunk.t) : ReviewedChunk.t :=
  {| ReviewedChunk.chunk := withReview chunk [] failed;
     ReviewedChunk.overallRating := unknown;
     ReviewedChunk.suggestions := None;
     ReviewedChunk.risks := None |}.

(** the callback of [chunks.map], given what [find] returned *)
Definition merge (chunk : Chunk.t) (correspondingReview : option Result.t)
  : ReviewedChunk.t :=
  match correspondingReview with
  | Some r =>
      if Review.success (Result.review r)
      then reviewedChunk chunk (Result.review r)
      else failedChunk chunk
  | None => failedChunk chunk
  end.

(** [processReviewResults(chunks, reviewResults)] *)
Fixpoint processReviewResults (chunks : list Chunk.t)
         (reviewResults : list Result.t) : string + list ReviewedChunk.t :=
  match chunks with
  | [] => inr []
  | chunk :: rest =>
      match find chunk reviewResults with
      | inl message => inl message
      | inr correspondingReview =>
          match processReviewResults rest reviewResults with
          | inl message => inl message
          | inr reviewedChunks =>
              inr (merge chunk correspondingReview :: reviewedChunks)
          end
      end
  end.

End ReviewResults.

(* ===================================================================== *)
(** ** Chunks used to state the properties of the merge *)
(* ===================================================================== *)

Module ReviewResultsSpec.
Import GitHubService DeepSeekService OrchestratorSpec ReviewResults.

(** what [processReviewResults] matches a chunk and a result on *)
Definition hunkKey (chunk : Chunk.t) : option string * Z :=
  (Chunk.newFilePath chunk, Chunk.newStartLine chunk).

(** the position of the first chunk with the key of [chunk] *)
Fixpoint firstWithKey (chunk : Chunk.t) (chunks : list Chunk.t) : option nat :=
  match chunks with
  | [] => None
  | c :: rest =>
      if samePath (Chunk.newFilePath c) (Chunk.newFilePath chunk)
         && (Chunk.newStartLine c =? Chunk.newStartLine chunk)
      then Some O
      else S <$> firstWithKey chunk rest
  end.

(** what [find] returns for [chunk] on the results of the orchestrator *)
Definition found (call : nat -> Chunk.t -> settled Review.t)
           (chunks : list Chunk.t) (chunk : Chunk.t) : option Result.t :=
  match firstWithKey chunk chunks with
  | Some i => resultAt call i <$> chunks !! i
  | None => None
  end.

(** a schedule in which every call of a batch settles, in order *)
Definition inOrder (b : nat) : list nat := [0; 1; 2]%nat.

(** a diff that deletes two files *)
Definition twoDeletedFiles : string :=
  JS.unlines
    [ "diff --git a/old.js b/old.js";
      "deleted file mode 100644";
      "--- a/old.js";
      "+++ /dev/null";
      "@@ -1,2 +0,0 @@";
      "-const a = 1;";
      "-module.exports = a;";
      "diff --git a/gone.js b/gone.js";
      "deleted file mode 100644";
      "--- a/gone.js";
      "+++ /dev/null";
      "@@ -1 +0,0 @@";
      "-eval(input);" ].

(** the review of a chunk, good unless the chunk is that of [gone.js] *)
Definition reviewByPath (i : nat) (chunk : Chunk.t) : settled Review.t :=
  Fulfilled
    {| Review.success := true;
       Review.error := None;
       Review.aiComments := [];
       Review.overallRating :=
         Some (if samePath (Chunk.oldFilePath chunk) (Some "gone.js")
               then needs_attention else good);
       Review.suggestions := Some [];
       Review.risks := Some [] |}.

End ReviewResultsSpec.

(* ===================================================================== *)
(** ** services/deepSeekService.js: structuring the answer of the model *)
(* ===================================================================== *)

Module AiResponse.
Import GitHubService DeepSeekService.

(** [a || b] on two paths: [null] and the empty string are falsy *)
Definition orPath (a b : option string) : option string :=
  match a with
  | Some (String _ _) => a
  | _ => b
  end.

(** what the callback of [sections.forEach] assigns and pushes to *)
Record Sections := mkSections {
  overallRating : Rating;
  suggestions : list string;
  risks : list string
}.

Definition severityOf (overallRating : Rating) : Severity :=
  match overallRating with
  | needs_attention => high
  | needs_improvement => medium
  | good => low
  end.

Section ParseAIResponse.

(** the string primitives of the engine, left as they are:
    [s.split(/#{1,3}\s+/)], [s.trim()] and [s.includes(needle)] *)
Variable split : string -> list string.
Variable trim : string -> string.
Variable includes : string -> string -> bool.

(** the callback of [sections.forEach(section => ...)] *)
Definition visit (state : Sections) (section : string) : Sections :=
  let content := trim section in
  {| overallRating :=
       if includes content "总体评价" || includes content "整体评估" then
         if includes content "需要改进" || includes content "存在问题" then
           if includes content "存在问题"
           then needs_attention else needs_improvement
         else overallRating state
       else overallRating state;
     suggestions :=
       if includes content "具体建议" || includes content "建议"
       then (suggestions state ++ [content])%list else suggestions state;
     risks :=
       if includes content "风险" || includes content "安全"
       then (risks state ++ [content])%list else risks state |}.

(** [parseAIResponse(aiResponse, chunk)] *)
Definition parseAIResponse (aiResponse : string) (chunk : Chunk.t)
  : Parsed.t :=
  let sections := split aiResponse in
  let final :=
    fold_left visit sections
              {| overallRating := good; suggestions := []; risks := [] |} in
  {| Parsed.comments :=
       [ {| Comment.type := "review";
            Comment.content := aiResponse;
            Comment.severity := severityOf (overallRating final);
            Comment.line := Chunk.newStartLine chunk;
            Comment.path :=
              orPath (Chunk.newFilePath chunk) (Chunk.oldFilePath chunk) |} ];
     Parsed.suggestions := suggestions final;
     Parsed.risks := risks final;
     Parsed.rating := overallRating final |}.

End ParseAIResponse.

End AiResponse.

(* ===================================================================== *)
(** ** Sections used to state the properties of the answer parser *)
(* ===================================================================== *)

Module AiResponseSpec.
Import GitHubService DeepSeekService AiResponse.

Section Verdict.

Variable trim : string -> string.
Variable includes : string -> string -> bool.

(** an overall-evaluation section that names a problem *)
Definition verdict (section : string) : bool :=
  let content := trim section in
  (includes content "总体评价" || includes content "整体评估")
  && (includes content "需要改进" || includes content "存在问题").

Definition ratingOf (section : string) : Rating :=
  if includes (trim section) "存在问题"
  then needs_attention else needs_improvement.

Definition advises (section : string) : bool :=
  includes (trim section) "具体建议" || includes (trim section) "建议".

Definition warns (section : string) : bool :=
  includes (trim section) "风险" || includes (trim section) "安全".

End Verdict.

End AiResponseSpec.

(* ===================================================================== *)
(** ** handlers/pullRequestHandler.js: posting the review to the pull
       request *)
(* ===================================================================== *)

Module ReviewComments.
Import GitHubService DeepSeekService PullRequestHandler ReviewResults.

(** [getSeverityEmoji(severity)], on the severities a comment can have *)
Definition getSeverityEmoji (severity : Severity) : string :=
  match severity with
  | high => "🚨"
  | medium => "⚠️"
  | low => "ℹ️"
  end.

(** [`${severity}`] *)
Definition severityName (severity : Severity) : string :=
  match severity with
  | high => "high"
  | medium => "medium"
  | low => "low"
  end.


Definition nl : string := String JS.newline EmptyString.

(** the body of a line-level comment *)
Definition lineBody (comment : Comment.t) : string :=
  "🤖 **AI代码审查建议**" ++ nl ++ nl ++ Comment.content comment ++ nl ++ nl
  ++ "*严重程度: " ++ getSeverityEmoji (Comment.severity comment) ++ " "
  ++ severityName (Comment.severity comment) ++ "*".

(** a call of a method of the GitHub service; the owner, the repository
    and the number are those of [prInfo] in each of them *)
Inductive Call :=
| AddPullRequestComment (body : string)
| GetPullRequestDetails
| AddPullRequestReviewComment (commitSha : option json)
                              (path : option string) (line : Z)
                              (body : string).


Section AddReviewComments.

(** how the [n]-th call made of the GitHub service settles: with the
    data of the response, with an exception, or not at all *)
Variable github : nat -> async (option json).




End AddReviewComments.

End ReviewComments.

(* ===================================================================== *)
(** ** Notions used to state the properties of the posting *)
(* ===================================================================== *)

Module ReviewCommentsSpec.
Import GitHubService DeepSeekService ReviewResults ReviewComments.







(** the calls made for a comment when every call is answered *)
Definition callsFor (sha : string) (comment : Comment.t) : list Call :=
  [ GetPullRequestDetails;
    AddPullRequestReviewComment (Some (JStr sha)) (Comment.path comment)
                                (Comment.line comment) (lineBody comment) ].



End ReviewCommentsSpec.

(* ===================================================================== *)
(** * Properties *)
(* ===================================================================== *)

(** ** The pattern of hunk headers *)

Module RegexFacts.
Import GitHubService ParserSpec.

Lemma plus_k_inv {R : Type} cls s (k : string -> option R) x :
  JS.plus_k cls s k = Some x ->
  exists t rest,
    s = (t ++ rest)%string /\ t <> EmptyString
    /\ (forall c t', t = String c t' -> cls c = true)
    /\ k rest = Some x.
Proof.
  revert x. induction s as [|c s IH]; intros x; simpl; [discriminate|].
  destruct (cls c) eqn:Ec; [|discriminate].
  destruct (JS.plus_k cls s k) as [y|] eqn:Ep.
  - intros [= <-]. destruct (IH y eq_refl) as (t & rest & -> & _ & _ & Hk).
    exists (String c t), rest. repeat split; [discriminate | | exact Hk].
    now intros c' t' [= <- _].
  - intros Hk. exists (String c EmptyString), s.
    repeat split; [discriminate | | exact Hk].
    now intros c' t' [= <- _].
Qed.

(** the same, for digits: the consumed part is a numeral *)
Lemma plus_k_digits {R : Type} s (k : string -> option R) x :
  JS.plus_k JS.isDigit s k = Some x ->
  exists t rest,
    s = (t ++ rest)%string /\ isNumeral t = true /\ k rest = Some x.
Proof.
  revert x. induction s as [|c s IH]; intros x; simpl; [discriminate|].
  destruct (JS.isDigit c) eqn:Ec; [|discriminate].
  destruct (JS.plus_k JS.isDigit s k) as [y|] eqn:Ep.
  - intros [= <-]. destruct (IH y eq_refl) as (t & rest & -> & Ht & Hk).
    exists (String c t), rest. repeat split; [|exact Hk].
    simpl. rewrite Ec. destruct t; [discriminate | exact Ht].
  - intros Hk. exists (String c EmptyString), s.
    repeat split; [|exact Hk]. simpl. now rewrite Ec.
Qed.

Lemma consumed_app (t rest : string) : JS.consumed (t ++ rest) rest = t.
Proof.
  unfold JS.consumed.
  assert (Hlen : (String.length (t ++ rest) - String.length rest)%nat
                 = String.length t).
  { assert (Happ : String.length (t ++ rest)
                     = (String.length t + String.length rest)%nat)
      by (induction t as [|c t IH]; simpl; congruence).
    rewrite Happ. lia. }
  rewrite Hlen. clear Hlen.
  induction t as [|c t IH]; simpl.
  - now destruct rest.
  - now rewrite IH.
Qed.

Lemma group_insert (caps : JS.captures) (i j : nat) (t : string) :
  JS.group (<[i := Some t]> caps) j =
    if decide (i = j /\ (i < length caps)%nat) then Some t else JS.group caps j.
Proof.
  unfold JS.group. rewrite list_lookup_insert.
  now destruct (decide _).
Qed.

(** a match of a pattern whose groups are all [(\d+)] sets the groups that
    take part in every match, keeps those that were set, and sets
    numerals only *)
Lemma exec_inv {R : Type} (r : JS.regex) :
  numeralGroups r ->
  forall s caps (k : string -> JS.captures -> option R) x,
    numeralCaptures caps ->
    JS.exec r s caps k = Some x ->
    exists rest caps',
      k rest caps' = Some x
      /\ numeralCaptures caps'
      /\ length caps' = length caps
      /\ (forall i, i ∈ defines r -> (i < length caps)%nat ->
                    is_Some (JS.group caps' i))
      /\ (forall i, is_Some (JS.group caps i) -> is_Some (JS.group caps' i)).
Proof.
  induction r as [c|cls|i r IH|r IH|r1 IH1 r2 IH2|];
    intros Hr s caps k x Hcaps Hexec; simpl in *.
  - destruct s as [|c' s]; [discriminate|].
    destruct (Ascii.eqb c c'); [|discriminate].
    exists s, caps. repeat split; auto. intros i Hi. inversion Hi.
  - apply plus_k_inv in Hexec as (t & rest & _ & _ & _ & Hk).
    exists rest, caps. repeat split; auto. intros i Hi. inversion Hi.
  - subst r. simpl in Hexec.
    apply plus_k_digits in Hexec as (t & rest & -> & Ht & Hk).
    rewrite consumed_app in Hk.
    exists rest, (<[i := Some t]> caps). split; [exact Hk|].
    split; [|split; [apply length_insert|split]].
    + intros j t'. rewrite group_insert.
      destruct (decide _); [now intros [= <-] | apply Hcaps].
    + intros j Hj Hlt. apply list_elem_of_singleton in Hj. subst j.
      rewrite group_insert, decide_True by tauto. eauto.
    + intros j Hj. rewrite group_insert. destruct (decide _); eauto.
  - destruct (JS.exec r s caps k) as [y|] eqn:Er.
    + injection Hexec as ->.
      destruct (IH Hr s caps k x Hcaps Er) as (rest & caps' & ? & ? & ? & _ & ?).
      exists rest, caps'. repeat split; auto. intros i Hi. inversion Hi.
    + exists s, caps. repeat split; auto. intros i Hi. inversion Hi.
  - destruct Hr as [Hr1 Hr2].
    destruct (IH1 Hr1 _ _ _ _ Hcaps Hexec)
      as (s1 & caps1 & Hk1 & Hc1 & Hl1 & Hd1 & Hp1).
    destruct (IH2 Hr2 _ _ _ _ Hc1 Hk1)
      as (s2 & caps2 & Hk2 & Hc2 & Hl2 & Hd2 & Hp2).
    exists s2, caps2. split; [exact Hk2|]. split; [exact Hc2|].
    split; [congruence|]. split.
    + intros i Hi Hlt. apply elem_of_app in Hi as [Hi|Hi].
      * apply Hp2, Hd1; assumption.
      * apply Hd2; [assumption | congruence].
    + intros i Hi. apply Hp2, Hp1, Hi.
  - exists s, caps. repeat split; auto. intros i Hi. inversion Hi.
Qed.

(** on a match of the hunk header, the two start groups are set, and
    every group that is set holds a numeral: [parseInt] is only applied
    to numerals, and the defaults for the two starts are never used *)
Lemma hunkMatch_groups (line : string) (m : JS.captures) :
  hunkMatch line = Some m ->
  (exists oldStart newStart,
      JS.group m 1 = Some oldStart /\ isNumeral oldStart = true
      /\ JS.group m 3 = Some newStart /\ isNumeral newStart = true)
  /\ (forall t, JS.group m 2 = Some t -> isNumeral t = true)
  /\ (forall t, JS.group m 4 = Some t -> isNumeral t = true).
Proof.
  unfold hunkMatch, JS.match_anchored. intros Hm.
  apply exec_inv in Hm as (rest & caps & Hk & Hcaps & Hlen & Hdef & _).
  - injection Hk as <-.
    assert (Hgroup : forall j, j <> 0%nat ->
              JS.group (<[0%nat := Some (JS.consumed line rest)]> caps) j
              = JS.group caps j).
    { intros j Hj. rewrite group_insert. rewrite decide_False; [reflexivity|].
      intros [? _]. congruence. }
    rewrite !Hgroup by discriminate. split; [|split].
    + destruct (Hdef 1%nat) as [t1 H1]; [cbn; repeat constructor | simpl; lia|].
      destruct (Hdef 3%nat) as [t3 H3]; [cbn; repeat constructor | simpl; lia|].
      exists t1, t3.
      split; [exact H1|]. split; [exact (Hcaps _ _ H1)|].
      split; [exact H3 | exact (Hcaps _ _ H3)].
    + intros t. apply Hcaps.
    + intros t. apply Hcaps.
  - cbn. repeat split; reflexivity.
  - intros i t. unfold JS.group.
    destruct i as [|[|[|[|[|i]]]]]; discriminate.
Qed.

End RegexFacts.

(** ** The diff parser *)

Module ParserFacts.
Import GitHubService ParserSpec.

(** *** Numbers *)

Lemma toNumber_exact (n : Z) : n <= 2 ^ 53 -> JS.toNumber n = n.
Proof.
  intros H. unfold JS.toNumber.
  destruct (Z.leb_spec n (2 ^ 53)); [reflexivity | lia].
Qed.

Lemma plus_exact (a b : Z) : a + b <= 2 ^ 53 -> JS.plus a b = a + b.
Proof. apply toNumber_exact. Qed.

(** *** What the loop keeps *)

Section Keeps.
Variable P : Hunk.t -> Z -> Z -> Prop.

Hypothesis P_open : forall a b c d, P (Hunk.mk a b c d []) a c.

Hypothesis P_push :
  forall st h line,
    P h (oldLineNumber st) (newLineNumber st) ->
    forall h', currentHunk (pushChange st h line) = Some h' ->
               P h' (oldLineNumber (pushChange st h line))
                    (newLineNumber (pushChange st h line)).

Lemma keeps_init : keeps P init.
Proof. split; [constructor | discriminate]. Qed.

Lemma keeps_flush st :
  keeps P st ->
  Forall (fun c => exists f h o n, c = createChunk f h /\ P h o n) (flush st).
Proof.
  intros [Hc Hh]. unfold flush.
  destruct (currentHunk st) as [h|] eqn:Eh; [|exact Hc].
  destruct (currentFile st) as [f|]; [|exact Hc].
  apply Forall_app; split; [exact Hc|].
  constructor; [|constructor]. exists f, h. eauto.
Qed.

Lemma keeps_step st line : keeps P st -> keeps P (step st line).
Proof.
  intros Hk. pose proof (keeps_flush st Hk) as Hf.
  pose proof Hk as [Hc Hh]. unfold step.
  destruct (JS.startsWith "diff --git " line).
  { split; simpl; [exact Hf | discriminate]. }
  destruct (JS.startsWith "--- " line).
  { destruct (currentFile st); [split; simpl; auto | exact Hk]. }
  destruct (JS.startsWith "+++ " line).
  { destruct (currentFile st); [split; simpl; auto | exact Hk]. }
  destruct (JS.startsWith "@@" line).
  { destruct (hunkMatch line); split; simpl; auto.
    intros h [= <-]. apply P_open. }
  destruct (currentHunk st) as [h|] eqn:Eh; [|exact Hk].
  destruct (_ || _); [|exact Hk].
  split; [exact Hc|]. intros h' Eh'. apply (P_push st h line); auto.
Qed.

Lemma keeps_parse lines :
  Forall (fun c => exists f h o n, c = createChunk f h /\ P h o n)
         (parseLines lines).
Proof.
  apply keeps_flush. unfold parseLines.
  assert (H : forall st, keeps P st -> keeps P (fold_left step lines st)).
  { induction lines as [|l ls IH]; intros st Hst; [exact Hst|].
    simpl. apply IH, keeps_step, Hst. }
  apply H, keeps_init.
Qed.

End Keeps.

(** every chunk the parser returns was built by [createChunk] *)
Lemma parse_created diffText chunk :
  chunk ∈ parseDiffToChunks diffText -> created chunk.
Proof.
  intros Hin.
  pose proof (keeps_parse (fun _ _ _ => True) (fun _ _ _ _ => I)
                (fun _ _ _ _ _ _ => I) (JS.split_lines diffText)) as Hall.
  rewrite Forall_forall in Hall.
  destruct (Hall chunk Hin) as (f & h & _ & _ & -> & _). now exists f, h.
Qed.

(** *** Consecutive line numbers *)

Lemma length_omap_le {A B : Type} (f : A -> option B) (l : list A) :
  (length (omap f l) <= length l)%nat.
Proof.
  induction l as [|x l IH]; [reflexivity|].
  cbn [omap list_omap]. destruct (f x); cbn [length]; lia.
Qed.

Lemma consecutive_snoc start numbers counter :
  consecutive start numbers counter ->
  consecutive start (numbers ++ [counter]) (counter + 1).
Proof.
  intros [Hn Hc]. unfold consecutive. rewrite length_app. simpl.
  replace (length numbers + 1)%nat with (S (length numbers)) by lia.
  rewrite seqZ_S, <- Hn, <- Hc. split; [reflexivity | lia].
Qed.

(** a step of a counter that stays in range is exact *)
Lemma consecutive_step start (numbers : list Z) counter (changes : nat) :
  consecutive start numbers counter ->
  (length numbers <= changes)%nat ->
  inRange start (S changes) ->
  consecutive start (numbers ++ [counter]) (JS.plus counter 1).
Proof.
  intros Hc Hlen Hr. rewrite plus_exact.
  - now apply consecutive_snoc.
  - destruct Hc as [_ ->]. unfold inRange in Hr. lia.
Qed.

Lemma inRange_S start changes :
  inRange start (S changes) -> inRange start changes.
Proof. unfold inRange. lia. Qed.

Lemma numbering_push st h line :
  numbering h (oldLineNumber st) (newLineNumber st) ->
  forall h', currentHunk (pushChange st h line) = Some h' ->
             numbering h' (oldLineNumber (pushChange st h line))
                          (newLineNumber (pushChange st h line)).
Proof.
  intros [Ho Hn] h' [= <-]. unfold numbering, oldNumbers, newNumbers in *.
  cbn [Hunk.changes Hunk.oldStartLine Hunk.newStartLine pushChange
       oldLineNumber newLineNumber].
  rewrite !omap_app, length_app. cbn [length].
  replace (length (Hunk.changes h) + 1)%nat
    with (S (length (Hunk.changes h))) by lia.
  pose proof (length_omap_le Change.oldLineNumber (Hunk.changes h)) as Hlo.
  pose proof (length_omap_le Change.newLineNumber (Hunk.changes h)) as Hln.
  split; intros Hr; pose proof (inRange_S _ _ Hr) as Hr'.
  - specialize (Ho Hr').
    destruct (lineType line); cbn; rewrite ?app_nil_r;
      eauto using consecutive_step.
  - specialize (Hn Hr').
    destruct (lineType line); cbn; rewrite ?app_nil_r;
      eauto using consecutive_step.
Qed.

Lemma numbering_open a b c d : numbering (Hunk.mk a b c d []) a c.
Proof. split; intros _; (split; [reflexivity | simpl; lia]). Qed.

Lemma omap_old_imap (f : nat -> Change.t -> FlatChange.t) (l : list Change.t) :
  (forall i c, FlatChange.oldLineNumber (f i c) = Change.oldLineNumber c) ->
  omap FlatChange.oldLineNumber (imap f l) = omap Change.oldLineNumber l.
Proof.
  revert f. induction l as [|c l IH]; intros f Hf; [reflexivity|].
  rewrite imap_cons. simpl. rewrite Hf, IH; [reflexivity|].
  intros i c'. apply Hf.
Qed.

Lemma omap_new_imap (f : nat -> Change.t -> FlatChange.t) (l : list Change.t) :
  (forall i c, FlatChange.newLineNumber (f i c) = Change.newLineNumber c) ->
  omap FlatChange.newLineNumber (imap f l) = omap Change.newLineNumber l.
Proof.
  revert f. induction l as [|c l IH]; intros f Hf; [reflexivity|].
  rewrite imap_cons. simpl. rewrite Hf, IH; [reflexivity|].
  intros i c'. apply Hf.
Qed.

(** the numbers of a side that stays in range, in a chunk the parser
    returns *)
Lemma parse_numbering diffText chunk :
  chunk ∈ parseDiffToChunks diffText ->
  let olds := omap FlatChange.oldLineNumber (Chunk.changes chunk) in
  let news := omap FlatChange.newLineNumber (Chunk.changes chunk) in
  (inRange (Chunk.oldStartLine chunk) (length (Chunk.changes chunk)) ->
   olds = seqZ (Chunk.oldStartLine chunk) (Z.of_nat (length olds)))
  /\ (inRange (Chunk.newStartLine chunk) (length (Chunk.changes chunk)) ->
      news = seqZ (Chunk.newStartLine chunk) (Z.of_nat (length news))).
Proof.
  intros Hin.
  pose proof (keeps_parse numbering numbering_open numbering_push
                (JS.split_lines diffText)) as Hall.
  rewrite Forall_forall in Hall.
  destruct (Hall chunk Hin) as (f & h & o & n & -> & Ho & Hn).
  cbn [createChunk Chunk.changes Chunk.oldStartLine Chunk.newStartLine].
  rewrite omap_old_imap, omap_new_imap by reflexivity.
  rewrite length_imap.
  split; intros Hr; [apply (Ho Hr) | apply (Hn Hr)].
Qed.

Lemma sorted_snoc (l : list Z) (x : Z) :
  strictly_increasing l -> Forall (fun y => y < x) l ->
  strictly_increasing (l ++ [x]).
Proof.
  intros Hs Hb. apply StronglySorted_app. split; [|split].
  - intros a b Ha Hb'. apply list_elem_of_singleton in Hb'. subst b.
    rewrite Forall_forall in Hb. auto.
  - exact Hs.
  - repeat constructor.
Qed.

Lemma seqZ_increasing (start : Z) (k : nat) :
  strictly_increasing (seqZ start (Z.of_nat k))
  /\ Forall (fun y => y < start + Z.of_nat k) (seqZ start (Z.of_nat k)).
Proof.
  induction k as [|k [Hs Hb]].
  - split; constructor.
  - rewrite seqZ_S. split.
    + now apply sorted_snoc.
    + apply Forall_app. split.
      * eapply Forall_impl; [exact Hb|]. cbn. intros. lia.
      * repeat constructor. lia.
Qed.

(** C9, as the claim states it, fails: from 2^53 on a counter no longer
    moves when it is incremented.  Under a header that starts both
    sides at 9007199254740993, which is read as 9007199254740992, two
    context lines carry the same old line number and the same new line
    number. *)
Lemma line_numbers_stall_at_2_53 :
  let chunks := parseDiffToChunks stalledDiff in
  map (fun c => omap FlatChange.oldLineNumber (Chunk.changes c)) chunks
  = [[9007199254740992; 9007199254740992]]
  /\ map (fun c => omap FlatChange.newLineNumber (Chunk.changes c)) chunks
     = [[9007199254740992; 9007199254740992]]
  /\ ~ strictly_increasing [9007199254740992; 9007199254740992].
Proof.
  split; [vm_compute; reflexivity|]. split; [vm_compute; reflexivity|].
  intros H. inversion_clear H as [|? ? _ Hlt].
  inversion_clear Hlt as [|? ? Hx _]. lia.
Qed.

(** C9, amended.  In every chunk the parser returns, on each side whose
    start line plus the number of changes of the chunk does not pass
    2^53, the line numbers that are present increase strictly along the
    changes. *)
Theorem line_numbers_strictly_increasing (diffText : string) (chunk : Chunk.t) :
  chunk ∈ parseDiffToChunks diffText ->
  let changes := Z.of_nat (length (Chunk.changes chunk)) in
  (Chunk.oldStartLine chunk + changes <= 2 ^ 53 ->
   strictly_increasing (omap FlatChange.oldLineNumber (Chunk.changes chunk)))
  /\ (Chunk.newStartLine chunk + changes <= 2 ^ 53 ->
      strictly_increasing (omap FlatChange.newLineNumber (Chunk.changes chunk))).
Proof.
  intros Hin. cbv zeta.
  destruct (parse_numbering diffText chunk Hin) as [Ho Hn].
  split; intros Hr.
  - rewrite (Ho Hr). apply seqZ_increasing.
  - rewrite (Hn Hr). apply seqZ_increasing.
Qed.

Lemma line_numbers_strictly_increasing_witness :
  let diffText := JS.unlines [ "diff --git a/f b/f"; "--- a/f"; "+++ b/f";
                               "@@ -7,3 +7,3 @@"; " a"; "-b"; "+c"; " d" ] in
  exists chunk,
    parseDiffToChunks diffText = [chunk]
    /\ omap FlatChange.oldLineNumber (Chunk.changes chunk) = [7; 8; 9]
    /\ omap FlatChange.newLineNumber (Chunk.changes chunk) = [7; 8; 9]
    /\ strictly_increasing (omap FlatChange.oldLineNumber (Chunk.changes chunk))
    /\ strictly_increasing (omap FlatChange.newLineNumber (Chunk.changes chunk)).
Proof.
  intros diffText. eexists. split; [vm_compute; reflexivity|].
  split; [reflexivity|]. split; [reflexivity|].
  match goal with
  | |- strictly_increasing (omap _ (Chunk.changes ?c)) /\ _ =>
      destruct (line_numbers_strictly_increasing diffText c) as [Ho Hn];
        [vm_compute; left | split; [apply Ho | apply Hn]; vm_compute; discriminate]
  end.
Defined.

(** C7, as the claim states it, fails: a context line in a hunk whose new
    side starts at 0 has new line number 0, yet its flattened line
    number is its old line number 3. *)
Lemma lineNumber_skips_zero :
  map (fun c => (FlatChange.type c, FlatChange.oldLineNumber c,
                 FlatChange.newLineNumber c, FlatChange.lineNumber c))
      (concat (map Chunk.changes (parseDiffToChunks zeroLineDiff)))
  = [(normal, Some 3, Some 0, 3)].
Proof. vm_compute. reflexivity. Qed.

(** the sum of the fallback is a sum of doubles: past 2^53 it is rounded *)
Example fallback_rounded_past_2_53 :
  map (fun c => (FlatChange.type c, FlatChange.oldLineNumber c,
                 FlatChange.newLineNumber c, FlatChange.lineNumber c))
      (concat (map Chunk.changes (parseDiffToChunks roundedFallbackDiff)))
  = [ (add, None, Some 9007199254740992, 9007199254740992);
      (del, Some 0, None, 9007199254740992) ].
Proof. vm_compute. reflexivity. Qed.

(** C7, amended.  For every chunk the parser returns and every change at
    index [i] in it, the flattened line number is the new line number
    when that is present and not 0, otherwise the old line number when
    that is present and not 0, otherwise [newStartLine + i], as long as
    that sum does not pass 2^53. *)
Theorem lineNumber_three_way (diffText : string) (chunk : Chunk.t)
        (i : nat) (c : FlatChange.t) :
  chunk ∈ parseDiffToChunks diffText ->
  Chunk.changes chunk !! i = Some c ->
  (forall n, FlatChange.newLineNumber c = Some n -> n <> 0 ->
             FlatChange.lineNumber c = n)
  /\ (falsy (FlatChange.newLineNumber c) ->
      forall m, FlatChange.oldLineNumber c = Some m -> m <> 0 ->
                FlatChange.lineNumber c = m)
  /\ (falsy (FlatChange.newLineNumber c) ->
      falsy (FlatChange.oldLineNumber c) ->
      Chunk.newStartLine chunk + Z.of_nat i <= 2 ^ 53 ->
      FlatChange.lineNumber c = Chunk.newStartLine chunk + Z.of_nat i).
Proof.
  intros Hin Hc. destruct (parse_created _ _ Hin) as (f & h & ->).
  simpl in *. rewrite list_lookup_imap in Hc.
  destruct (Hunk.changes h !! i) as [ch|]; [|discriminate].
  injection Hc as <-. simpl. unfold or_else, falsy.
  repeat split.
  - intros n -> Hn. apply Z.eqb_neq in Hn. now rewrite Hn.
  - intros [-> | ->] m -> Hm; apply Z.eqb_neq in Hm; simpl; now rewrite Hm.
  - intros [-> | ->] [-> | ->] Hr; cbn; now rewrite plus_exact.
Qed.

Lemma lineNumber_three_way_witness :
  exists chunk c,
    parseDiffToChunks zeroLineDiff = [chunk]
    /\ Chunk.changes chunk !! 0%nat = Some c
    /\ falsy (FlatChange.newLineNumber c)
    /\ FlatChange.oldLineNumber c = Some 3
    /\ FlatChange.lineNumber c = 3.
Proof.
  eexists. eexists. split; [vm_compute; reflexivity|].
  split; [reflexivity|]. split; [right; reflexivity|].
  split; [reflexivity|].
  eapply (lineNumber_three_way zeroLineDiff _ 0%nat).
  - vm_compute. left.
  - reflexivity.
  - right; reflexivity.
  - reflexivity.
  - discriminate.
Defined.

(** *** Splitting a text that was joined from lines *)

Lemma append_nil_r (s : string) : (s ++ "")%string = s.
Proof. induction s; simpl; congruence. Qed.

Lemma append_assoc (a b c : string) :
  ((a ++ b) ++ c)%string = (a ++ (b ++ c))%string.
Proof. induction a; simpl; congruence. Qed.





(** *** One iteration on a code line *)

Lemma step_code_line st hunk line :
  currentHunk st = Some hunk ->
  isMarker line = false ->
  step st line =
    if JS.startsWith "+" line || JS.startsWith "-" line || JS.startsWith " " line
    then pushChange st hunk line else st.
Proof.
  intros Eh Hm. unfold isMarker in Hm.
  apply orb_false_iff in Hm as [Hm H4].
  apply orb_false_iff in Hm as [Hm H3].
  apply orb_false_iff in Hm as [H1 H2].
  unfold step. now rewrite H1, H2, H3, H4, Eh.
Qed.



(** C8, as the claim states it, fails: with a hunk open, the line that
    starts with a backslash is not recorded as a context change; the
    chunk holds the two changes before it and nothing else. *)
Lemma other_line_not_recorded :
  map (fun c => (FlatChange.type c, FlatChange.content c))
      (concat (map Chunk.changes (parseDiffToChunks noNewlineMarkerDiff)))
  = [(del, "old"); (add, "new")].
Proof. vm_compute. reflexivity. Qed.

(** a deleted line whose text starts with [-- ] is taken for a path line *)
Example dash_line_taken_for_path :
  map (fun c => (Chunk.oldFilePath c, map FlatChange.type (Chunk.changes c)))
      (parseDiffToChunks
         (JS.unlines [ "diff --git a/q.sql b/q.sql"; "--- a/q.sql";
                       "+++ b/q.sql"; "@@ -1,2 +1 @@"; "--- a comment";
                       " select 1" ]))
  = [(Some "a comment", [normal])].
Proof. vm_compute. reflexivity. Qed.

(** C8, amended.  While a hunk is open, a line that is not a file
    boundary, a path line or a hunk header is recorded as an added change
    using and incrementing only the new counter when it starts with [+],
    as a deleted change using and incrementing only the old counter when
    it starts with [-], as a context change using and incrementing both
    counters when it starts with a space, a counter from 0 to below 2^53
    being incremented by one; any other line, the empty line included,
    is skipped and changes nothing. *)
Theorem code_line_recorded (st : state) (hunk : Hunk.t) (line : string) :
  currentHunk st = Some hunk ->
  isMarker line = false ->
  0 <= oldLineNumber st < 2 ^ 53 ->
  0 <= newLineNumber st < 2 ^ 53 ->
  (JS.startsWith "+" line = true ->
   records st hunk
     {| Change.type := add; Change.content := JS.substring_from 1 line;
        Change.oldLineNumber := None;
        Change.newLineNumber := Some (newLineNumber st) |}
     (oldLineNumber st) (newLineNumber st + 1) (step st line))
  /\ (JS.startsWith "-" line = true ->
      records st hunk
        {| Change.type := del; Change.content := JS.substring_from 1 line;
           Change.oldLineNumber := Some (oldLineNumber st);
           Change.newLineNumber := None |}
        (oldLineNumber st + 1) (newLineNumber st) (step st line))
  /\ (JS.startsWith " " line = true ->
      records st hunk
        {| Change.type := normal; Change.content := JS.substring_from 1 line;
           Change.oldLineNumber := Some (oldLineNumber st);
           Change.newLineNumber := Some (newLineNumber st) |}
        (oldLineNumber st + 1) (newLineNumber st + 1) (step st line))
  /\ (JS.startsWith "+" line = false -> JS.startsWith "-" line = false ->
      JS.startsWith " " line = false ->
      step st line = st).
Proof.
  intros Eh Hm Ho Hn. rewrite (step_code_line st hunk line Eh Hm).
  unfold records, pushChange, lineType.
  rewrite !plus_exact by lia.
  destruct line as [|c line]; [repeat split; discriminate|].
  cbn [JS.startsWith].
  destruct (Ascii.eqb "+" c) eqn:Ep; destruct (Ascii.eqb "-" c) eqn:Ed;
    destruct (Ascii.eqb " " c) eqn:Es;
    try (apply Ascii.eqb_eq in Ep); try (apply Ascii.eqb_eq in Ed);
    try (apply Ascii.eqb_eq in Es); try congruence;
    cbn; repeat split; intros; try discriminate; auto.
Qed.

Lemma code_line_recorded_witness :
  let st := fold_left step
              [ "diff --git a/f b/f"; "--- a/f"; "+++ b/f"; "@@ -4,2 +6,3 @@" ]
              init in
  let hunk := {| Hunk.oldStartLine := 4; Hunk.oldLines := 2;
                 Hunk.newStartLine := 6; Hunk.newLines := 3;
                 Hunk.changes := [] |} in
  currentHunk st = Some hunk
  /\ isMarker "+x" = false
  /\ oldLineNumber (step st "+x") = 4
  /\ newLineNumber (step st "+x") = 7
  /\ step st "\ No newline at end of file" = st.
Proof.
  intros st hunk.
  split; [reflexivity|]. split; [reflexivity|].
  assert (Hold : 0 <= oldLineNumber st < 2 ^ 53)
    by (vm_compute; split; [discriminate | reflexivity]).
  assert (Hnew : 0 <= newLineNumber st < 2 ^ 53)
    by (vm_compute; split; [discriminate | reflexivity]).
  pose proof (code_line_recorded st hunk "+x" eq_refl eq_refl Hold Hnew)
    as (H & _).
  destruct (H eq_refl) as (_ & _ & _ & Ho & Hn).
  pose proof (code_line_recorded st hunk "\ No newline at end of file"
                eq_refl eq_refl Hold Hnew) as (_ & _ & _ & H').
  split; [exact Ho|]. split; [exact Hn|].
  apply H'; reflexivity.
Defined.

(** *** Context summary *)


(** *** Lines that change nothing *)








(** *** Hunk headers that fail the pattern *)

Lemma startsWith_cons (a : ascii) (p s : string) :
  JS.startsWith (String a p) s = true -> exists rest, s = String a rest.
Proof.
  destruct s as [|b s]; [discriminate|]. cbn [JS.startsWith].
  destruct (Ascii.eqb_spec a b) as [<-|]; [eauto | discriminate].
Qed.

(** with no hunk open, or no file, the malformed header changes nothing *)
Lemma malformed_header_ignored_when_closed st line :
  JS.startsWith "diff --git " line = false ->
  JS.startsWith "@@" line = true ->
  hunkMatch line = None ->
  currentHunk st = None \/ currentFile st = None ->
  step st line = st.
Proof.
  intros H1 H4 Hm Hc. unfold step. rewrite H1.
  destruct (startsWith_cons _ _ _ H4) as (rest & ->).
  assert (H2 : JS.startsWith "--- " (String "@" rest) = false) by reflexivity.
  assert (H3 : JS.startsWith "+++ " (String "@" rest) = false) by reflexivity.
  rewrite H2, H3, H4, Hm. unfold flush.
  destruct st as [cs f h o n]. simpl in *.
  destruct Hc as [-> | ->]; [reflexivity|]. now destruct h.
Qed.

(** C4: the code at the failing input.  The header [@@ bogus @@] fails
    the pattern; the parser pushes the open hunk as a chunk at that line
    and keeps it open, so that the line after it is added to the same
    hunk, which is pushed a second time at the end.  Without the header
    line the same input gives one chunk. *)
Theorem malformed_header_duplicates_hunk :
  hunkMatch "@@ bogus @@" = None
  /\ map (fun c => map FlatChange.content (Chunk.changes c))
         (parseDiffToChunks malformedHeaderDiff)
     = [ ["a"]; ["a"; "b"] ]
  /\ map (fun c => map FlatChange.content (Chunk.changes c))
         (parseDiffToChunks malformedHeaderSkipped)
     = [ ["a"; "b"] ].
Proof. repeat split; vm_compute; reflexivity. Qed.

End ParserFacts.

(** ** The review orchestrator *)

Module OrchestratorFacts.
Import GitHubService DeepSeekService OrchestratorSpec.

(** *** Batches *)

Lemma concat_makeBatches {A : Type} (chunks : list A) (fuel i : nat) :
  (length chunks - i <= fuel)%nat ->
  concat (makeBatches fuel i chunks) = drop i chunks.
Proof.
  revert i. induction fuel as [|fuel IH]; intros i Hfuel; simpl.
  - symmetry. apply drop_ge. lia.
  - destruct (Nat.ltb_spec i (length chunks)) as [Hlt|Hge].
    + simpl. rewrite IH by (unfold concurrencyLimit; lia).
      unfold slice, concurrencyLimit.
      replace (i + 3 - i)%nat with 3%nat by lia.
      rewrite <- drop_drop. apply take_drop.
    + symmetry. apply drop_ge. lia.
Qed.

(** the batches, in order, hold the chunks, in order *)
Lemma concat_batchesOf {A : Type} (chunks : list A) :
  concat (batchesOf chunks) = chunks.
Proof. unfold batchesOf. rewrite concat_makeBatches by lia. reflexivity. Qed.

(** *** [Promise.allSettled] *)

Section AllSettled.
Context {A : Type} (promises : list (settled A)).

Lemma length_settle slots i :
  length (settle promises slots i) = length slots.
Proof.
  unfold settle. destruct (promises !! i); [apply length_insert | reflexivity].
Qed.

Lemma lookup_settle slots i j :
  length slots = length promises ->
  settle promises slots i !! j =
    if decide (i = j) then Some <$> promises !! j else slots !! j.
Proof.
  intros Hlen. unfold settle.
  destruct (promises !! i) as [p|] eqn:Ei.
  - rewrite list_lookup_insert.
    apply lookup_lt_Some in Ei as Hlt.
    destruct (decide (i = j)) as [->|Hne].
    + rewrite decide_True by lia. now rewrite Ei.
    + rewrite decide_False by tauto. reflexivity.
  - destruct (decide (i = j)) as [->|Hne]; [|reflexivity].
    rewrite Ei. simpl. apply lookup_ge_None.
    apply lookup_ge_None in Ei. lia.
Qed.

Lemma lookup_fold_settle order slots j :
  length slots = length promises ->
  fold_left (settle promises) order slots !! j =
    if decide (j ∈ order) then Some <$> promises !! j else slots !! j.
Proof.
  revert slots. induction order as [|i order IH]; intros slots Hlen;
    cbn [fold_left].
  - rewrite decide_False by apply not_elem_of_nil. reflexivity.
  - rewrite IH by now rewrite length_settle.
    rewrite lookup_settle by exact Hlen.
    destruct (decide (j ∈ order)) as [Hin|Hnin].
    + rewrite decide_True by now right. reflexivity.
    + destruct (decide (i = j)) as [->|Hne].
      * rewrite decide_True by now left. reflexivity.
      * rewrite decide_False; [reflexivity|].
        intros [->|?]%elem_of_cons; tauto.
Qed.

(** once every promise has settled, in whatever order, the result
    holds the outcomes by position *)
Lemma allSettled_all order :
  (forall j, (j < length promises)%nat -> j ∈ order) ->
  allSettled promises order = Some promises.
Proof.
  intros Hall. unfold allSettled.
  replace (fold_left _ _ _) with (Some <$> promises).
  { apply mapM_fmap_Some. reflexivity. }
  apply list_eq. intros j.
  rewrite lookup_fold_settle by apply length_replicate.
  rewrite list_lookup_fmap.
  destruct (decide (j ∈ order)) as [Hin|Hnin]; [reflexivity|].
  destruct (decide (j < length promises)%nat) as [Hlt|Hge].
  - exfalso. auto.
  - rewrite (proj2 (lookup_ge_None promises j)) by lia.
    symmetry. apply lookup_replicate_None. lia.
Qed.

(** while some promise has not settled there is no result *)
Lemma allSettled_pending order j :
  (j < length promises)%nat -> j ∉ order ->
  allSettled promises order = None.
Proof.
  intros Hlt Hnin. unfold allSettled. apply mapM_None.
  apply Exists_exists. exists None. split; [|reflexivity].
  apply list_elem_of_lookup. exists j.
  rewrite lookup_fold_settle by apply length_replicate.
  rewrite decide_False by exact Hnin.
  now apply lookup_replicate_2.
Qed.

Lemma length_fold_settle order slots :
  length (fold_left (settle promises) order slots) = length slots.
Proof.
  revert slots. induction order as [|i order IH]; intros slots; [reflexivity|].
  cbn [fold_left]. now rewrite IH, length_settle.
Qed.

(** a result of [allSettled] holds the outcomes by position *)
Lemma allSettled_Some order results :
  allSettled promises order = Some results -> results = promises.
Proof.
  unfold allSettled. intros H. apply mapM_Some in H.
  pose proof (Forall2_length _ _ _ H) as Hlen.
  rewrite length_fold_settle, length_replicate in Hlen.
  apply list_eq. intros j.
  destruct (results !! j) as [r|] eqn:Er.
  - destruct (Forall2_lookup_r _ _ _ _ _ H Er) as (slot & Hslot & Hid).
    simpl in Hid. subst slot.
    rewrite lookup_fold_settle in Hslot by apply length_replicate.
    destruct (decide (j ∈ order)) as [Hin|Hnin].
    + destruct (promises !! j); [now injection Hslot as -> | discriminate].
    + apply lookup_replicate_1 in Hslot as [? _]. discriminate.
  - symmetry. apply lookup_ge_None. apply lookup_ge_None in Er. lia.
Qed.

End AllSettled.

(** *** The loop over the batches *)

Section Run.
Variable call : nat -> Chunk.t -> settled Review.t.
Variable schedule : nat -> list nat.

Lemma forEachResult_from off pre suf results :
  forEachResult (pre ++ suf) (length pre)
                (imap (fun j c => call (off + (length pre + j)) c) suf) results
  = inr (results
           ++ imap (fun j c => resultAt call (off + (length pre + j)) c) suf)%list.
Proof.
  revert pre results. induction suf as [|c suf IH]; intros pre results.
  - simpl. now rewrite app_nil_r.
  - rewrite !imap_cons. cbn [forEachResult].
    rewrite list_lookup_middle by reflexivity.
    assert (Hnext : forall r,
      forEachResult (pre ++ c :: suf) (S (length pre))
        (imap ((fun j c0 => call (off + (length pre + j)) c0) ∘ S) suf)
        (results ++ [r])
      = inr (results ++ r ::
               imap ((fun j c0 => resultAt call (off + (length pre + j)) c0) ∘ S)
                    suf)%list).
    { intros r.
      replace (pre ++ c :: suf)%list with ((pre ++ [c]) ++ suf)%list
        by now rewrite <- app_assoc.
      replace (S (length pre)) with (length (pre ++ [c])%list)
        by (rewrite length_app; simpl; lia).
      erewrite imap_ext; [rewrite IH|].
      - rewrite <- app_assoc. simpl. do 3 f_equal.
        apply imap_ext. intros j x _. simpl.
        rewrite length_app. simpl. f_equal. lia.
      - intros j x _. simpl. rewrite length_app. simpl. f_equal. lia. }
    unfold resultAt at 1.
    destruct (call (off + (length pre + 0)) c) as [v|m]; apply Hnext.
Qed.

Lemma forEachResult_batch off batch results :
  forEachResult batch 0 (imap (fun j c => call (off + j) c) batch) results
  = inr (results ++ imap (fun j c => resultAt call (off + j) c) batch)%list.
Proof. exact (forEachResult_from off [] batch results). Qed.

Lemma runBatches_fair batches b offset results :
  (forall k batch j, batches !! k = Some batch -> (j < length batch)%nat ->
                     j ∈ schedule (b + k)) ->
  runBatches call schedule b offset batches results
  = Resolves (results
                ++ imap (fun j c => resultAt call (offset + j) c)
                        (concat batches))%list.
Proof.
  revert b offset results.
  induction batches as [|batch rest IH]; intros b offset results Hfair.
  - simpl. now rewrite app_nil_r.
  - cbn [runBatches].
    rewrite allSettled_all.
    2:{ intros j Hj. rewrite length_imap in Hj.
        specialize (Hfair 0%nat batch j eq_refl Hj).
        now rewrite Nat.add_0_r in Hfair. }
    rewrite forEachResult_batch.
    rewrite IH.
    2:{ intros k batch' j Hk Hj.
        replace (S b + k)%nat with (b + S k)%nat by lia.
        now apply (Hfair (S k) batch' j). }
    cbn [concat]. rewrite imap_app, <- app_assoc. do 3 f_equal.
    apply imap_ext. intros j x _. simpl. f_equal. lia.
Qed.

(** when every promise settles, the orchestrator resolves to one result
    per chunk, by position *)
Lemma reviewMultipleChunks_fair chunks :
  fair schedule chunks ->
  reviewMultipleChunks call schedule chunks
  = Resolves (imap (resultAt call) chunks).
Proof.
  intros Hfair. unfold reviewMultipleChunks.
  rewrite runBatches_fair.
  - rewrite concat_batchesOf. reflexivity.
  - intros k batch j Hk Hj. exact (Hfair k batch j Hk Hj).
Qed.

(** whatever the order, and whether or not every promise settles, the
    orchestrator does not reject *)
Lemma runBatches_never_rejects batches b offset results message :
  runBatches call schedule b offset batches results <> Rejects message.
Proof.
  revert b offset results.
  induction batches as [|batch rest IH]; intros b offset results;
    cbn [runBatches]; [discriminate|].
  destruct (allSettled _ (schedule b)) as [batchResults|] eqn:Ea;
    [|discriminate].
  apply allSettled_Some in Ea. subst batchResults.
  rewrite forEachResult_batch. apply IH.
Qed.

Lemma reviewMultipleChunks_never_rejects chunks message :
  reviewMultipleChunks call schedule chunks <> Rejects message.
Proof. apply runBatches_never_rejects. Qed.

End Run.

(** in the sample schedule every promise of the two batches settles *)
Ltac sample_fair :=
  let b := fresh "b" in
  let batch := fresh "batch" in
  let j := fresh "j" in
  let Hb := fresh "Hb" in
  let Hj := fresh "Hj" in
  intros b batch j Hb Hj;
  destruct b as [|[|b]]; vm_compute in Hb; try discriminate;
  injection Hb as <-; simpl in Hj;
  [ destruct j as [|[|[|j]]]; [repeat constructor .. | lia]
  | destruct j as [|j]; [repeat constructor | lia] ].

(** C5.  Whatever the order in which the calls of a batch settle, as long
    as they all settle, [reviewMultipleChunks] resolves to a sequence
    with exactly one result per input chunk, and the result at position
    [i] holds the [i]-th input chunk with the review of the call made
    for it; any other such order gives the same sequence. *)
Theorem results_follow_input_order
        (call : nat -> Chunk.t -> settled Review.t)
        (schedule : nat -> list nat) (chunks : list Chunk.t) :
  fair schedule chunks ->
  exists results,
    reviewMultipleChunks call schedule chunks = Resolves results
    /\ length results = length chunks
    /\ (forall i chunk,
          chunks !! i = Some chunk ->
          results !! i =
            Some {| Result.chunk := Some chunk;
                    Result.review := reviewOf (call i chunk) |})
    /\ (forall schedule',
          fair schedule' chunks ->
          reviewMultipleChunks call schedule' chunks = Resolves results).
Proof.
  intros Hfair. exists (imap (resultAt call) chunks).
  split; [now apply reviewMultipleChunks_fair|].
  split; [apply length_imap|]. split.
  - intros i chunk Hi. rewrite list_lookup_imap, Hi. reflexivity.
  - intros schedule' Hfair'. now apply reviewMultipleChunks_fair.
Qed.

Lemma results_follow_input_order_witness :
  exists results,
    reviewMultipleChunks sampleCall sampleSchedule sampleChunks = Resolves results
    /\ length results = 4%nat
    /\ (forall i chunk,
          sampleChunks !! i = Some chunk ->
          results !! i =
            Some {| Result.chunk := Some chunk;
                    Result.review := reviewOf (sampleCall i chunk) |})
    /\ (forall schedule',
          fair schedule' sampleChunks ->
          reviewMultipleChunks sampleCall schedule' sampleChunks
          = Resolves results).
Proof.
  apply (results_follow_input_order sampleCall sampleSchedule sampleChunks).
  sample_fair.
Defined.



(** a call that never settles blocks its batch: the orchestrator never
    settles either *)
Example hung_call_blocks :
  reviewMultipleChunks sampleCall (fun _ => [0; 2]%nat) sampleChunks
  = NeverSettles.
Proof. vm_compute. reflexivity. Qed.

End OrchestratorFacts.

(** ** The signature verifier and the endpoint *)

Module AuthFacts.
Import Express GithubAuth Webhook WebhookSpec.

(** *** The expected signature is 71 bytes long *)

Lemma length_be32 x : length (Crypto.be32 x) = 4%nat.
Proof. reflexivity. Qed.

Lemma be32_bytes x : Forall (fun b => 0 <= b < 256) (Crypto.be32 x).
Proof. unfold Crypto.be32. repeat constructor; apply Z.mod_pos_bound; lia. Qed.

Lemma length_sha256 msg : length (Crypto.sha256 msg) = 32%nat.
Proof. unfold Crypto.sha256, Crypto.digest. rewrite !length_app. reflexivity. Qed.

Lemma sha256_bytes msg : Forall (fun b => 0 <= b < 256) (Crypto.sha256 msg).
Proof.
  unfold Crypto.sha256, Crypto.digest.
  repeat (apply Forall_app; split); apply be32_bytes.
Qed.

Lemma hexDigit_ascii d :
  0 <= d < 16 -> Crypto.utf8_unit (Crypto.hexDigit d) = [Z.of_nat (nat_of_ascii (Crypto.hexDigit d))].
Proof.
  intros Hd.
  assert (Hcases : d = 0 \/ d = 1 \/ d = 2 \/ d = 3 \/ d = 4 \/ d = 5 \/ d = 6
                   \/ d = 7 \/ d = 8 \/ d = 9 \/ d = 10 \/ d = 11 \/ d = 12
                   \/ d = 13 \/ d = 14 \/ d = 15) by lia.
  repeat (destruct Hcases as [-> | Hcases]; [reflexivity|]).
  subst d. reflexivity.
Qed.

Lemma length_utf8_hex (b : list Z) :
  Forall (fun x => 0 <= x < 256) b ->
  length (Crypto.utf8 (Crypto.hex b)) = (2 * length b)%nat.
Proof.
  induction 1 as [|x b Hx _ IH]; [reflexivity|].
  cbn [Crypto.hex Crypto.utf8].
  rewrite !hexDigit_ascii.
  - cbn [length app]. rewrite IH. lia.
  - apply Z.mod_pos_bound. lia.
  - split; [apply Z.div_pos; lia | apply Z.div_lt_upper_bound; lia].
Qed.

Lemma length_expectedSignature secret body :
  length (Crypto.utf8 (expectedSignature secret body)) = 71%nat.
Proof.
  unfold expectedSignature, Crypto.hmacHex, Crypto.hmac_sha256.
  change (Crypto.utf8 ("sha256=" ++ ?s))
    with ([115; 104; 97; 50; 53; 54; 61] ++ Crypto.utf8 s)%list.
  rewrite length_app, length_utf8_hex by apply sha256_bytes.
  rewrite length_sha256. reflexivity.
Qed.

(** with a secret set and a signature present, a signature of another
    length makes [timingSafeEqual] throw, and the [catch] answers 500 *)
Lemma wrong_length_gives_500 secret req :
  absent secret = false ->
  absent (signature req) = false ->
  length (Crypto.utf8 (default "" (signature req))) <> 71%nat ->
  verifyGitHubSignature secret req = internalError "签名验证失败".
Proof.
  intros Hs Hsig Hlen. unfold verifyGitHubSignature.
  rewrite Hs, Hsig. unfold Crypto.timingSafeEqual.
  rewrite length_expectedSignature.
  apply Nat.eqb_neq in Hlen. now rewrite Hlen.
Qed.

(** *** The hash agrees with the published test vectors *)

Example sha256_abc :
  Crypto.hex (Crypto.sha256 (Crypto.utf8 "abc"))
  = "ba7816bf8f01cfea414140de5dae2223b00361a396177a9cb410ff61f20015ad".
Proof. vm_compute. reflexivity. Qed.

Example hmac_rfc4231_case2 :
  Crypto.hmacHex "Jefe" (Crypto.utf8 "what do ya want for nothing?")
  = "5bdcc146bf60754e6a042426089575c75a003f089d2739839dec58b964ec3843".
Proof. vm_compute. reflexivity. Qed.

(** a request signed with the secret passes the verifier *)
Example signed_request_passes :
  verifyGitHubSignature (Some testSecret)
    {| eventType := Some "ping";
       signature := Some (expectedSignature testSecret pingBody);
       body := pingBody |}
  = Next.
Proof. vm_compute. reflexivity. Qed.

(** a signature of the right length that is not the expected one is
    answered 401 *)
Example wrong_signature_rejected :
  verifyGitHubSignature (Some testSecret)
    {| eventType := Some "ping";
       signature := Some (expectedSignature "another secret" pingBody);
       body := pingBody |}
  = unauthorized "GitHub签名验证失败".
Proof. vm_compute. reflexivity. Qed.

(** *** What the verifier lets through *)

Lemma forallb_zip_eq (a b : list Z) :
  length a = length b ->
  forallb (fun p => fst p =? snd p) (zip a b) = true ->
  a = b.
Proof.
  revert b. induction a as [|x a IH]; intros [|y b] Hlen Hall;
    try discriminate; [reflexivity|].
  simpl in Hall. apply andb_true_iff in Hall as [Hxy Hall].
  apply Z.eqb_eq in Hxy. subst y. f_equal. apply IH; [|exact Hall].
  now injection Hlen.
Qed.

Lemma timingSafeEqual_true (a b : list Z) :
  Crypto.timingSafeEqual a b = inr true -> a = b.
Proof.
  unfold Crypto.timingSafeEqual.
  destruct (Nat.eqb_spec (length a) (length b)) as [Hlen|]; [|discriminate].
  intros [= Hall]. now apply forallb_zip_eq.
Qed.

(** with a secret set, the verifier calls [next] only on the expected
    signature *)
Lemma verifier_passes_only_expected secret req :
  absent secret = false ->
  verifyGitHubSignature secret req = Next ->
  Crypto.utf8 (default "" (signature req))
  = Crypto.utf8 (expectedSignature (default "" secret) (body req)).
Proof.
  intros Hs. unfold verifyGitHubSignature. rewrite Hs.
  destruct (absent (signature req)); [discriminate|].
  destruct (Crypto.timingSafeEqual _ _) as [e|[|]] eqn:Et; try discriminate.
  intros _. now apply timingSafeEqual_true.
Qed.

(** *** The claims *)

(** C1: the code at the failing input.  The endpoint never looks at the
    signature: whatever the signature header, missing or wrong, a ping
    request is answered 200 with the [zen] of its payload and a
    pull-request request is handed to the pull-request handler.  Yet the
    verifier, had it been mounted with a secret set, stops every request
    that does not carry the expected signature, and answers 401 to one
    that carries none. *)
Theorem unsigned_request_is_dispatched
        (JSON_parse : list Z -> string + json)
        (handlePullRequestEvent : json -> Request -> string + Response)
        (req : Request) (payload : json) :
  JSON_parse (body req) = inr payload ->
  (forall zen,
      equals (eventType req) "pull_request" = false ->
      equals (eventType req) "ping" = true ->
      getProp payload "zen" = inr zen ->
      postWebhookGithub JSON_parse handlePullRequestEvent req
      = {| status := 200;
           payload := ("message", JStr "Webhook接收成功！") :: field "zen" zen |})
  /\ (forall response,
         equals (eventType req) "pull_request" = true ->
         handlePullRequestEvent payload req = inr response ->
         postWebhookGithub JSON_parse handlePullRequestEvent req = response)
  /\ (forall secret,
         absent secret = false ->
         Crypto.utf8 (default "" (signature req))
         <> Crypto.utf8 (expectedSignature (default "" secret) (body req)) ->
         verifyGitHubSignature secret req <> Next)
  /\ (forall secret,
         absent secret = false ->
         absent (signature req) = true ->
         verifyGitHubSignature secret req = unauthorized "缺少GitHub签名").
Proof.
  intros Hparse. unfold postWebhookGithub, githubMiddlewares.
  cbn [run]. unfold githubHandler. rewrite Hparse.
  repeat split.
  - intros zen Hpr Hping Hzen. now rewrite Hpr, Hping, Hzen.
  - intros response Hpr Hresp. now rewrite Hpr, Hresp.
  - intros secret Hsecret Hne Hnext. apply Hne.
    now apply verifier_passes_only_expected.
  - intros secret Hsecret Hsig. unfold verifyGitHubSignature.
    now rewrite Hsecret, Hsig.
Qed.

Lemma unsigned_request_is_dispatched_witness :
  postWebhookGithub parsePing echoHandler unsignedPing
  = {| status := 200;
       payload := [("message", JStr "Webhook接收成功！");
                   ("zen", JStr "Design for failure.")] |}
  /\ verifyGitHubSignature (Some testSecret) unsignedPing <> Next
  /\ verifyGitHubSignature (Some testSecret) unsignedPing
     = unauthorized "缺少GitHub签名".
Proof.
  destruct (unsigned_request_is_dispatched parsePing echoHandler unsignedPing
              pingPayload eq_refl) as (Hping & _ & Hstop & Hverify).
  split; [|split].
  - exact (Hping (Some (JStr "Design for failure.")) eq_refl eq_refl eq_refl).
  - apply (Hstop (Some testSecret) eq_refl).
    intros H. vm_compute in H. discriminate H.
  - exact (Hverify (Some testSecret) eq_refl eq_refl).
Defined.

(** C2, as the claim states it, fails: with no secret configured, a
    request that carries a signature, here one that no secret signs, is
    passed on to the next handler. *)
Lemma no_secret_signature_unchecked :
  verifyGitHubSignature None (forgedRequest pingBody) = Next
  /\ signature (forgedRequest pingBody) = Some "sha256=invalid_signature".
Proof. split; reflexivity. Qed.

(** C2, amended.  When no secret is configured (the variable is unset or
    empty), the verifier passes every request on to the next handler,
    whether or not it carries a signature, and checks nothing. *)
Theorem no_secret_passes_through (secret : option string) (req : Request) :
  absent secret = true ->
  verifyGitHubSignature secret req = Next.
Proof. intros Hs. unfold verifyGitHubSignature. now rewrite Hs. Qed.

Lemma no_secret_passes_through_witness :
  absent (Some "") = true
  /\ verifyGitHubSignature (Some "") (forgedRequest pingBody) = Next.
Proof.
  split; [reflexivity|].
  apply (no_secret_passes_through (Some "") (forgedRequest pingBody)).
  reflexivity.
Defined.

(** C3: the code at the failing input.  With the secret of the test
    suite set, the signature [sha256=invalid_signature], which is 24
    bytes long where the expected one is 71, is answered 500 and not
    401, whatever the body: the comparison is attempted, throws, and the
    [catch] turns the exception into an internal error. *)
Theorem short_signature_gives_500 (body : list Z) :
  length (Crypto.utf8 invalidSignature) = 24%nat
  /\ length (Crypto.utf8 (expectedSignature testSecret body)) = 71%nat
  /\ Crypto.timingSafeEqual
       (Crypto.utf8 invalidSignature)
       (Crypto.utf8 (expectedSignature testSecret body))
     = inl "Input buffers must have the same byte length"
  /\ verifyGitHubSignature (Some testSecret) (forgedRequest body)
     = Respond {| status := 500;
                  payload := [("error", JStr "内部服务器错误");
                              ("message", JStr "签名验证失败")] |}.
Proof.
  split; [reflexivity|].
  split; [apply length_expectedSignature|].
  split.
  - unfold Crypto.timingSafeEqual. now rewrite length_expectedSignature.
  - apply wrong_length_gives_500; [reflexivity | reflexivity |].
    simpl. lia.
Qed.

End AuthFacts.

(* ===================================================================== *)
(** * Further properties *)
(* ===================================================================== *)

(** ** The diff parser: what is ignored *)

Module ParserMore.
Import GitHubService ParserSpec DiffSpec.

Lemma agree_refl st : agree st st.
Proof. unfold agree. destruct (currentHunk st); auto 10. Qed.

Lemma agree_flush s t : agree s t -> flush s = flush t.
Proof.
  intros (Hc & Hf & H). unfold flush. rewrite <- Hf, <- Hc.
  destruct H as [Hn | [Hh _]].
  - rewrite Hn. now destruct (currentHunk s), (currentHunk t).
  - now rewrite Hh.
Qed.

Lemma agree_step s t line : agree s t -> agree (step s line) (step t line).
Proof.
  intros Ha. pose proof (agree_flush s t Ha) as Hfl.
  destruct Ha as (Hc & Hf & H). unfold step.
  destruct (JS.startsWith "diff --git " line).
  { unfold agree; simpl. rewrite Hfl. auto 10. }
  destruct (JS.startsWith "--- " line).
  { rewrite <- Hf. destruct (currentFile s) as [f|] eqn:Ef.
    - destruct H as [? | H]; [discriminate|].
      unfold agree; simpl. rewrite Hc. auto 10.
    - unfold agree. rewrite Ef. auto. }
  destruct (JS.startsWith "+++ " line).
  { rewrite <- Hf. destruct (currentFile s) as [f|] eqn:Ef.
    - destruct H as [? | H]; [discriminate|].
      unfold agree; simpl. rewrite Hc. auto 10.
    - unfold agree. rewrite Ef. auto. }
  destruct (JS.startsWith "@@" line).
  { destruct (hunkMatch line).
    - unfold agree; simpl. rewrite Hfl, Hf. auto 10.
    - unfold agree; simpl. rewrite Hfl, Hf.
      split; [reflexivity|]. split; [reflexivity|].
      destruct H as [Hn | H]; [left; congruence | right; exact H]. }
  destruct H as [Hn | [Hh Hcnt]].
  - assert (Hn' : currentFile t = None) by congruence.
    assert (Hs : forall st, currentFile st = None ->
              currentFile
                match currentHunk st with
                | Some hunk =>
                    if JS.startsWith "+" line || JS.startsWith "-" line
                       || JS.startsWith " " line
                    then pushChange st hunk line else st
                | None => st
                end = None
              /\ chunks
                   match currentHunk st with
                   | Some hunk =>
                       if JS.startsWith "+" line || JS.startsWith "-" line
                          || JS.startsWith " " line
                       then pushChange st hunk line else st
                   | None => st
                   end = chunks st).
    { intros st Hst. destruct (currentHunk st); [|auto].
      destruct (_ || _); simpl; auto. }
    destruct (Hs s Hn) as [Hs1 Hs2]. destruct (Hs t Hn') as [Ht1 Ht2].
    unfold agree. rewrite Hs1, Hs2, Ht1, Ht2. auto.
  - rewrite <- Hh. destruct (currentHunk s) as [h|] eqn:Eh.
    + destruct Hcnt as [? | [Ho Hn]]; [discriminate|].
      destruct (_ || _).
      * unfold agree, pushChange; simpl. rewrite Hc, Hf, Ho, Hn. auto 10.
      * unfold agree. rewrite Eh. auto 10.
    + unfold agree. rewrite Eh. auto 10.
Qed.

Lemma agree_fold lines s t :
  agree s t -> agree (fold_left step lines s) (fold_left step lines t).
Proof.
  revert s t. induction lines as [|l lines IH]; intros s t Ha; [exact Ha|].
  simpl. apply IH, agree_step, Ha.
Qed.

(** before the first file boundary no file is open and no chunk is pushed *)
Lemma preamble_closed pre st :
  chunks st = [] -> currentFile st = None -> Forall notBoundary pre ->
  chunks (fold_left step pre st) = []
  /\ currentFile (fold_left step pre st) = None.
Proof.
  revert st. induction pre as [|l pre IH]; intros st Hc Hf Hpre; [auto|].
  inversion_clear Hpre as [|? ? Hl Hrest]. simpl.
  apply IH; [| |exact Hrest]; unfold step; unfold notBoundary in Hl;
    rewrite Hl, Hf; unfold flush; rewrite Hf;
    repeat match goal with
           | |- context [if ?b then _ else _] => destruct b
           | |- context [match ?o with Some _ => _ | None => _ end] => destruct o
           end; simpl; auto.
Qed.

Lemma preamble_ignored pre rest :
  Forall notBoundary pre -> parseLines (pre ++ rest) = parseLines rest.
Proof.
  intros Hpre. unfold parseLines. rewrite fold_left_app.
  apply agree_flush, agree_fold.
  destruct (preamble_closed pre init eq_refl eq_refl Hpre) as [Hc Hf].
  unfold agree. rewrite Hc, Hf. auto.
Qed.

(** X1.  The lines before the first line that starts with [diff --git ]
    are ignored, whatever they are: the parser returns what it returns
    for the lines from that boundary on.  A text with no such line gives
    no chunk at all. *)
Theorem text_before_first_file_ignored (diffText : string)
        (pre rest : list string) :
  JS.split_lines diffText = (pre ++ rest)%list ->
  Forall notBoundary pre ->
  parseDiffToChunks diffText = parseLines rest
  /\ (rest = [] -> parseDiffToChunks diffText = []).
Proof.
  intros Hsplit Hpre. unfold parseDiffToChunks. rewrite Hsplit.
  rewrite preamble_ignored by exact Hpre. split; [reflexivity|].
  now intros ->.
Qed.

Lemma text_before_first_file_ignored_witness :
  parseDiffToChunks
    (JS.unlines [ "From 1a2b3c Mon Sep 17 00:00:00 2001"; "Subject: fix";
                  "@@ -1 +1 @@"; "+not a change";
                  "diff --git a/f b/f"; "--- a/f"; "+++ b/f";
                  "@@ -1 +1 @@"; "-a"; "+b" ])
  = parseLines [ "diff --git a/f b/f"; "--- a/f"; "+++ b/f";
                 "@@ -1 +1 @@"; "-a"; "+b" ].
Proof.
  apply (text_before_first_file_ignored _
           [ "From 1a2b3c Mon Sep 17 00:00:00 2001"; "Subject: fix";
             "@@ -1 +1 @@"; "+not a change" ]).
  - vm_compute. reflexivity.
  - repeat constructor.
Defined.

End ParserMore.

(** ** The diff parser: what every chunk satisfies *)

Module ParserInvariants.
Import GitHubService ParserSpec DiffSpec.

(** *** The shape of a change *)

Lemma shaped_push st h line :
  shaped h (oldLineNumber st) (newLineNumber st) ->
  forall h', currentHunk (pushChange st h line) = Some h' ->
             shaped h' (oldLineNumber (pushChange st h line))
                       (newLineNumber (pushChange st h line)).
Proof.
  intros Hs h' [= <-]. unfold shaped in *. simpl.
  apply Forall_app; split; [exact Hs|].
  constructor; [|constructor]. simpl.
  destruct (lineType line); simpl; eauto.
Qed.

(** *** From the hunk to the flattened view *)

Lemma imap_flatten_fmap {B : Type} (g : FlatChange.t -> B) (g' : Change.t -> B)
      (f : nat -> Change.t -> FlatChange.t) (l : list Change.t) :
  (forall i c, g (f i c) = g' c) ->
  map g (imap f l) = map g' l.
Proof.
  revert f. induction l as [|c l IH]; intros f Hf; [reflexivity|].
  rewrite imap_cons. simpl. rewrite Hf. f_equal. apply IH.
  intros i c'. apply Hf.
Qed.

Lemma imap_flatten_filter (type : ChangeType)
      (f : nat -> Change.t -> FlatChange.t) (l : list Change.t) :
  (forall i c, FlatChange.type (f i c) = Change.type c) ->
  (forall i c, FlatChange.content (f i c) = Change.content c) ->
  map FlatChange.content
      (List.filter (fun c => ChangeType_eqb (FlatChange.type c) type) (imap f l))
  = map Change.content
        (List.filter (fun c => ChangeType_eqb (Change.type c) type) l).
Proof.
  revert f. induction l as [|c l IH]; intros f Ht Hc; [reflexivity|].
  rewrite imap_cons. simpl. rewrite Ht.
  destruct (ChangeType_eqb (Change.type c) type); simpl;
    rewrite ?Hc, IH; auto; intros i c'; [apply Ht | apply Hc | apply Ht | apply Hc].
Qed.

Lemma length_partition (l : list Change.t) :
  (length (List.filter (fun c => ChangeType_eqb (Change.type c) add) l)
   + length (List.filter (fun c => ChangeType_eqb (Change.type c) del) l)
   + length (List.filter (fun c => ChangeType_eqb (Change.type c) normal) l))%nat
  = length l.
Proof.
  induction l as [|c l IH]; [reflexivity|].
  simpl. destruct (Change.type c); simpl; lia.
Qed.

(** X2.  In every chunk the parser returns, on each side whose start
    line plus the number of changes of the chunk does not pass 2^53, the
    line numbers that are present are exactly those from the start of
    the hunk on, without a gap. *)
Theorem line_numbers_consecutive (diffText : string) (chunk : Chunk.t) :
  chunk ∈ parseDiffToChunks diffText ->
  let olds := omap FlatChange.oldLineNumber (Chunk.changes chunk) in
  let news := omap FlatChange.newLineNumber (Chunk.changes chunk) in
  let changes := Z.of_nat (length (Chunk.changes chunk)) in
  (Chunk.oldStartLine chunk + changes <= 2 ^ 53 ->
   olds = seqZ (Chunk.oldStartLine chunk) (Z.of_nat (length olds)))
  /\ (Chunk.newStartLine chunk + changes <= 2 ^ 53 ->
      news = seqZ (Chunk.newStartLine chunk) (Z.of_nat (length news))).
Proof.
  intros Hin. cbv zeta.
  destruct (ParserFacts.parse_numbering diffText chunk Hin) as [Ho Hn].
  split; intros Hr; [apply (Ho Hr) | apply (Hn Hr)].
Qed.

Lemma line_numbers_consecutive_witness :
  exists chunk,
    parseDiffToChunks
      (JS.unlines [ "diff --git a/f b/f"; "--- a/f"; "+++ b/f";
                    "@@ -7,3 +12,3 @@"; " a"; "-b"; "+c"; " d" ]) = [chunk]
    /\ omap FlatChange.oldLineNumber (Chunk.changes chunk) = seqZ 7 3
    /\ omap FlatChange.newLineNumber (Chunk.changes chunk) = seqZ 12 3.
Proof.
  eexists. split; [vm_compute; reflexivity|].
  match goal with
  | |- omap _ (Chunk.changes ?c) = _ /\ _ =>
      destruct (line_numbers_consecutive
                  (JS.unlines [ "diff --git a/f b/f"; "--- a/f"; "+++ b/f";
                                "@@ -7,3 +12,3 @@"; " a"; "-b"; "+c"; " d" ])
                  c) as [Ho Hn];
        [ vm_compute; left
        | split; [apply Ho | apply Hn]; vm_compute; discriminate ]
  end.
Defined.

(** X3.  In every chunk the parser returns, an added change carries a new
    line number and no old one, a deleted change an old line number and
    no new one, and a context change both. *)
Theorem changes_well_shaped (diffText : string) (chunk : Chunk.t)
        (c : FlatChange.t) :
  chunk ∈ parseDiffToChunks diffText ->
  c ∈ Chunk.changes chunk ->
  wellShaped (FlatChange.type c) (FlatChange.oldLineNumber c)
             (FlatChange.newLineNumber c).
Proof.
  intros Hin Hc.
  pose proof (ParserFacts.keeps_parse shaped ltac:(intros; constructor)
                shaped_push (JS.split_lines diffText)) as Hall.
  rewrite Forall_forall in Hall.
  destruct (Hall chunk Hin) as (f & h & o & n & -> & Hs).
  simpl in Hc. apply list_elem_of_lookup in Hc as [i Hi].
  rewrite list_lookup_imap in Hi.
  destruct (Hunk.changes h !! i) as [ch|] eqn:Ei; [|discriminate].
  injection Hi as <-. simpl.
  unfold shaped in Hs. rewrite Forall_forall in Hs. apply Hs.
  apply list_elem_of_lookup. eauto.
Qed.

Lemma changes_well_shaped_witness :
  wellShaped add None (Some 12).
Proof.
  apply (changes_well_shaped
           (JS.unlines [ "diff --git a/f b/f"; "@@ -7,3 +12,3 @@"; "+c" ])
           (createChunk (File.mk None None modified)
                        (Hunk.mk 7 3 12 3 [Change.mk add "c" None (Some 12)]))
           (FlatChange.mk add 12 "c" None (Some 12))).
  - vm_compute. left.
  - vm_compute. left.
Defined.

(** X4.  In every chunk the parser returns, the context summary agrees
    with the changes: the added, deleted and context lines are the
    contents of the changes of each type, in order; every change is in
    exactly one of the three; and [totalChanges] counts the changes that
    are not context. *)
Theorem context_summarises_changes (diffText : string) (chunk : Chunk.t) :
  chunk ∈ parseDiffToChunks diffText ->
  let ofType t :=
    map FlatChange.content
        (List.filter (fun c => ChangeType_eqb (FlatChange.type c) t)
                     (Chunk.changes chunk)) in
  let ctx := Chunk.context chunk in
  Context.addedLines ctx = ofType add
  /\ Context.deletedLines ctx = ofType del
  /\ Context.contextLines ctx = ofType normal
  /\ (length (Context.addedLines ctx) + length (Context.deletedLines ctx)
      + length (Context.contextLines ctx))%nat = length (Chunk.changes chunk)
  /\ Context.totalChanges ctx
     = Z.of_nat (length (Chunk.changes chunk))
       - Z.of_nat (length (Context.contextLines ctx)).
Proof.
  intros Hin. destruct (ParserFacts.parse_created _ _ Hin) as (f & h & ->).
  simpl. rewrite !imap_flatten_filter by reflexivity.
  repeat split.
  - rewrite !length_map, length_imap. apply length_partition.
  - rewrite !length_map, length_imap.
    pose proof (length_partition (Hunk.changes h)). lia.
Qed.

Lemma context_summarises_changes_witness :
  exists chunk,
    parseDiffToChunks
      (JS.unlines [ "diff --git a/f b/f"; "@@ -7,3 +12,3 @@";
                    " a"; "-b"; "+c"; " d" ]) = [chunk]
    /\ Context.addedLines (Chunk.context chunk) = ["c"]
    /\ Context.contextLines (Chunk.context chunk) = ["a"; "d"]
    /\ Context.totalChanges (Chunk.context chunk)
       = Z.of_nat (length (Chunk.changes chunk))
         - Z.of_nat (length (Context.contextLines (Chunk.context chunk))).
Proof.
  eexists. split; [vm_compute; reflexivity|].
  split; [reflexivity|]. split; [reflexivity|].
  apply (context_summarises_changes
           (JS.unlines [ "diff --git a/f b/f"; "@@ -7,3 +12,3 @@";
                         " a"; "-b"; "+c"; " d" ])).
  vm_compute. left.
Defined.

End ParserInvariants.

(** ** The diff parser: well-formed diffs *)

Module ParserRoundTrip.
Import GitHubService ParserSpec DiffSpec.

(** *** The greedy path through the pattern *)

Lemma plus_k_greedy {R : Type} cls t rest (k : string -> option R) x :
  t <> EmptyString -> allIn cls t = true -> headOut cls rest = true ->
  k rest = Some x ->
  JS.plus_k cls (t ++ rest) k = Some x.
Proof.
  intros Hne Hall Hout Hk. induction t as [|c t IH]; [congruence|].
  simpl in Hall. apply andb_true_iff in Hall as [Hc Hall].
  cbn [String.append JS.plus_k]. rewrite Hc.
  destruct t as [|c' t'].
  - cbn [String.append].
    assert (Hnone : JS.plus_k cls rest k = None).
    { destruct rest as [|r rest']; [reflexivity|].
      cbn [JS.plus_k]. simpl in Hout. apply negb_true_iff in Hout.
      now rewrite Hout. }
    now rewrite Hnone.
  - rewrite IH; [reflexivity | discriminate | exact Hall].
Qed.

Lemma isNumeral_allIn t :
  isNumeral t = true -> t <> EmptyString /\ allIn JS.isDigit t = true.
Proof.
  destruct t as [|c t]; [discriminate|]. intros H. split; [discriminate|].
  revert H. unfold isNumeral. generalize (String c t). clear.
  intros s. induction s as [|c s IH]; simpl; [reflexivity|].
  intros H. apply andb_true_iff in H as [Hc Hs]. now rewrite Hc, IH.
Qed.

Section Greedy.
Context {R : Type}.
Implicit Types (k : string -> JS.captures -> option R) (x : R).

Lemma exec_cat_lit c r s caps k x :
  JS.exec r s caps k = Some x ->
  JS.exec (JS.Cat (JS.Lit c) r) (String c s) caps k = Some x.
Proof. intros Hk. cbn [JS.exec]. now rewrite Ascii.eqb_refl. Qed.

Lemma exec_cat_space r rest caps k x :
  headOut JS.isSpace rest = true ->
  JS.exec r rest caps k = Some x ->
  JS.exec (JS.Cat (JS.Plus1 JS.isSpace) r) (String " " rest) caps k = Some x.
Proof.
  intros Hout Hk. cbn [JS.exec].
  apply (plus_k_greedy JS.isSpace " " rest); auto; discriminate.
Qed.

Lemma exec_cat_digits i r t rest caps k x :
  isNumeral t = true -> headOut JS.isDigit rest = true ->
  JS.exec r rest (<[i := Some t]> caps) k = Some x ->
  JS.exec (JS.Cat (JS.Group i (JS.Plus1 JS.isDigit)) r) (t ++ rest) caps k
  = Some x.
Proof.
  intros Ht Hout Hk. destruct (isNumeral_allIn t Ht) as [Hne Hall].
  cbn [JS.exec]. apply plus_k_greedy; auto.
  now rewrite RegexFacts.consumed_app.
Qed.

Lemma exec_cat_count i r count rest caps k x :
  numeralOpt count ->
  JS.exec r (String " " rest) (withCount i count caps) k = Some x ->
  JS.exec (JS.Cat (JS.Optional
                     (JS.Cat (JS.Lit ",") (JS.Group i (JS.Plus1 JS.isDigit))))
                  r)
          (countSuffix count ++ String " " rest) caps k
  = Some x.
Proof.
  intros Hnum Hk. destruct count as [b|]; simpl in Hk.
  - change (countSuffix (Some b) ++ String " " rest)%string
      with (String "," (b ++ String " " rest)).
    destruct (isNumeral_allIn b (Hnum b eq_refl)) as [Hne Hall].
    cbn [JS.exec]. rewrite Ascii.eqb_refl.
    rewrite (plus_k_greedy JS.isDigit b (String " " rest) _ x);
      auto.
    now rewrite RegexFacts.consumed_app.
  - cbn [countSuffix String.append JS.exec]. exact Hk.
Qed.

End Greedy.

Lemma headOut_count count rest :
  headOut JS.isDigit (countSuffix count ++ String " " rest) = true.
Proof. now destruct count. Qed.

Lemma headerLine_tail a b c d tail :
  headerLine a b c d tail = (headerLine a b c d "" ++ tail)%string.
Proof.
  unfold headerLine. cbn [String.append].
  repeat (rewrite ?ParserFacts.append_assoc; cbn [String.append]).
  reflexivity.
Qed.

(** the pattern matches the header, with its numbers as captures *)
Lemma hunkMatch_header a b c d tail :
  isNumeral a = true -> numeralOpt b -> isNumeral c = true -> numeralOpt d ->
  hunkMatch (headerLine a b c d tail) = Some (headerCaptures a b c d).
Proof.
  intros Ha Hb Hc Hd. unfold hunkMatch, JS.match_anchored.
  set (line := headerLine a b c d tail).
  unfold hunkHeader. cbn [fold_right]. unfold line at 1. unfold headerLine.
  cbn [String.append].
  do 2 apply exec_cat_lit. apply exec_cat_space; [reflexivity|].
  apply exec_cat_lit.
  apply exec_cat_digits; [exact Ha | apply headOut_count |].
  apply exec_cat_count; [exact Hb|].
  apply exec_cat_space; [reflexivity|]. apply exec_cat_lit.
  apply exec_cat_digits; [exact Hc | apply headOut_count |].
  apply exec_cat_count; [exact Hd|].
  apply exec_cat_space; [reflexivity|]. do 2 apply exec_cat_lit.
  cbn [JS.exec]. f_equal.
  unfold line. rewrite headerLine_tail, RegexFacts.consumed_app.
  unfold headerCaptures, headerLine.
  rewrite !ParserFacts.append_nil_r.
  destruct b, d; reflexivity.
Qed.

Lemma parseInt_acc_value acc s :
  allDigits s = true -> JS.parseInt_acc acc s = valueFrom acc s.
Proof.
  revert acc. induction s as [|c s IH]; intros acc Hs; [reflexivity|].
  cbn [allDigits] in Hs. apply andb_true_iff in Hs as [Hc Hs].
  cbn [JS.parseInt_acc valueFrom]. rewrite Hc. now apply IH.
Qed.

(** [parseInt] reads a numeral that does not pass 2^53 as it is *)
Lemma parseInt_exact s : exactNumeral s -> JS.parseInt s = valueOf s.
Proof.
  intros [Hs Hv]. unfold JS.parseInt, valueOf.
  rewrite parseInt_acc_value by (now destruct s).
  now apply ParserFacts.toNumber_exact.
Qed.

Lemma parseInt_count count :
  exactOpt count -> JS.parseInt (default "1" count) = countOf count.
Proof.
  intros Hc. destruct count as [b|]; [|reflexivity].
  apply parseInt_exact, Hc. reflexivity.
Qed.

Lemma exactOpt_numeral count : exactOpt count -> numeralOpt count.
Proof. intros Hc b Hb. apply (Hc b Hb). Qed.

Lemma step_header st a b c d tail :
  exactNumeral a -> exactOpt b -> exactNumeral c -> exactOpt d ->
  step st (headerLine a b c d tail)
  = {| chunks := flush st;
       currentFile := currentFile st;
       currentHunk :=
         Some {| Hunk.oldStartLine := valueOf a;
                 Hunk.oldLines := countOf b;
                 Hunk.newStartLine := valueOf c;
                 Hunk.newLines := countOf d;
                 Hunk.changes := [] |};
       oldLineNumber := valueOf a;
       newLineNumber := valueOf c |}.
Proof.
  intros Ha Hb Hc Hd. unfold step.
  rewrite hunkMatch_header
    by (try apply Ha; try apply Hc; now apply exactOpt_numeral).
  change (JS.startsWith "diff --git " (headerLine a b c d tail)) with false.
  change (JS.startsWith "--- " (headerLine a b c d tail)) with false.
  change (JS.startsWith "+++ " (headerLine a b c d tail)) with false.
  change (JS.startsWith "@@" (headerLine a b c d tail)) with true.
  cbv iota zeta.
  change (JS.group (headerCaptures a b c d) 1) with (Some a).
  change (JS.group (headerCaptures a b c d) 2) with b.
  change (JS.group (headerCaptures a b c d) 3) with (Some c).
  change (JS.group (headerCaptures a b c d) 4) with d.
  change (default "" (Some a)) with a. change (default "" (Some c)) with c.
  now rewrite (parseInt_exact a Ha), (parseInt_exact c Hc),
    (parseInt_count b Hb), (parseInt_count d Hd).
Qed.

(** X5.  A hunk header [@@ -a[,b] +c[,d] @@], with anything after it,
    whose numbers are written in decimal digits and do not pass 2^53,
    pushes the hunk that was open and opens a hunk that starts at [a]
    and [c], with the counts [b] and [d], a count that is left out being
    1; the counters restart at [a] and [c]. *)
Theorem standard_header_opens_hunk (st : state) (a c : string)
        (b d : option string) (tail : string) :
  exactNumeral a -> exactOpt b -> exactNumeral c -> exactOpt d ->
  let st' := step st (headerLine a b c d tail) in
  chunks st' = flush st
  /\ currentFile st' = currentFile st
  /\ currentHunk st'
     = Some {| Hunk.oldStartLine := valueOf a;
               Hunk.oldLines :=
                 match b with Some b' => valueOf b' | None => 1 end;
               Hunk.newStartLine := valueOf c;
               Hunk.newLines :=
                 match d with Some d' => valueOf d' | None => 1 end;
               Hunk.changes := [] |}
  /\ oldLineNumber st' = valueOf a
  /\ newLineNumber st' = valueOf c.
Proof.
  intros Ha Hb Hc Hd. cbv zeta. rewrite step_header by assumption.
  cbn [chunks currentFile currentHunk oldLineNumber newLineNumber].
  repeat split.
Qed.

Ltac exact_numeral := split; [reflexivity | vm_compute; discriminate].
Ltac exact_opt :=
  let b := fresh "b" in
  let Hb := fresh "Hb" in
  intros b Hb; first [discriminate Hb | injection Hb as <-; exact_numeral].

Lemma standard_header_opens_hunk_witness :
  currentHunk (step init "@@ -12,7 +15 @@ function f() {")
  = Some {| Hunk.oldStartLine := 12; Hunk.oldLines := 7;
            Hunk.newStartLine := 15; Hunk.newLines := 1;
            Hunk.changes := [] |}.
Proof.
  apply (standard_header_opens_hunk init "12" "15" (Some "7") None
           " function f() {");
    first [exact_numeral | exact_opt].
Defined.

(** *** A rendered diff, line by line *)









End ParserRoundTrip.

(** ** The pattern of hunk headers, on an example *)

Module RegexMore.
Import GitHubService ParserSpec.

(** X7.  When the hunk-header pattern of [parseDiffToChunks] matches a
    line, its groups 1 and 3 (the two start lines) are set, and every
    group that is set, the two optional counts included, is a non-empty
    run of decimal digits: [parseInt] never meets anything else. *)
Theorem header_groups_are_numerals (line : string) (m : JS.captures) :
  hunkMatch line = Some m ->
  (exists oldStart newStart,
      JS.group m 1 = Some oldStart /\ isNumeral oldStart = true
      /\ JS.group m 3 = Some newStart /\ isNumeral newStart = true)
  /\ (forall t, JS.group m 2 = Some t -> isNumeral t = true)
  /\ (forall t, JS.group m 4 = Some t -> isNumeral t = true).
Proof. exact (RegexFacts.hunkMatch_groups line m). Qed.

Lemma header_groups_are_numerals_witness :
  exists m,
    hunkMatch "@@ -12,7 +15 @@ function f() {" = Some m
    /\ JS.group m 1 = Some "12" /\ JS.group m 2 = Some "7"
    /\ JS.group m 3 = Some "15" /\ JS.group m 4 = None
    /\ exists oldStart newStart,
         JS.group m 1 = Some oldStart /\ isNumeral oldStart = true
         /\ JS.group m 3 = Some newStart /\ isNumeral newStart = true.
Proof.
  eexists. split; [vm_compute; reflexivity|].
  repeat (split; [reflexivity|]).
  apply (header_groups_are_numerals "@@ -12,7 +15 @@ function f() {").
  vm_compute. reflexivity.
Defined.

End RegexMore.

(** ** The orchestrator: batches and calls that hang *)

Module OrchestratorMore.
Import GitHubService DeepSeekService OrchestratorSpec OrchestratorFacts.

Lemma makeBatches_lookup {A : Type} (chunks : list A) (fuel i k : nat) :
  (length chunks - i <= fuel)%nat ->
  makeBatches fuel i chunks !! k =
    if decide (i + 3 * k < length chunks)%nat
    then Some (take 3 (drop (i + 3 * k) chunks))
    else None.
Proof.
  revert i k. induction fuel as [|fuel IH]; intros i k Hfuel; cbn [makeBatches].
  - rewrite decide_False by lia. reflexivity.
  - destruct (Nat.ltb_spec i (length chunks)) as [Hlt|Hge].
    + destruct k as [|k].
      * rewrite decide_True by lia.
        change (Some (slice i (i + 3) chunks)
                = Some (take 3 (drop (i + 3 * 0) chunks))).
        unfold slice.
        replace (i + 3 - i)%nat with 3%nat by lia.
        now replace (i + 3 * 0)%nat with i by lia.
      * change (makeBatches fuel (i + 3) chunks !! k
                = if decide (i + 3 * S k < length chunks)%nat
                  then Some (take 3 (drop (i + 3 * S k) chunks))
                  else None).
        rewrite (IH (i + 3)%nat k) by lia.
        replace (i + 3 + 3 * k)%nat with (i + 3 * S k)%nat by lia.
        reflexivity.
    + rewrite decide_False by lia. reflexivity.
Qed.

(** X8.  The batches are the consecutive groups of three chunks of the
    input: batch [k] holds the chunks from position [3k] on, at least one
    and at most three of them, and a batch of fewer than three is the
    last one.  No more than three calls are ever in flight. *)
Theorem batches_of_three (chunks : list Chunk.t) (k : nat)
        (batch : list Chunk.t) :
  batchesOf chunks !! k = Some batch ->
  batch = take 3 (drop (3 * k) chunks)
  /\ (1 <= length batch <= 3)%nat
  /\ ((length batch < 3)%nat -> batchesOf chunks !! S k = None).
Proof.
  unfold batchesOf. rewrite !makeBatches_lookup by lia.
  destruct (decide (0 + 3 * k < length chunks)%nat) as [Hlt|]; [|discriminate].
  intros [= <-]. split; [reflexivity|].
  rewrite length_take, length_drop. split; [lia|].
  intros Hshort. rewrite decide_False by lia. reflexivity.
Qed.

Lemma batches_of_three_witness :
  batchesOf sampleChunks !! 1%nat = Some [sampleChunk 40]
  /\ [sampleChunk 40] = take 3 (drop (3 * 1) sampleChunks)
  /\ batchesOf sampleChunks !! 2%nat = None.
Proof.
  split; [reflexivity|].
  destruct (batches_of_three sampleChunks 1 [sampleChunk 40] eq_refl)
    as (Hb & _ & Hlast).
  split; [exact Hb|]. apply Hlast. simpl. lia.
Defined.

Section Hung.
Variable call : nat -> Chunk.t -> settled Review.t.
Variable schedule : nat -> list nat.

Lemma runBatches_resolves_fair batches b offset results value :
  runBatches call schedule b offset batches results = Resolves value ->
  forall k batch j,
    batches !! k = Some batch -> (j < length batch)%nat ->
    j ∈ schedule (b + k).
Proof.
  revert b offset results.
  induction batches as [|batch rest IH]; intros b offset results Hrun k bk j Hk Hj.
  - discriminate.
  - cbn [runBatches] in Hrun.
    destruct (allSettled _ (schedule b)) as [batchResults|] eqn:Ea;
      [|discriminate].
    pose proof (allSettled_Some _ _ _ Ea) as ->.
    rewrite forEachResult_batch in Hrun.
    destruct k as [|k].
    + injection Hk as <-. rewrite Nat.add_0_r.
      destruct (decide (j ∈ schedule b)) as [Hin|Hnin]; [exact Hin|].
      rewrite (allSettled_pending _ (schedule b) j) in Ea;
        [discriminate | now rewrite length_imap | exact Hnin].
    + replace (b + S k)%nat with (S b + k)%nat by lia.
      exact (IH _ _ _ Hrun k bk j Hk Hj).
Qed.

End Hung.

(** X9.  When one call of one batch never settles, the orchestrator never
    settles either: it neither rejects nor returns the results of the
    calls that did settle, in that batch or in the batches before it. *)
Theorem hung_call_blocks_everything
        (call : nat -> Chunk.t -> settled Review.t)
        (schedule : nat -> list nat) (chunks : list Chunk.t)
        (b j : nat) (batch : list Chunk.t) :
  batchesOf chunks !! b = Some batch ->
  (j < length batch)%nat ->
  j ∉ schedule b ->
  reviewMultipleChunks call schedule chunks = NeverSettles.
Proof.
  intros Hb Hj Hnin.
  destruct (reviewMultipleChunks call schedule chunks) as [value|message|] eqn:E.
  - exfalso. apply Hnin.
    exact (runBatches_resolves_fair call schedule _ _ _ _ _ E b batch j Hb Hj).
  - exfalso. exact (reviewMultipleChunks_never_rejects call schedule _ _ E).
  - reflexivity.
Qed.

Lemma hung_call_blocks_everything_witness :
  reviewMultipleChunks sampleCall
    (fun b => match b with O => [0; 1; 2]%nat | _ => [] end) sampleChunks
  = NeverSettles.
Proof.
  apply (hung_call_blocks_everything _ _ sampleChunks 1 0 [sampleChunk 40]).
  - reflexivity.
  - simpl. lia.
  - apply not_elem_of_nil.
Defined.

(** X10.  Without an API key, every chunk gets the failure outcome that
    names the missing key, whatever the requests would have met: the
    outcome of no request is looked at. *)
Theorem missing_key_fails_every_chunk
        (apiKey : option string)
        (parseAIResponse : string -> Chunk.t -> Parsed.t)
        (world : nat -> HttpResult) (schedule : nat -> list nat)
        (chunks : list Chunk.t) :
  keyMissing apiKey = true ->
  fair schedule chunks ->
  exists results,
    reviewAll apiKey parseAIResponse world schedule chunks = Resolves results
    /\ length results = length chunks
    /\ forall i chunk,
         chunks !! i = Some chunk ->
         results !! i =
           Some {| Result.chunk := Some chunk;
                   Result.review := failure "DeepSeek API Key未配置" |}.
Proof.
  intros Hkey Hfair. unfold reviewAll.
  rewrite reviewMultipleChunks_fair by exact Hfair.
  eexists. split; [reflexivity|]. split; [apply length_imap|].
  intros i chunk Hi. rewrite list_lookup_imap, Hi. simpl.
  unfold resultAt, reviewCodeChunk. simpl. now rewrite Hkey.
Qed.

Lemma missing_key_fails_every_chunk_witness :
  exists results,
    reviewAll (Some "") (fun _ _ => Parsed.mk [] [] [] good)
              (fun _ => Content "fine") sampleSchedule sampleChunks
    = Resolves results
    /\ length results = 4%nat
    /\ forall i chunk,
         sampleChunks !! i = Some chunk ->
         results !! i =
           Some {| Result.chunk := Some chunk;
                   Result.review := failure "DeepSeek API Key未配置" |}.
Proof.
  apply (missing_key_fails_every_chunk (Some "")).
  - reflexivity.
  - sample_fair.
Defined.

End OrchestratorMore.

(** ** The signature verifier: every outcome *)

Module AuthMore.
Import Express GithubAuth WebhookSpec AuthSpec AuthFacts.

Lemma utf8_decode_unit (c : ascii) (rest : list Z) :
  utf8_decode (Crypto.utf8_unit c ++ rest) = String c (utf8_decode rest).
Proof.
  destruct c as [[] [] [] [] [] [] [] []]; reflexivity.
Qed.

Lemma utf8_decode_utf8 (s : string) : utf8_decode (Crypto.utf8 s) = s.
Proof.
  induction s as [|c s IH]; [reflexivity|].
  cbn [Crypto.utf8]. now rewrite utf8_decode_unit, IH.
Qed.

Lemma utf8_inj (s t : string) : Crypto.utf8 s = Crypto.utf8 t -> s = t.
Proof.
  intros H. rewrite <- (utf8_decode_utf8 s), <- (utf8_decode_utf8 t).
  now rewrite H.
Qed.

Lemma forallb_zip_refl (a : list Z) :
  forallb (fun p => fst p =? snd p) (zip a a) = true.
Proof. induction a as [|x a IH]; simpl; [reflexivity|]. now rewrite Z.eqb_refl. Qed.

Lemma timingSafeEqual_refl (a : list Z) : Crypto.timingSafeEqual a a = inr true.
Proof.
  unfold Crypto.timingSafeEqual. now rewrite Nat.eqb_refl, forallb_zip_refl.
Qed.

Lemma secret_set (secret : string) :
  secret <> EmptyString -> absent (Some secret) = false.
Proof. now destruct secret. Qed.

(** X11.  With a secret configured, the verifier lets a request through
    exactly when its signature header is ['sha256='] followed by the hex
    HMAC-SHA256 of the raw body under the secret. *)
Theorem verifier_accepts_exactly_expected (secret : string) (req : Request) :
  secret <> EmptyString ->
  verifyGitHubSignature (Some secret) req = Next
  <-> signature req = Some (expectedSignature secret (body req)).
Proof.
  intros Hs. pose proof (secret_set secret Hs) as Habs. split.
  - intros Hnext.
    pose proof (verifier_passes_only_expected _ _ Habs Hnext) as Hbytes.
    unfold verifyGitHubSignature in Hnext. rewrite Habs in Hnext.
    destruct (signature req) as [sig|]; [|discriminate Hnext].
    apply utf8_inj in Hbytes. f_equal. exact Hbytes.
  - intros Hsig. unfold verifyGitHubSignature. rewrite Habs, Hsig.
    change (absent (Some (expectedSignature secret (body req)))) with false.
    cbn [default]. rewrite timingSafeEqual_refl. reflexivity.
Qed.

Lemma verifier_accepts_exactly_expected_witness :
  verifyGitHubSignature (Some testSecret)
    {| eventType := Some "ping";
       signature := Some (expectedSignature testSecret pingBody);
       body := pingBody |}
  = Next.
Proof.
  apply (verifier_accepts_exactly_expected testSecret).
  - discriminate.
  - reflexivity.
Defined.

(** X12.  With a secret configured, a request that is not let through is
    answered as follows: 401 when it carries no signature (or an empty
    one); 500 when it carries a signature whose UTF-8 encoding is not 71
    bytes long; 401 when it carries a signature of 71 bytes that is not
    the expected one. *)
Theorem verifier_rejections (secret : string) (req : Request) :
  secret <> EmptyString ->
  (absent (signature req) = true ->
   verifyGitHubSignature (Some secret) req
   = Respond {| status := 401;
                payload := [("error", JStr "未授权");
                            ("message", JStr "缺少GitHub签名")] |})
  /\ (forall sig,
         signature req = Some sig -> sig <> EmptyString ->
         length (Crypto.utf8 sig) <> 71%nat ->
         verifyGitHubSignature (Some secret) req
         = Respond {| status := 500;
                      payload := [("error", JStr "内部服务器错误");
                                  ("message", JStr "签名验证失败")] |})
  /\ (forall sig,
         signature req = Some sig ->
         length (Crypto.utf8 sig) = 71%nat ->
         sig <> expectedSignature secret (body req) ->
         verifyGitHubSignature (Some secret) req
         = Respond {| status := 401;
                      payload := [("error", JStr "未授权");
                                  ("message", JStr "GitHub签名验证失败")] |}).
Proof.
  intros Hs. pose proof (secret_set secret Hs) as Habs. repeat split.
  - intros Hsig. unfold verifyGitHubSignature. rewrite Habs, Hsig. reflexivity.
  - intros sig Hsig Hne Hlen.
    change (verifyGitHubSignature (Some secret) req
            = internalError "签名验证失败").
    apply wrong_length_gives_500.
    + exact Habs.
    + rewrite Hsig. destruct sig; [congruence | reflexivity].
    + rewrite Hsig. exact Hlen.
  - intros sig Hsig Hlen Hne.
    assert (Hpresent : absent (Some sig) = false).
    { destruct sig; [discriminate Hlen | reflexivity]. }
    unfold verifyGitHubSignature. rewrite Habs, Hsig, Hpresent.
    change (default "" (Some sig)) with sig.
    change (default "" (Some secret)) with secret.
    destruct (Crypto.timingSafeEqual _ _) as [e|[|]] eqn:Et.
    + unfold Crypto.timingSafeEqual in Et.
      rewrite Hlen, length_expectedSignature in Et. discriminate Et.
    + apply timingSafeEqual_true in Et. apply utf8_inj in Et. contradiction.
    + reflexivity.
Qed.

Lemma verifier_rejections_witness :
  verifyGitHubSignature (Some testSecret)
    {| eventType := Some "ping";
       signature := Some (expectedSignature "another secret" pingBody);
       body := pingBody |}
  = Respond {| status := 401;
               payload := [("error", JStr "未授权");
                           ("message", JStr "GitHub签名验证失败")] |}.
Proof.
  destruct (verifier_rejections testSecret
              {| eventType := Some "ping";
                 signature := Some (expectedSignature "another secret" pingBody);
                 body := pingBody |}) as (_ & _ & H).
  - discriminate.
  - apply (H (expectedSignature "another secret" pingBody)).
    + reflexivity.
    + vm_compute. reflexivity.
    + intros Heq. vm_compute in Heq. discriminate Heq.
Defined.

End AuthMore.

(* ===================================================================== *)
(** ** The pull-request event handler *)
(* ===================================================================== *)

Module HandlerFacts.
Import Express Webhook DeepSeekService PullRequestHandler HandlerSpec.

Lemma prop_get value name :
  hasProperties value = true -> prop value name = inr (get value name).
Proof.
  unfold get. cbn [deref].
  destruct value as [[]|]; try discriminate; intros _; reflexivity.
Qed.

Lemma prop_throws value name :
  hasProperties value = false -> exists message, prop value name = inl message.
Proof.
  destruct value as [[]|]; try discriminate; intros _; eexists; reflexivity.
Qed.

Lemma deref_cons value name rest :
  deref value (name :: rest) = deref (get value name) rest.
Proof.
  unfold get. cbn [deref]. destruct (prop value name); [|reflexivity].
  destruct rest; [reflexivity|]. cbn [deref prop]. reflexivity.
Qed.

Lemma complete_unfold payload :
  complete payload
  = let P := Some payload in
    let pr := get P "pull_request" in
    let repository := get P "repository" in
    hasProperties pr
    && (hasProperties (get pr "head")
    && (hasProperties (get pr "base")
    && (hasProperties (get (get pr "head") "repo")
    && (hasProperties (get (get pr "base") "repo")
    && (hasProperties (get pr "user")
    && (hasProperties repository
    && (hasProperties (get repository "owner")
    && (hasProperties (get P "sender") && true)))))))).
Proof.
  unfold complete, dereferenced. cbn [forallb].
  rewrite !deref_cons. reflexivity.
Qed.

Lemma read_ok {A : Type} value name (rest : option json -> string + A) r :
  hasProperties value = true ->
  rest (get value name) = r ->
  andThen (prop value name) rest = r.
Proof. intros H <-. now rewrite (prop_get value name H). Qed.

Lemma read_throws {A : Type} value name (rest : option json -> string + A) :
  hasProperties value = false ->
  exists message, andThen (prop value name) rest = inl message.
Proof.
  intros H. destruct (prop_throws value name H) as [message Hm].
  exists message. now rewrite Hm.
Qed.

Lemma read_then_throws {A : Type} value name
      (rest : option json -> string + A) :
  hasProperties value = true ->
  (exists message, rest (get value name) = inl message) ->
  exists message, andThen (prop value name) rest = inl message.
Proof. intros H [message Hm]. exists message. now apply read_ok. Qed.

Ltac reads :=
  repeat (apply read_ok; [assumption | cbv beta]).

Ltac throws :=
  repeat first
    [ apply read_throws; assumption
    | apply read_then_throws; [assumption | cbv beta] ].

Lemma extraction_object (fields : list (string * json)) :
  let payload := JObj fields in
  (complete payload = true ->
   extractPullRequestInfo payload = inr (fieldsOf payload))
  /\ (complete payload = false ->
      exists message, extractPullRequestInfo payload = inl message).
Proof.
  intros payload. rewrite complete_unfold. cbv zeta.
  unfold extractPullRequestInfo, fieldsOf, payload. cbv zeta.
  set (P := Some (JObj fields)).
  change (getProp (JObj fields) "pull_request") with (prop P "pull_request").
  change (getProp (JObj fields) "repository") with (prop P "repository").
  change (getProp (JObj fields) "sender") with (prop P "sender").
  assert (HP : hasProperties P = true) by reflexivity.
  clearbody P.
  destruct (hasProperties (get P "pull_request")) eqn:H1;
    [| split; [intros Hc; discriminate Hc | intros _; throws] ].
  destruct (hasProperties (get (get P "pull_request") "head")) eqn:H2;
    [| split; [intros Hc; discriminate Hc | intros _; throws] ].
  destruct (hasProperties (get (get P "pull_request") "base")) eqn:H3;
    [| split; [intros Hc; discriminate Hc | intros _; throws] ].
  destruct (hasProperties (get (get (get P "pull_request") "head") "repo"))
    eqn:H4; [| split; [intros Hc; discriminate Hc | intros _; throws] ].
  destruct (hasProperties (get (get (get P "pull_request") "base") "repo"))
    eqn:H5; [| split; [intros Hc; discriminate Hc | intros _; throws] ].
  destruct (hasProperties (get (get P "pull_request") "user")) eqn:H6;
    [| split; [intros Hc; discriminate Hc | intros _; throws] ].
  destruct (hasProperties (get P "repository")) eqn:H7;
    [| split; [intros Hc; discriminate Hc | intros _; throws] ].
  destruct (hasProperties (get (get P "repository") "owner")) eqn:H8;
    [| split; [intros Hc; discriminate Hc | intros _; throws] ].
  destruct (hasProperties (get P "sender")) eqn:H9;
    [| split; [intros Hc; discriminate Hc | intros _; throws] ].
  split; [intros _; reads; reflexivity | intros Hc; discriminate Hc].
Qed.

(** X13.  [extractPullRequestInfo] returns a result exactly for the
    payloads in which the nine values it reads a property from are
    neither [null] nor missing: [pull_request], its [head], [base],
    [head.repo], [base.repo] and [user], [repository], its [owner], and
    [sender].  The result then holds the properties of the payload as
    they are, a missing one as [undefined]; for every other payload the
    function throws. *)
Theorem extraction_needs_nine_objects (payload : json) :
  (complete payload = true ->
   extractPullRequestInfo payload = inr (fieldsOf payload))
  /\ (complete payload = false ->
      exists message, extractPullRequestInfo payload = inl message).
Proof.
  destruct payload as [| b | n | s | items | fields].
  1-5: split; [intros H; discriminate H | intros _; eexists; reflexivity].
  apply extraction_object.
Qed.

Lemma extraction_needs_nine_objects_witness :
  extractPullRequestInfo (samplePayload "opened" forkRepo)
  = inr (fieldsOf (samplePayload "opened" forkRepo))
  /\ extractPullRequestInfo (samplePayload "opened" JNull)
     = inl "Cannot read properties of null (reading 'full_name')".
Proof.
  split.
  - apply (proj1 (extraction_needs_nine_objects _)). reflexivity.
  - destruct (proj2 (extraction_needs_nine_objects (samplePayload "opened" JNull)))
      as [message H]; [reflexivity|].
    rewrite H. f_equal. vm_compute in H. congruence.
Defined.

(** *** Template literals *)

Lemma json_nested_ind (P : json -> Prop) :
  P JNull -> (forall b, P (JBool b)) -> (forall n, P (JNum n)) ->
  (forall t, P (JStr t)) ->
  (forall items, Forall P items -> P (JArr items)) ->
  (forall fields, P (JObj fields)) ->
  forall value, P value.
Proof.
  intros Hnull Hbool Hnum Hstr Harr Hobj. fix IH 1. intros [| b | n | t | items | fields].
  - exact Hnull.
  - apply Hbool.
  - apply Hnum.
  - apply Hstr.
  - apply Harr. induction items as [|item items IHitems]; constructor.
    + apply IH.
    + exact IHitems.
  - apply Hobj.
Qed.

Section Printing.
Variable numberToString : Z -> string.

(** a value that can be printed is, and any other gives the [TypeError] *)
Lemma template_printable (value : json) :
  if printableValue value
  then exists text, template numberToString value = inr text
  else template numberToString value = inl notPrimitive.
Proof.
  induction value as [| b | n | t | items IH | fields] using json_nested_ind;
    try (cbn; eexists; reflexivity).
  - destruct b; cbn; eexists; reflexivity.
  - cbn [printableValue template].
    induction IH as [|item items Hitem _ IHitems]; [eexists; reflexivity|].
    assert (Hfirst :
      if printableValue item
      then exists text,
             match item with
             | JNull => inr ""
             | _ => template numberToString item
             end = inr text
      else match item with
           | JNull => inr ""
           | _ => template numberToString item
           end = inl notPrimitive).
    { destruct item; try exact Hitem. eexists; reflexivity. }
    clear Hitem.
    destruct (printableValue item); cbn [andb].
    + destruct Hfirst as [first ->]. cbn [andThen].
      destruct items as [|item' items']; [eexists; reflexivity|].
      destruct (_ && _).
      * destruct IHitems as [others ->]. eexists; reflexivity.
      * now rewrite IHitems.
    + now rewrite Hfirst.
  - cbn [printableValue template]. unfold hasOwn.
    destruct (existsb _ fields); cbn; [reflexivity | eexists; reflexivity].
Qed.

Lemma templateOf_printable (value : option json) :
  if printable value
  then exists text, templateOf numberToString value = inr text
  else templateOf numberToString value = inl notPrimitive.
Proof.
  destruct value as [v|]; [apply template_printable|].
  cbn. eexists; reflexivity.
Qed.

Lemma logs_printable (values : list (option json)) :
  logs numberToString values
  = if forallb printable values then inr tt else inl notPrimitive.
Proof.
  induction values as [|value values IH]; [reflexivity|].
  cbn [logs forallb]. pose proof (templateOf_printable value) as H.
  destruct (printable value); cbn [andb].
  - destruct H as [text ->]. exact IH.
  - now rewrite H.
Qed.

Lemma printing_printable {A : Type} values (rest : async A) :
  printing numberToString values rest
  = if forallb printable values then rest else Rejects notPrimitive.
Proof.
  unfold printing. rewrite logs_printable.
  now destruct (forallb printable values).
Qed.

(** *** The event handler *)

Lemma printableAt_announced payload :
  printableAt payload announced
  = forallb printable
      [ PrInfo.number (fieldsOf payload); PrInfo.title (fieldsOf payload);
        Account.login (PrInfo.author (fieldsOf payload)) ].
Proof.
  unfold printableAt, announced. cbn [forallb]. now rewrite !deref_cons.
Qed.

Lemma printableAt_logged payload :
  printableAt payload logged
  = printableAt payload announced
    && forallb printable
         [ PrInfo.sourceBranch (fieldsOf payload);
           PrInfo.targetBranch (fieldsOf payload);
           PrInfo.additions (fieldsOf payload);
           PrInfo.deletions (fieldsOf payload);
           PrInfo.changedFiles (fieldsOf payload) ].
Proof.
  unfold printableAt, logged. rewrite forallb_app. f_equal.
  cbn [forallb]. now rewrite !deref_cons.
Qed.

Lemma announce_printable {A : Type} payload (rest : async A) :
  announce numberToString (fieldsOf payload) rest
  = if printableAt payload announced then rest else Rejects notPrimitive.
Proof.
  unfold announce. rewrite !printing_printable, printableAt_announced.
  cbn [forallb].
  destruct (printable (PrInfo.number (fieldsOf payload))),
    (printable (PrInfo.title (fieldsOf payload))),
    (printable (Account.login (PrInfo.author (fieldsOf payload))));
    reflexivity.
Qed.

Lemma review_settles payload (http : async string) :
  printable (PrInfo.number (fieldsOf payload)) = true ->
  http <> NeverSettles ->
  performCodeReview numberToString (fieldsOf payload) http = Resolves tt.
Proof.
  intros Hn Hhttp. unfold performCodeReview, getPullRequestDiffFromUrl.
  rewrite printing_printable. cbn [forallb]. rewrite Hn. cbn [andb].
  destruct (templateOf numberToString _); [reflexivity|].
  destruct http; [reflexivity | reflexivity | congruence].
Qed.

Lemma review_hangs payload :
  printable (PrInfo.number (fieldsOf payload)) = true ->
  printable (PrInfo.diffUrl (fieldsOf payload)) = true ->
  performCodeReview numberToString (fieldsOf payload) NeverSettles
  = NeverSettles.
Proof.
  intros Hn Hurl. unfold performCodeReview, getPullRequestDiffFromUrl.
  rewrite printing_printable. cbn [forallb]. rewrite Hn. cbn [andb].
  pose proof (templateOf_printable (PrInfo.diffUrl (fieldsOf payload))) as H.
  rewrite Hurl in H. destruct H as [text ->]. reflexivity.
Qed.

(** the handler up to the dispatch on the action *)
Lemma event_dispatch now http payload action :
  complete payload = true ->
  get (Some payload) "action" = Some (JStr action) ->
  handlePullRequestEvent numberToString now http payload
  = let prInfo := fieldsOf payload in
    let handled :=
      if String.eqb action "opened" then
        handlePullRequestOpened numberToString prInfo http
      else if String.eqb action "closed" then
        handlePullRequestClosed numberToString prInfo
      else if String.eqb action "reopened" then
        handlePullRequestReopened numberToString prInfo
      else if String.eqb action "synchronize" then
        handlePullRequestSynchronized numberToString prInfo http
      else if String.eqb action "ready_for_review" then
        handlePullRequestReadyForReview numberToString prInfo http
      else Resolves tt in
    match handled with
    | Resolves _ => Resolves (processed now action prInfo)
    | Rejects message => Rejects message
    | NeverSettles => NeverSettles
    end.
Proof.
  intros Hc Haction.
  pose proof (proj1 (extraction_needs_nine_objects payload) Hc) as Hex.
  unfold handlePullRequestEvent. rewrite Hex.
  assert (Hget : getProp payload "action" = inr (Some (JStr action))).
  { rewrite <- Haction. destruct payload; try discriminate Hc; reflexivity. }
  rewrite Hget. destruct payload; try discriminate Hc; reflexivity.
Qed.

Lemma number_of_announced payload :
  printableAt payload announced = true ->
  printable (PrInfo.number (fieldsOf payload)) = true.
Proof.
  rewrite printableAt_announced. cbn [forallb].
  intros H. apply andb_true_iff in H as [H _]. exact H.
Qed.

Lemma event_of_loggable now http payload action :
  complete payload = true ->
  get (Some payload) "action" = Some (JStr action) ->
  printableAt payload logged = true ->
  http <> NeverSettles ->
  handlePullRequestEvent numberToString now http payload
  = Resolves (processed now action (fieldsOf payload)).
Proof.
  intros Hc Haction Hlog Hhttp.
  rewrite (event_dispatch now http payload action Hc Haction). cbv zeta.
  rewrite printableAt_logged in Hlog. apply andb_true_iff in Hlog as [Ha Hl].
  pose proof (number_of_announced payload Ha) as Hn.
  unfold handlePullRequestOpened, handlePullRequestClosed,
    handlePullRequestReopened, handlePullRequestSynchronized,
    handlePullRequestReadyForReview.
  rewrite !announce_printable, Ha, !printing_printable.
  cbn [forallb] in Hl. cbn [forallb].
  apply andb_true_iff in Hl as [H1 Hl]. apply andb_true_iff in Hl as [H2 Hl].
  apply andb_true_iff in Hl as [H3 Hl]. apply andb_true_iff in Hl as [H4 Hl].
  apply andb_true_iff in Hl as [H5 _].
  rewrite H1, H2, H3, H4, H5. cbn [andb].
  rewrite (review_settles payload http Hn Hhttp).
  repeat match goal with |- context [if ?b then _ else _] => destruct b end;
    reflexivity.
Qed.

Lemma event_of_unannounced now http payload action :
  complete payload = true ->
  get (Some payload) "action" = Some (JStr action) ->
  handledAction action = true ->
  printableAt payload announced = false ->
  handlePullRequestEvent numberToString now http payload
  = Rejects notPrimitive.
Proof.
  intros Hc Haction Hhandled Ha.
  rewrite (event_dispatch now http payload action Hc Haction). cbv zeta.
  unfold handlePullRequestOpened, handlePullRequestClosed,
    handlePullRequestReopened, handlePullRequestSynchronized,
    handlePullRequestReadyForReview.
  rewrite !announce_printable, Ha. unfold handledAction in Hhandled.
  repeat match goal with
         | |- context [if String.eqb action ?l then _ else _] =>
             destruct (String.eqb action l)
         end; try reflexivity.
  discriminate Hhandled.
Qed.

Lemma event_of_incomplete now http payload action :
  complete payload = false ->
  get (Some payload) "action" = Some (JStr action) ->
  exists message,
    handlePullRequestEvent numberToString now http payload = Rejects message.
Proof.
  intros Hc Haction.
  destruct (proj2 (extraction_needs_nine_objects payload) Hc) as [m Hm].
  unfold handlePullRequestEvent. rewrite Hm.
  destruct payload; try discriminate Haction.
  all: change (getProp ?p "action") with (prop (Some p) "action");
    rewrite prop_get by reflexivity; rewrite Haction;
    eexists; reflexivity.
Qed.

End Printing.

Lemma processed_entries now action payload :
  processed now action (fieldsOf payload)
  = {| status := 200;
       payload :=
         [("message", JStr ("Pull Request " ++ action ++ "事件处理成功"));
          ("pullRequest",
           JObj (entry "number"
                       (get (get (Some payload) "pull_request") "number")
                 ++ entry "title"
                          (get (get (Some payload) "pull_request") "title")
                 ++ entry "state"
                          (get (get (Some payload) "pull_request") "state"))%list);
          ("processed", JBool true);
          ("timestamp", JStr now)] |}.
Proof. reflexivity. Qed.

(** X14.  A [pull_request] event whose body parses, whose action is a
    string and whose diff request settled is answered as follows.  When
    the payload has the nine objects and the values the handlers log can
    be printed: 200 with [processed: true], a message that names the
    action, and the number, title and state of the pull request,
    whatever the action (also when no handler exists for it) and
    whatever became of the diff request.  When the payload lacks one of
    the nine objects: 500.  When the action has a handler and the
    number, the title or the login of the author cannot be printed: 500,
    with the message of the [TypeError]. *)
Theorem pull_request_event_answered
        (numberToString : Z -> string)
        (JSON_parse : list Z -> string + json)
        (handler : json -> Request -> string + Response)
        (now : string) (http : async string)
        (req : Request) (payload : json) (action : string) :
  JSON_parse (body req) = inr payload ->
  eventType req = Some "pull_request" ->
  get (Some payload) "action" = Some (JStr action) ->
  http <> NeverSettles ->
  settlesTo (handlePullRequestEvent numberToString now http payload)
            (handler payload req) ->
  let pull_request := get (Some payload) "pull_request" in
  (complete payload = true ->
   printableAt payload logged = true ->
   postWebhookGithub JSON_parse handler req
   = {| status := 200;
        payload :=
          [("message", JStr ("Pull Request " ++ action ++ "事件处理成功"));
           ("pullRequest",
            JObj (entry "number" (get pull_request "number")
                  ++ entry "title" (get pull_request "title")
                  ++ entry "state" (get pull_request "state"))%list);
           ("processed", JBool true);
           ("timestamp", JStr now)] |})
  /\ (complete payload = false ->
      exists message,
        postWebhookGithub JSON_parse handler req
        = {| status := 500;
             payload := [("error", JStr "内部服务器错误");
                         ("message", JStr message)] |})
  /\ (complete payload = true ->
      handledAction action = true ->
      printableAt payload announced = false ->
      postWebhookGithub JSON_parse handler req
      = {| status := 500;
           payload :=
             [("error", JStr "内部服务器错误");
              ("message",
               JStr "Cannot convert object to primitive value")] |}).
Proof.
  intros Hparse Hevent Haction Hhttp Hsettles. cbv zeta.
  unfold postWebhookGithub, githubMiddlewares, run, githubHandler.
  rewrite Hparse, Hevent.
  change (equals (Some "pull_request") "pull_request") with true.
  cbv iota. split; [|split].
  - intros Hc Hlog.
    rewrite (event_of_loggable numberToString now http payload action
               Hc Haction Hlog Hhttp) in Hsettles.
    destruct (handler payload req) as [m|r]; [destruct Hsettles|].
    cbn in Hsettles. subst r. apply processed_entries.
  - intros Hc.
    destruct (event_of_incomplete numberToString now http payload action
                Hc Haction) as [m Hm].
    rewrite Hm in Hsettles.
    destruct (handler payload req) as [m'|r]; [|destruct Hsettles].
    cbn in Hsettles. subst m'. now exists m.
  - intros Hc Hhandled Ha.
    rewrite (event_of_unannounced numberToString now http payload action
               Hc Haction Hhandled Ha) in Hsettles.
    destruct (handler payload req) as [m'|r]; [|destruct Hsettles].
    cbn in Hsettles. subst m'. reflexivity.
Qed.

Lemma pull_request_event_answered_witness :
  postWebhookGithub parseLabeled
    (awaited "2024-01-01T00:00:00.000Z" (Rejects "Network Error"))
    labeledRequest
  = {| status := 200;
       payload :=
         [("message", JStr "Pull Request labeled事件处理成功");
          ("pullRequest",
           JObj [("number", JNum 7); ("title", JStr "Fix parser");
                 ("state", JStr "open")]);
          ("processed", JBool true);
          ("timestamp", JStr "2024-01-01T00:00:00.000Z")] |}.
Proof.
  apply (pull_request_event_answered decimal parseLabeled
           (awaited "2024-01-01T00:00:00.000Z" (Rejects "Network Error"))
           "2024-01-01T00:00:00.000Z" (Rejects "Network Error")
           labeledRequest (samplePayload "labeled" forkRepo) "labeled").
  - reflexivity.
  - reflexivity.
  - reflexivity.
  - discriminate.
  - vm_compute. reflexivity.
  - reflexivity.
  - reflexivity.
Defined.

(** a title that cannot be printed: the handler of [closed] throws *)
Example unprintable_title_rejected :
  handlePullRequestEvent decimal "2024-01-01T00:00:00.000Z"
    (Rejects "Network Error") (unprintableTitle "closed")
  = Rejects "Cannot convert object to primitive value".
Proof. vm_compute. reflexivity. Qed.

(** X15.  In the version of the handler that fetches the diff, the
    request sets no timeout.  For a payload that has the nine objects, a
    string as action and values the handlers can print, the URL of the
    diff included: while the request stays unanswered, an event whose
    action is [opened], [synchronize] or [ready_for_review] gets no
    response at all; an event with any other action is answered 200. *)
Theorem unanswered_fetch_blocks_response
        (numberToString : Z -> string)
        (now : string) (payload : json) (action : string) :
  complete payload = true ->
  get (Some payload) "action" = Some (JStr action) ->
  printableAt payload logged = true ->
  printable (deref (Some payload) ["pull_request"; "diff_url"]) = true ->
  let pull_request := get (Some payload) "pull_request" in
  handlePullRequestEvent numberToString now NeverSettles payload
  = if reviewedAction action then NeverSettles
    else Resolves
           {| status := 200;
              payload :=
                [("message",
                  JStr ("Pull Request " ++ action ++ "事件处理成功"));
                 ("pullRequest",
                  JObj (entry "number" (get pull_request "number")
                        ++ entry "title" (get pull_request "title")
                        ++ entry "state" (get pull_request "state"))%list);
                 ("processed", JBool true);
                 ("timestamp", JStr now)] |}.
Proof.
  intros Hc Haction Hlog Hurl. cbv zeta.
  rewrite <- processed_entries.
  rewrite (event_dispatch numberToString now NeverSettles payload action
             Hc Haction). cbv zeta.
  rewrite printableAt_logged in Hlog. apply andb_true_iff in Hlog as [Ha Hl].
  pose proof (number_of_announced payload Ha) as Hn.
  rewrite !deref_cons in Hurl. cbn [deref] in Hurl.
  unfold handlePullRequestOpened, handlePullRequestClosed,
    handlePullRequestReopened, handlePullRequestSynchronized,
    handlePullRequestReadyForReview.
  rewrite !announce_printable, Ha, !printing_printable.
  cbn [forallb] in Hl. cbn [forallb].
  apply andb_true_iff in Hl as [H1 Hl]. apply andb_true_iff in Hl as [H2 Hl].
  apply andb_true_iff in Hl as [H3 Hl]. apply andb_true_iff in Hl as [H4 Hl].
  apply andb_true_iff in Hl as [H5 _].
  rewrite H1, H2, H3, H4, H5. cbn [andb].
  rewrite (review_hangs numberToString payload Hn Hurl).
  unfold reviewedAction.
  destruct (String.eqb_spec action "opened") as [->|_]; [reflexivity|].
  destruct (String.eqb_spec action "closed") as [->|_]; [reflexivity|].
  destruct (String.eqb_spec action "reopened") as [->|_]; [reflexivity|].
  destruct (String.eqb_spec action "synchronize") as [->|_]; [reflexivity|].
  destruct (String.eqb_spec action "ready_for_review") as [->|_];
    reflexivity.
Qed.

Lemma unanswered_fetch_blocks_response_witness :
  handlePullRequestEvent decimal "2024-01-01T00:00:00.000Z" NeverSettles
    (samplePayload "synchronize" forkRepo)
  = NeverSettles
  /\ handlePullRequestEvent decimal "2024-01-01T00:00:00.000Z" NeverSettles
       (samplePayload "closed" forkRepo)
     = Resolves
         {| status := 200;
            payload :=
              [("message", JStr "Pull Request closed事件处理成功");
               ("pullRequest",
                JObj [("number", JNum 7); ("title", JStr "Fix parser");
                      ("state", JStr "open")]);
               ("processed", JBool true);
               ("timestamp", JStr "2024-01-01T00:00:00.000Z")] |}.
Proof.
  split.
  - apply (unanswered_fetch_blocks_response decimal
             "2024-01-01T00:00:00.000Z"
             (samplePayload "synchronize" forkRepo) "synchronize");
      reflexivity.
  - apply (unanswered_fetch_blocks_response decimal
             "2024-01-01T00:00:00.000Z"
             (samplePayload "closed" forkRepo) "closed");
      reflexivity.
Defined.

End HandlerFacts.

(* ===================================================================== *)
(** ** Merging the reviews into the chunks *)
(* ===================================================================== *)

Module ReviewResultsFacts.
Import GitHubService DeepSeekService OrchestratorSpec.
Import ReviewResults ReviewResultsSpec.

Lemma samePath_eq a b : samePath a b = true <-> a = b.
Proof.
  destruct a as [x|], b as [y|]; cbn [samePath]; try (split; congruence).
  rewrite String.eqb_eq. split; congruence.
Qed.

Lemma sameKey_eq (c chunk : Chunk.t) :
  samePath (Chunk.newFilePath c) (Chunk.newFilePath chunk)
  && (Chunk.newStartLine c =? Chunk.newStartLine chunk) = true
  <-> hunkKey c = hunkKey chunk.
Proof.
  unfold hunkKey. rewrite andb_true_iff, samePath_eq, Z.eqb_eq.
  split; [intros [-> ->]; reflexivity | intros [= -> ->]; split; reflexivity].
Qed.

Lemma firstWithKey_spec chunk chunks i :
  firstWithKey chunk chunks = Some i ->
  (exists first, chunks !! i = Some first /\ hunkKey first = hunkKey chunk)
  /\ (forall k c, (k < i)%nat -> chunks !! k = Some c ->
                  hunkKey c <> hunkKey chunk).
Proof.
  revert i. induction chunks as [|c chunks IH]; intros i; [discriminate|].
  cbn [firstWithKey].
  destruct (samePath _ _ && _) eqn:Hkey.
  - intros [= <-]. split; [|intros k c' Hk; lia].
    exists c. split; [reflexivity|]. now apply sameKey_eq.
  - destruct (firstWithKey chunk chunks) as [i'|]; [|discriminate].
    intros [= <-]. destruct (IH i' eq_refl) as [Hfirst Hmin]. split.
    + exact Hfirst.
    + intros [|k] c' Hk Hc'.
      * injection Hc' as <-. intros Heq. apply sameKey_eq in Heq. congruence.
      * apply (Hmin k c'); [lia | exact Hc'].
Qed.

Lemma firstWithKey_member chunk chunks j :
  chunks !! j = Some chunk ->
  exists i, firstWithKey chunk chunks = Some i /\ (i <= j)%nat.
Proof.
  revert j. induction chunks as [|c chunks IH]; intros j; [discriminate|].
  cbn [firstWithKey]. destruct (samePath _ _ && _) eqn:Hkey.
  - intros _. exists 0%nat. split; [reflexivity | lia].
  - destruct j as [|j].
    + intros [= ->].
      assert (Hrefl : hunkKey chunk = hunkKey chunk) by reflexivity.
      apply sameKey_eq in Hrefl. congruence.
    + intros Hj. destruct (IH j Hj) as (i & -> & Hle).
      exists (S i). split; [reflexivity | lia].
Qed.

Lemma find_imap call chunk chunks n :
  find chunk (imap (fun j c => resultAt call (n + j) c) chunks)
  = inr (match firstWithKey chunk chunks with
         | Some i => resultAt call (n + i) <$> chunks !! i
         | None => None
         end).
Proof.
  revert n. induction chunks as [|c chunks IH]; intros n; [reflexivity|].
  cbn [imap find firstWithKey]. unfold sameHunk at 1. cbn [resultAt Result.chunk].
  destruct (samePath _ _ && _) eqn:Hkey.
  - reflexivity.
  - rewrite (imap_ext _ (fun j c => resultAt call (S n + j) c));
      [|intros j c' _; cbn; f_equal; lia].
    rewrite IH. destruct (firstWithKey chunk chunks) as [i|]; [|reflexivity].
    cbn. replace (n + S i)%nat with (S (n + i)) by lia. reflexivity.
Qed.

Lemma find_results call chunk chunks :
  find chunk (imap (resultAt call) chunks) = inr (found call chunks chunk).
Proof. exact (find_imap call chunk chunks 0). Qed.

Lemma process_results call all chunks :
  processReviewResults chunks (imap (resultAt call) all)
  = inr (map (fun chunk => merge chunk (found call all chunk)) chunks).
Proof.
  induction chunks as [|chunk chunks IH]; [reflexivity|].
  cbn [processReviewResults map]. now rewrite find_results, IH.
Qed.

Lemma found_first call chunks j chunk :
  chunks !! j = Some chunk ->
  exists i first,
    (i <= j)%nat
    /\ chunks !! i = Some first
    /\ hunkKey first = hunkKey chunk
    /\ (forall k c, (k < i)%nat -> chunks !! k = Some c ->
                    hunkKey c <> hunkKey chunk)
    /\ found call chunks chunk = Some (resultAt call i first).
Proof.
  intros Hj. destruct (firstWithKey_member chunk chunks j Hj) as (i & Hi & Hle).
  destruct (firstWithKey_spec chunk chunks i Hi) as [(first & Hfirst & Hkey) Hmin].
  exists i, first. repeat split; try assumption.
  unfold found. now rewrite Hi, Hfirst.
Qed.

(** X16.  When the results of [reviewMultipleChunks] for some chunks are
    merged into these chunks, every chunk gets the review made for the
    first chunk that has its [newFilePath] and [newStartLine], which need
    not be its own.  When that review succeeded the chunk is returned
    with status [reviewed], the comments of that review, its rating
    ([good] when it has none), its suggestions and its risks; otherwise
    with status [failed], no comment and the rating [unknown].  The other
    properties of the chunk are kept. *)
Theorem chunk_gets_review_of_first_same_hunk
        (call : nat -> Chunk.t -> settled Review.t)
        (schedule : nat -> list nat) (chunks : list Chunk.t) :
  fair schedule chunks ->
  exists results reviewedChunks,
    reviewMultipleChunks call schedule chunks = Resolves results
    /\ processReviewResults chunks results = inr reviewedChunks
    /\ length reviewedChunks = length chunks
    /\ forall j chunk,
         chunks !! j = Some chunk ->
         exists i first,
           (i <= j)%nat
           /\ chunks !! i = Some first
           /\ hunkKey first = hunkKey chunk
           /\ (forall k c, (k < i)%nat -> chunks !! k = Some c ->
                           hunkKey c <> hunkKey chunk)
           /\ let review := reviewOf (call i first) in
              reviewedChunks !! j
              = Some (if Review.success review then
                      {| ReviewedChunk.chunk :=
                           {| Chunk.oldFilePath := Chunk.oldFilePath chunk;
                              Chunk.newFilePath := Chunk.newFilePath chunk;
                              Chunk.fileStatus := Chunk.fileStatus chunk;
                              Chunk.oldStartLine := Chunk.oldStartLine chunk;
                              Chunk.oldLines := Chunk.oldLines chunk;
                              Chunk.newStartLine := Chunk.newStartLine chunk;
                              Chunk.newLines := Chunk.newLines chunk;
                              Chunk.changes := Chunk.changes chunk;
                              Chunk.context := Chunk.context chunk;
                              Chunk.aiComments := Review.aiComments review;
                              Chunk.reviewStatus := reviewed |};
                         ReviewedChunk.overallRating :=
                           rated (match Review.overallRating review with
                                  | Some rating => rating
                                  | None => good
                                  end);
                         ReviewedChunk.suggestions :=
                           Some (match Review.suggestions review with
                                 | Some suggestions => suggestions
                                 | None => []
                                 end);
                         ReviewedChunk.risks :=
                           Some (match Review.risks review with
                                 | Some risks => risks
                                 | None => []
                                 end) |}
                    else
                      {| ReviewedChunk.chunk :=
                           {| Chunk.oldFilePath := Chunk.oldFilePath chunk;
                              Chunk.newFilePath := Chunk.newFilePath chunk;
                              Chunk.fileStatus := Chunk.fileStatus chunk;
                              Chunk.oldStartLine := Chunk.oldStartLine chunk;
                              Chunk.oldLines := Chunk.oldLines chunk;
                              Chunk.newStartLine := Chunk.newStartLine chunk;
                              Chunk.newLines := Chunk.newLines chunk;
                              Chunk.changes := Chunk.changes chunk;
                              Chunk.context := Chunk.context chunk;
                              Chunk.aiComments := [];
                              Chunk.reviewStatus := failed |};
                         ReviewedChunk.overallRating := unknown;
                         ReviewedChunk.suggestions := None;
                         ReviewedChunk.risks := None |}).
Proof.
  intros Hfair. eexists _, _.
  split; [apply OrchestratorFacts.reviewMultipleChunks_fair; exact Hfair|].
  split; [apply process_results|].
  split; [apply length_map|].
  intros j chunk Hj.
  destruct (found_first call chunks j chunk Hj)
    as (i & first & Hle & Hi & Hkey & Hmin & Hfound).
  exists i, first. repeat split; try assumption.
  rewrite list_lookup_fmap, Hj. cbn. now rewrite Hfound.
Qed.

Lemma inOrder_fair_two (chunks : list Chunk.t) :
  (length chunks <= 3)%nat -> fair inOrder chunks.
Proof.
  intros Hlen b batch j Hb Hj.
  unfold batchesOf in Hb.
  rewrite OrchestratorMore.makeBatches_lookup in Hb by lia.
  destruct (decide _) as [Hlt|]; [|discriminate Hb].
  injection Hb as <-. unfold slice in Hj.
  rewrite length_take in Hj. unfold concurrencyLimit in Hj.
  unfold inOrder. destruct j as [|[|[|j]]]; [repeat constructor ..|lia].
Qed.

Lemma chunk_gets_review_of_first_same_hunk_witness :
  exists results reviewedChunks,
    reviewMultipleChunks reviewByPath inOrder
                         (parseDiffToChunks twoDeletedFiles)
    = Resolves results
    /\ Review.overallRating <$> (Result.review <$> results)
       = [Some good; Some needs_attention]
    /\ processReviewResults (parseDiffToChunks twoDeletedFiles) results
       = inr reviewedChunks
    /\ ReviewedChunk.overallRating <$> reviewedChunks
       = [rated good; rated good].
Proof.
  destruct (chunk_gets_review_of_first_same_hunk
              reviewByPath inOrder (parseDiffToChunks twoDeletedFiles))
    as (results & reviewedChunks & Hresults & Hmerged & _ & _).
  - apply inOrder_fair_two. vm_compute. lia.
  - exists results, reviewedChunks.
    split; [exact Hresults|].
    vm_compute in Hresults. injection Hresults as <-.
    split; [reflexivity|].
    split; [exact Hmerged|].
    vm_compute in Hmerged. injection Hmerged as <-. reflexivity.
Defined.

(** X17.  When no two chunks have both the same [newFilePath] and the
    same [newStartLine], merging the results of [reviewMultipleChunks]
    gives every chunk its own review: status [reviewed] with the
    comments, rating, suggestions and risks of that review when it
    succeeded, status [failed] with no comment and the rating [unknown]
    otherwise. *)
Theorem distinct_hunks_get_their_own_review
        (call : nat -> Chunk.t -> settled Review.t)
        (schedule : nat -> list nat) (chunks : list Chunk.t) :
  fair schedule chunks ->
  NoDup (hunkKey <$> chunks) ->
  exists results,
    reviewMultipleChunks call schedule chunks = Resolves results
    /\ processReviewResults chunks results
       = inr (imap (fun j chunk =>
                      let review := reviewOf (call j chunk) in
                      (if Review.success review then
                         {| ReviewedChunk.chunk :=
                              {| Chunk.oldFilePath := Chunk.oldFilePath chunk;
                                 Chunk.newFilePath := Chunk.newFilePath chunk;
                                 Chunk.fileStatus := Chunk.fileStatus chunk;
                                 Chunk.oldStartLine := Chunk.oldStartLine chunk;
                                 Chunk.oldLines := Chunk.oldLines chunk;
                                 Chunk.newStartLine := Chunk.newStartLine chunk;
                                 Chunk.newLines := Chunk.newLines chunk;
                                 Chunk.changes := Chunk.changes chunk;
                                 Chunk.context := Chunk.context chunk;
                                 Chunk.aiComments := Review.aiComments review;
                                 Chunk.reviewStatus := reviewed |};
                            ReviewedChunk.overallRating :=
                              rated (match Review.overallRating review with
                                     | Some rating => rating
                                     | None => good
                                     end);
                            ReviewedChunk.suggestions :=
                              Some (match Review.suggestions review with
                                    | Some suggestions => suggestions
                                    | None => []
                                    end);
                            ReviewedChunk.risks :=
                              Some (match Review.risks review with
                                    | Some risks => risks
                                    | None => []
                                    end) |}
                       else
                         {| ReviewedChunk.chunk :=
                              {| Chunk.oldFilePath := Chunk.oldFilePath chunk;
                                 Chunk.newFilePath := Chunk.newFilePath chunk;
                                 Chunk.fileStatus := Chunk.fileStatus chunk;
                                 Chunk.oldStartLine := Chunk.oldStartLine chunk;
                                 Chunk.oldLines := Chunk.oldLines chunk;
                                 Chunk.newStartLine := Chunk.newStartLine chunk;
                                 Chunk.newLines := Chunk.newLines chunk;
                                 Chunk.changes := Chunk.changes chunk;
                                 Chunk.context := Chunk.context chunk;
                                 Chunk.aiComments := [];
                                 Chunk.reviewStatus := failed |};
                            ReviewedChunk.overallRating := unknown;
                            ReviewedChunk.suggestions := None;
                            ReviewedChunk.risks := None |}))
                   chunks).
Proof.
  intros Hfair Hdistinct. eexists.
  split; [apply OrchestratorFacts.reviewMultipleChunks_fair; exact Hfair|].
  rewrite process_results. f_equal. apply list_eq. intros j.
  rewrite list_lookup_fmap, list_lookup_imap.
  destruct (chunks !! j) as [chunk|] eqn:Hj; [|reflexivity].
  destruct (found_first call chunks j chunk Hj)
    as (i & first & _ & Hi & Hkey & _ & Hfound).
  assert (Hij : i = j).
  { apply (NoDup_lookup _ i j (hunkKey chunk) Hdistinct).
    - now rewrite list_lookup_fmap, Hi, <- Hkey.
    - now rewrite list_lookup_fmap, Hj. }
  subst i. assert (first = chunk) by congruence. subst first.
  cbn. now rewrite Hfound.
Qed.

Lemma distinct_hunks_get_their_own_review_witness :
  exists results reviewedChunks,
    reviewMultipleChunks sampleCall sampleSchedule sampleChunks
    = Resolves results
    /\ processReviewResults sampleChunks results = inr reviewedChunks
    /\ ReviewedChunk.overallRating <$> reviewedChunks
       = [rated good; unknown; rated good; rated good].
Proof.
  destruct (distinct_hunks_get_their_own_review
              sampleCall sampleSchedule sampleChunks)
    as (results & Hresults & Hmerged).
  - OrchestratorFacts.sample_fair.
  - vm_compute.
    repeat (constructor;
            [ intros H;
              repeat (apply elem_of_cons in H as [H|H]; [discriminate H|]);
              inversion H | ]).
    constructor.
  - exists results. eexists.
    split; [exact Hresults|]. split; [exact Hmerged|]. reflexivity.
Defined.

End ReviewResultsFacts.

(* ===================================================================== *)
(** ** Structuring the answer of the model *)
(* ===================================================================== *)

Module AiResponseFacts.
Import GitHubService DeepSeekService AiResponse AiResponseSpec.

Section Fold.

Variable trim : string -> string.
Variable includes : string -> string -> bool.

Lemma fold_visit sections state :
  let final := fold_left (visit trim includes) sections state in
  overallRating final
  = match last (List.filter (verdict trim includes) sections) with
    | Some section => ratingOf trim includes section
    | None => overallRating state
    end
  /\ suggestions final
     = (suggestions state
        ++ (trim <$> List.filter (advises trim includes) sections))%list
  /\ risks final
     = (risks state
        ++ (trim <$> List.filter (warns trim includes) sections))%list.
Proof.
  revert state. induction sections as [|section sections IH]; intros state.
  - cbn. now rewrite !app_nil_r.
  - cbn [fold_left List.filter]. cbv zeta.
    destruct (IH (visit trim includes state section)) as (Hr & Hs & Hk).
    rewrite Hr, Hs, Hk. clear IH Hr Hs Hk.
    unfold verdict, ratingOf, advises, warns, visit.
    cbn [overallRating suggestions risks]. cbv zeta.
    split; [|split].
    + destruct (includes (trim section) "总体评价" || includes (trim section) "整体评估"),
        (includes (trim section) "需要改进" || includes (trim section) "存在问题");
        cbn [andb]; rewrite ?last_cons;
        destruct (last (List.filter _ sections)); reflexivity.
    + destruct (includes (trim section) "具体建议" || includes (trim section) "建议");
        cbn [fmap list_fmap]; [now rewrite <- app_assoc | reflexivity].
    + destruct (includes (trim section) "风险" || includes (trim section) "安全");
        cbn [fmap list_fmap]; [now rewrite <- app_assoc | reflexivity].
Qed.

End Fold.

(** X18.  Whatever the sections the answer splits into, the rating
    [parseAIResponse] gives is decided by the last section that is an
    overall evaluation naming a problem, and is [good] when there is
    none; the suggestions and the risks are the trimmed sections that
    mention them, in order; and there is exactly one comment, which
    carries the whole answer at the first new line of the chunk, with
    the severity that goes with the rating. *)
Theorem last_verdict_decides_rating
        (split : string -> list string) (trim : string -> string)
        (includes : string -> string -> bool)
        (aiResponse : string) (chunk : Chunk.t) :
  let parsed := parseAIResponse split trim includes aiResponse chunk in
  let sections := split aiResponse in
  Parsed.rating parsed
  = match last (List.filter (verdict trim includes) sections) with
    | Some section => ratingOf trim includes section
    | None => good
    end
  /\ Parsed.suggestions parsed
     = trim <$> List.filter (advises trim includes) sections
  /\ Parsed.risks parsed
     = trim <$> List.filter (warns trim includes) sections
  /\ exists comment,
       Parsed.comments parsed = [comment]
       /\ Comment.content comment = aiResponse
       /\ Comment.line comment = Chunk.newStartLine chunk
       /\ Comment.severity comment
          = match Parsed.rating parsed with
            | needs_attention => high
            | needs_improvement => medium
            | good => low
            end.
Proof.
  cbv zeta. unfold parseAIResponse. cbv zeta.
  cbn [Parsed.rating Parsed.suggestions Parsed.risks Parsed.comments].
  destruct (fold_visit trim includes (split aiResponse)
              {| overallRating := good; suggestions := []; risks := [] |})
    as (Hr & Hs & Hk).
  cbv zeta in Hr, Hs, Hk. rewrite Hs, Hk.
  split; [exact Hr|]. split; [reflexivity|]. split; [reflexivity|].
  eexists. split; [reflexivity|]. repeat split; reflexivity.
Qed.

End AiResponseFacts.

(* ===================================================================== *)
(** ** Posting the review to the pull request *)
(* ===================================================================== *)

Module ReviewCommentsFacts.
Import GitHubService DeepSeekService PullRequestHandler.
Import ReviewResults ReviewComments ReviewCommentsSpec.

Section Posting.

Variable github : nat -> async (option json).





End Posting.









End ReviewCommentsFacts.
